(** * QjNotebook: the retrieval-and-synthesis core

    A shallow embedding of the Python services under
    [backend/app/services] (rerankers, retriever factory, LLM factory and
    the LangChain RAG pipeline) together with the properties the
    specification states about them.

    Conventions.
    - Python [int] is [Z].  A Python [float] is the rational number
      [Q] it denotes, so comparisons are the mathematical ones; float
      arithmetic is the exact operation followed by the rounding of
      IEEE 754 binary64 ([Float64.round]).  Infinities and NaN are
      outside the model.
    - Python [str] is [string] (a byte string holding UTF-8).
    - A Python exception is the [Raise] case of [result]; mutable process
      state is threaded explicitly through the monad [M].
    - Third-party libraries (LangChain retrievers, chat models, vector
      stores, scikit-learn) are not part of the repository: their
      behaviour enters through the record [External]. *)

From Stdlib Require Import QArith ZArith Qround.
From stdpp Require Import gmap strings list pretty sorting.

Close Scope Q_scope.

(* ===================================================================== *)
(** * Python runtime fragments *)
(* ===================================================================== *)

Module Py.

(** The outcome of a call: a value, or a raised exception whose
    [str(e)] is the carried message. *)
Inductive result (A : Type) : Type :=
| Ok (a : A)
| Raise (e : string).
Arguments Ok {A} a.
Arguments Raise {A} e.

(** [x < y] on floats. *)
Definition Qlt_b (x y : Q) : bool := negb (Qle_bool y x).

(** [max(xs, key=key)] on a non-empty sequence [best :: l]: the first
    element whose key is maximal (a later element replaces the running
    best only when strictly greater).  [numpy.argmax] has the same
    first-occurrence rule. *)
Fixpoint max_by {A : Type} (key : A -> Q) (best : A) (l : list A) : A :=
  match l with
  | [] => best
  | x :: l' => max_by key (if Qlt_b (key best) (key x) then x else best) l'
  end.

(** [numpy.max] of a non-empty array [x :: l]. *)
Definition np_max (x : Q) (l : list Q) : Q := max_by (fun v => v) x l.

(** [list.remove(x)]: drops the first occurrence of [x]. *)
Fixpoint remove (x : nat) (l : list nat) : list nat :=
  match l with
  | [] => []
  | y :: l' => if Nat.eqb x y then l' else y :: remove x l'
  end.

(** [seq[:n]] for an integer [n] (negative [n] counts from the end). *)
Definition slice_to {A : Type} (n : Z) (l : list A) : list A :=
  if (0 <=? n)%Z then take (Z.to_nat n) l
  else take (length l - Z.to_nat (- n)) l.

(** Truthiness of an [Optional[int]]: [None] and [0] are falsy. *)
Definition truthy_int (o : option Z) : bool :=
  match o with
  | Some n => negb (n =? 0)%Z
  | None => false
  end.

(** [a or b] where [a : Optional[int]] and [b : int]. *)
Definition int_or (o : option Z) (d : Z) : Z :=
  match o with
  | Some n => if (n =? 0)%Z then d else n
  | None => d
  end.

(** [a or b] on strings: the empty string is falsy. *)
Definition str_or (a b : string) : string :=
  match a with
  | EmptyString => b
  | _ => a
  end.

(** [a or b] where [a : Optional[str]]. *)
Definition optstr_or (a : option string) (b : string) : string :=
  match a with
  | Some s => str_or s b
  | None => b
  end.

(** [len(s)] counts code points: in UTF-8, every byte that is not a
    continuation byte [10xxxxxx] starts one. *)
Fixpoint len (s : string) : nat :=
  match s with
  | EmptyString => 0
  | String c s' =>
      let n := Ascii.nat_of_ascii c in
      (if (128 <=? n)%nat && (n <? 192)%nat then 0 else 1) + len s'
  end.

(** [sep.join(parts)]. *)
Fixpoint join (sep : string) (parts : list string) : string :=
  match parts with
  | [] => ""
  | [p] => p
  | p :: rest => p ++ sep ++ join sep rest
  end.

End Py.
Export Py.

(** Arithmetic on Python floats: IEEE 754 binary64 with rounding to
    nearest, ties to even.  A finite float is the rational it denotes
    (the two zeros are one value); an operation computes the exact
    result and rounds it.  Overflow to an infinity is not modelled:
    the values stay far below [2^1024]. *)
Module Float64.

(** 53 significant bits; [2^emin] is the least positive float. *)
Definition prec : Z := 53.
Definition emin : Z := (-1074)%Z.

(** [2^e] *)
Definition pow2 (e : Z) : Q :=
  if (0 <=? e)%Z then inject_Z (2 ^ e) else (1 # Z.to_pos (2 ^ (- e)))%Q.

(** The integer part of the binary logarithm of a positive rational. *)
Definition ilog2 (x : Q) : Z :=
  let e := (Z.log2 (Qnum x) - Z.log2 (Zpos (Qden x)))%Z in
  if Qle_bool (pow2 e) x then e else (e - 1)%Z.

(** The nearest integer, the even one of two equally near. *)
Definition rint (x : Q) : Z :=
  let f := Qfloor x in
  match (x - inject_Z f ?= 1 # 2)%Q with
  | Lt => f
  | Gt => (f + 1)%Z
  | Eq => if Z.even f then f else (f + 1)%Z
  end.

(** The float nearest to a positive rational: a multiple of the unit in
    the last place [2^e], which is [2^emin] in the subnormal range. *)
Definition round_pos (x : Q) : Q :=
  let e := Z.max (ilog2 x - (prec - 1)) emin in
  (inject_Z (rint (x / pow2 e)) * pow2 e)%Q.

(** The float nearest to a rational, in lowest terms. *)
Definition round (x : Q) : Q :=
  let x' := Qred x in
  Qred (match Qnum x' with
        | Z0 => 0
        | Zpos _ => round_pos x'
        | Zneg _ => - round_pos (- x')
        end)%Q.

(** [x * y] and [x - y] on floats. *)
Definition mul (x y : Q) : Q := round (x * y).
Definition sub (x y : Q) : Q := round (x - y).

(** The rationals that are floats. *)
Definition is_float (x : Q) : Prop := (round x == x)%Q.

End Float64.

(* ===================================================================== *)
(** * Documents *)
(* ===================================================================== *)

(** [Document.metadata].  The keys the core reads or writes are typed
    fields ([None]: key absent); every other key lives in [md_extra]. *)
Record Metadata : Type := {
  md_source : option string;
  md_score : option Q;
  md_mmr_rank : option Z;
  md_original_score : option Q;
  md_extra : list (string * string)
}.

Record Document : Type := {
  page_content : string;
  metadata : Metadata
}.

(** [doc.metadata.get('score', 0.0)] *)
Definition get_score (doc : Document) : Q :=
  default 0%Q (md_score (metadata doc)).

(** [doc.metadata['mmr_rank'] = rank; doc.metadata['original_score'] = s] *)
Definition set_mmr_metadata (rank : Z) (s : Q) (doc : Document) : Document :=
  {| page_content := page_content doc;
     metadata :=
       {| md_source := md_source (metadata doc);
          md_score := md_score (metadata doc);
          md_mmr_rank := Some rank;
          md_original_score := Some s;
          md_extra := md_extra (metadata doc) |} |}.

(* ===================================================================== *)
(** * retrievers/reranker.py *)
(* ===================================================================== *)

(** What the TF-IDF vectoriser and [cosine_similarity] deliver for one
    call: [query_sim i] is the cosine similarity between the query row
    and document row [i]; [doc_sim i j] the one between document rows
    [i] and [j]. *)
Record Similarities : Type := {
  query_sim : nat -> Q;
  doc_sim : nat -> nat -> Q
}.

Module BasicReranker.

(** [scored_docs.sort(key=lambda x: x[1], reverse=True)]: Python's sort
    is stable, also under [reverse=True]; an element goes in front of
    the first later element whose score does not exceed its own. *)
Fixpoint insert_desc (x : Document * Q) (l : list (Document * Q))
  : list (Document * Q) :=
  match l with
  | [] => [x]
  | y :: l' =>
      if Qlt_b (snd x) (snd y) then y :: insert_desc x l' else x :: y :: l'
  end.

Fixpoint sort_desc (l : list (Document * Q)) : list (Document * Q) :=
  match l with
  | [] => []
  | x :: l' => insert_desc x (sort_desc l')
  end.

Definition rerank_documents
    (query : string) (documents : list Document) (top_k : option Z)
  : list Document :=
  let scored_docs := map (fun doc => (doc, get_score doc)) documents in
  let reranked := map fst (sort_desc scored_docs) in
  if truthy_int top_k
  then slice_to (default 0%Z top_k) reranked
  else reranked.

End BasicReranker.

Module MMRReranker.

Record t : Type := {
  lambda_mult : Q;
  k1 : Z
}.

(** [MMRReranker(lambda_mult=0.5, k1=20)] defaults. *)
Definition make (lam : Q) : t := {| lambda_mult := lam; k1 := 20%Z |}.

(** [min(top_k or len(documents), len(documents))] *)
Definition target_count (top_k : option Z) (n : nat) : Z :=
  Z.min (int_or top_k (Z.of_nat n)) (Z.of_nat n).

(** [max_sim_to_selected]: [0.0] when nothing is selected, otherwise
    [np.max] of the similarities to the selected rows. *)
Definition max_sim_to_selected
    (sims : Similarities) (selected : list nat) (idx : nat) : Q :=
  match selected with
  | [] => 0%Q
  | s :: rest => np_max (doc_sim sims idx s) (map (doc_sim sims idx) rest)
  end.

(** [self.lambda_mult * query_sim - (1 - self.lambda_mult) *
    max_sim_to_selected]: four float operations. *)
Definition mmr_score
    (lam : Q) (sims : Similarities) (selected : list nat) (idx : nat) : Q :=
  Float64.sub
    (Float64.mul lam (query_sim sims idx))
    (Float64.mul (Float64.sub 1 lam)
       (max_sim_to_selected sims selected idx)).

(** The [while len(selected_indices) < target_count and
    remaining_indices] loop.  Every round removes one index from
    [remaining_indices], so [fuel = len(remaining_indices)] rounds are
    all the loop can take. *)
Fixpoint select_loop
    (fuel : nat) (lam : Q) (sims : Similarities) (target : Z)
    (selected remaining : list nat) : list nat :=
  match fuel with
  | O => selected
  | S fuel' =>
      if (Z.of_nat (length selected) <? target)%Z then
        match map (fun idx => (idx, mmr_score lam sims selected idx))
                  remaining with
        | [] => selected
        | first :: others =>
            let best_idx := fst (max_by snd first others) in
            select_loop fuel' lam sims target
              (selected ++ [best_idx]) (Py.remove best_idx remaining)
        end
      else selected
  end.

(** [selected_indices] when the loop is left. *)
Definition selected_indices
    (lam : Q) (sims : Similarities) (top_k : option Z) (n : nat)
  : list nat :=
  let remaining_indices := seq 0 n in
  let first_idx := max_by (query_sim sims) 0 (seq 1 (n - 1)) in
  let remaining_indices := Py.remove first_idx remaining_indices in
  let target := target_count top_k n in
  select_loop (length remaining_indices) lam sims target
    [first_idx] remaining_indices.

(** [[documents[i] for i in selected_indices]] followed by the metadata
    update; [None] stands for an [IndexError]. *)
Definition reranked_docs
    (sims : Similarities) (documents : list Document) (selected : list nat)
  : option (list Document) :=
  docs ← mapM (fun i => documents !! i) selected;
  Some (imap (fun i doc =>
                set_mmr_metadata (Z.of_nat i + 1)
                  (query_sim sims (default 0 (selected !! i))) doc) docs).

Section WithVectorizer.

(** [self.vectorizer.fit_transform([query] + doc_texts)] and the
    cosine similarities read off it; [Raise] when scikit-learn
    raises (for instance on an empty vocabulary). *)
Variable fit_transform : string -> list string -> result Similarities.

Definition rerank_documents
    (self : t) (query : string) (documents : list Document)
    (top_k : option Z) : list Document :=
  match documents with
  | [] => documents
  | [_] => documents
  | _ =>
      let doc_texts := map page_content documents in
      match fit_transform query doc_texts with
      | Ok sims =>
          let selected :=
            selected_indices (lambda_mult self) sims top_k
              (length documents) in
          match reranked_docs sims documents selected with
          | Some docs => docs
          | None =>
              BasicReranker.rerank_documents query documents top_k
          end
      | Raise _ =>
          BasicReranker.rerank_documents query documents top_k
      end
  end.

End WithVectorizer.

End MMRReranker.

(** The reranker objects of reranker.py. *)
Inductive Reranker : Type :=
| Basic
| MMR (self : MMRReranker.t).

(* ===================================================================== *)
(** * config.py *)
(* ===================================================================== *)

(** The fields of [AppConfig] the services read. *)
Record AppConfig : Type := {
  vector_store : string;
  chroma_dir : string;
  milvus_host : string;
  milvus_port : string;
  retriever_type : string;
  hybrid_alpha : Q;
  reranker_type : string;
  mmr_lambda : Q;
  top_k_retrieval : Z;
  embedding_provider : string;
  embedding_model : string;
  openai_embed_base_url : string;
  openai_embed_api_key : string;
  hf_embedding_model : string;
  llm_provider : string;
  openai_base_url : string;
  openai_api_key : string;
  openai_model : string;
  deepseek_base_url : string;
  deepseek_api_key : string;
  deepseek_model : string;
  gemini_api_key : string;
  gemini_model : string;
  doubao_base_url : string;
  doubao_api_key : string;
  doubao_model : string
}.

(* ===================================================================== *)
(** * Objects of the third-party libraries *)
(* ===================================================================== *)

(** A chat model as its constructor call describes it. *)
Inductive ChatModel : Type :=
| ChatOpenAI (base_url api_key model : string)
             (temperature : Q) (max_tokens : Z)
| ChatGoogleGenerativeAI (google_api_key model : string)
                         (temperature : Q) (max_output_tokens : Z).

(** A live chat-model object: [llm_id] is its identity (the number of
    chat models the process had constructed before it). *)
Record LLM : Type := {
  llm_id : nat;
  llm_model : ChatModel
}.

Inductive Embeddings : Type :=
| OpenAIEmbeddings (model openai_api_key openai_api_base : string)
                   (chunk_size max_retries : Z)
| HuggingFaceEmbeddings (model_name : string).

(** What is sent to [llm.invoke]: a plain string or chat messages
    [(role, text)]. *)
Inductive Prompt : Type :=
| PText (s : string)
| PChat (messages : list (string * string)).

(** A vector store is used through [similarity_search(query, k)] only. *)
Record VectorStore : Type := {
  similarity_search : string -> Z -> result (list Document)
}.

(** The retriever classes; each is a direct subclass of LangChain's
    [BaseRetriever], [RerankedRetriever] being the one reranker.py
    defines.  The constructors below describe objects; whether the
    class's [__init__] lets one come into being is another matter
    (see [RerankedRetriever__init__]). *)
#[warnings="-register-all"]
Inductive Retriever : Type :=
| VectorStoreRetriever (vs : VectorStore) (search_kwargs : gmap string Z)
| BM25Retriever (docs : list Document) (k : Z)
| EnsembleRetriever (retrievers : list Retriever) (weights : list Q)
| MultiQueryRetriever (retriever : Retriever) (llm : LLM)
| ContextualCompressionRetriever (base_compressor : LLM)
                                 (base_retriever : Retriever)
| RerankedRetriever (base_retriever : Retriever) (reranker : Reranker).

Inductive RetrieverClass : Type :=
| CVectorStoreRetriever
| CBM25Retriever
| CEnsembleRetriever
| CMultiQueryRetriever
| CContextualCompressionRetriever
| CRerankedRetriever.

#[global] Instance RetrieverClass_eq_dec : EqDecision RetrieverClass.
Proof. solve_decision. Defined.

(** [type(r)] *)
Definition type_of (r : Retriever) : RetrieverClass :=
  match r with
  | VectorStoreRetriever _ _ => CVectorStoreRetriever
  | BM25Retriever _ _ => CBM25Retriever
  | EnsembleRetriever _ _ => CEnsembleRetriever
  | MultiQueryRetriever _ _ => CMultiQueryRetriever
  | ContextualCompressionRetriever _ _ => CContextualCompressionRetriever
  | RerankedRetriever _ _ => CRerankedRetriever
  end.

(** [isinstance(r, c)] for a concrete retriever class [c]: none of the
    six classes derives from another. *)
Definition isinstance (r : Retriever) (c : RetrieverClass) : bool :=
  bool_decide (type_of r = c).

(** Behaviour of everything outside the repository. *)
Record External : Type := {
  (** [time.time()] as a function of the number of earlier readings *)
  wall_clock : nat -> Q;
  (** [str.strip()] *)
  strip : string -> string;
  (** a chat-model constructor: [Some e] when it raises [e] *)
  chat_model_init : ChatModel -> option string;
  (** [llm.invoke(prompt)], answered as the [n]-th invocation of the
      process; the text is [response.content] *)
  llm_reply : LLM -> Prompt -> nat -> result string;
  (** an embeddings constructor: [Some e] when it raises [e] *)
  embeddings_init : Embeddings -> option string;
  (** [Chroma(collection_name, embedding_function, persist_directory)] *)
  chroma : string -> Embeddings -> string -> result VectorStore;
  (** [Milvus(embedding_function, collection_name, connection_args)] *)
  milvus : Embeddings -> string -> string -> string -> result VectorStore;
  (** [Path(dir) / name] as a string *)
  path_join : string -> string -> string;
  (** the default [k] of [similarity_search] when [search_kwargs] has
      no ["k"] *)
  default_search_k : Z;
  (** [BM25Retriever.from_texts]: [Some e] when it raises [e] *)
  bm25_init : list string -> option string;
  (** [BM25Retriever.get_relevant_documents] *)
  bm25_search : list Document -> Z -> string -> result (list Document);
  (** the rank fusion of [EnsembleRetriever] *)
  ensemble_rank : list Q -> list (list Document) -> list Document;
  (** [MultiQueryRetriever]: its prompt, the queries read off the reply,
      and the union of the per-query results *)
  multi_query_prompt : string -> Prompt;
  multi_query_parse : string -> list string;
  unique_union : list (list Document) -> list Document;
  (** [LLMChainExtractor]: its prompt and the extract read off the
      reply ([None]: the document is dropped) *)
  extractor_prompt : string -> Document -> Prompt;
  extractor_parse : string -> option string;
  (** [TfidfVectorizer.fit_transform] with the cosine similarities *)
  fit_transform : string -> list string -> result Similarities
}.

(** The double quote of the message below. *)
Definition dquote : string := String (Ascii.ascii_of_nat 34) EmptyString.

(** [str(e)] of the [ValueError] pydantic raises when an attribute that
    is not a declared field is assigned on a model. *)
Definition no_field_error (class_name field : string) : string :=
  dquote +:+ class_name +:+ dquote +:+ " object has no field " +:+ dquote
  +:+ field +:+ dquote.

(** The message for [self.base_retriever] on a [RerankedRetriever]. *)
Definition reranked_init_error : string :=
  no_field_error "RerankedRetriever" "base_retriever".

(** [RerankedRetriever.__init__(base_retriever, reranker)]:
    [super().__init__()], then [self.base_retriever = base_retriever].
    [BaseRetriever] is a pydantic model and the class declares no
    field, so this first assignment raises and the constructor call
    yields no object, whatever its arguments. *)
Definition RerankedRetriever__init__
    (base_retriever : Retriever) (reranker : Reranker) : result Retriever :=
  Raise reranked_init_error.

(** [BaseReranker.rerank_retriever]:
    [return RerankedRetriever(retriever, self)] *)
Definition rerank_retriever (self : Reranker) (retriever : Retriever)
  : result Retriever :=
  RerankedRetriever__init__ retriever self.

(** [reranker.rerank_documents(query, documents, top_k)] *)
Definition rerank_documents
    (ext : External) (r : Reranker) (query : string)
    (documents : list Document) (top_k : option Z) : list Document :=
  match r with
  | Basic => BasicReranker.rerank_documents query documents top_k
  | MMR self =>
      MMRReranker.rerank_documents (fit_transform ext) self query documents
        top_k
  end.

(* ===================================================================== *)
(** * Process state and the state-and-exception monad *)
(* ===================================================================== *)

Record World : Type := {
  (** number of [time.time()] readings so far *)
  clock_reads : nat;
  (** the [_llms] dictionary of every [LLMFactory] object, by address *)
  llm_factories : gmap nat (gmap string LLM);
  (** the next free [LLMFactory] address *)
  next_factory : nat;
  (** every chat model constructed so far, oldest first, with the
      factory that built it and the provider name it was built for *)
  built : list (nat * string * LLM);
  (** every [llm.invoke] so far, oldest first *)
  invoked : list (LLM * Prompt);
  (** [EmbeddingFactory._embeddings] of the pipeline *)
  embeddings_cache : option Embeddings;
  (** [LangChainRAGPipeline.current_provider] *)
  current_provider : string
}.

Definition M (A : Type) : Type := World -> result A * World.

#[global] Instance M_ret : MRet M := fun A a w => (Ok a, w).

#[global] Instance M_bind : MBind M := fun A B f m w =>
  match m w with
  | (Ok a, w') => f a w'
  | (Raise e, w') => (Raise e, w')
  end.

(** [raise Exception(e)] *)
Definition raise {A : Type} (e : string) : M A := fun w => (Raise e, w).

(** [try: body / except Exception as e: handler(e)] *)
Definition try_except {A : Type} (body : M A) (handler : string -> M A)
  : M A := fun w =>
  match body w with
  | (Ok a, w') => (Ok a, w')
  | (Raise e, w') => handler e w'
  end.

(** Lifts the outcome of a call that touches no process state. *)
Definition lift {A : Type} (r : result A) : M A := fun w => (r, w).

Definition get_world : M World := fun w => (Ok w, w).

(** Field updates of the process state. *)
Definition tick (w : World) : World :=
  {| clock_reads := S (clock_reads w);
     llm_factories := llm_factories w;
     next_factory := next_factory w;
     built := built w;
     invoked := invoked w;
     embeddings_cache := embeddings_cache w;
     current_provider := current_provider w |}.

Definition log_invoke (llm : LLM) (prompt : Prompt) (w : World) : World :=
  {| clock_reads := clock_reads w;
     llm_factories := llm_factories w;
     next_factory := next_factory w;
     built := built w;
     invoked := invoked w ++ [(llm, prompt)];
     embeddings_cache := embeddings_cache w;
     current_provider := current_provider w |}.

Definition new_factory (w : World) : World :=
  {| clock_reads := clock_reads w;
     llm_factories := <[next_factory w := ∅]> (llm_factories w);
     next_factory := S (next_factory w);
     built := built w;
     invoked := invoked w;
     embeddings_cache := embeddings_cache w;
     current_provider := current_provider w |}.

Definition log_built (factory : nat) (provider : string) (llm : LLM)
    (w : World) : World :=
  {| clock_reads := clock_reads w;
     llm_factories := llm_factories w;
     next_factory := next_factory w;
     built := built w ++ [(factory, provider, llm)];
     invoked := invoked w;
     embeddings_cache := embeddings_cache w;
     current_provider := current_provider w |}.

Definition store_llm (factory : nat) (provider : string) (llm : LLM)
    (w : World) : World :=
  {| clock_reads := clock_reads w;
     llm_factories :=
       <[factory := <[provider := llm]>
                      (default ∅ (llm_factories w !! factory))]>
         (llm_factories w);
     next_factory := next_factory w;
     built := built w;
     invoked := invoked w;
     embeddings_cache := embeddings_cache w;
     current_provider := current_provider w |}.

Definition store_embeddings (e : Embeddings) (w : World) : World :=
  {| clock_reads := clock_reads w;
     llm_factories := llm_factories w;
     next_factory := next_factory w;
     built := built w;
     invoked := invoked w;
     embeddings_cache := Some e;
     current_provider := current_provider w |}.

Definition store_current_provider (provider : string) (w : World) : World :=
  {| clock_reads := clock_reads w;
     llm_factories := llm_factories w;
     next_factory := next_factory w;
     built := built w;
     invoked := invoked w;
     embeddings_cache := embeddings_cache w;
     current_provider := provider |}.

(** The [_llms] dictionary of the factory at address [factory]. *)
Definition llms_of (w : World) (factory : nat) : gmap string LLM :=
  default ∅ (llm_factories w !! factory).

(** [w := f w] *)
Definition modify (f : World -> World) : M unit := fun w => (Ok tt, f w).

(** [time.time()] *)
Definition time_time (ext : External) : M Q := fun w =>
  (Ok (wall_clock ext (clock_reads w)), tick w).

(** [llm.invoke(prompt)]: the call is made (and logged) whether or not
    the backend then raises. *)
Definition invoke (ext : External) (llm : LLM) (prompt : Prompt)
  : M string := fun w =>
  (llm_reply ext llm prompt (length (invoked w)), log_invoke llm prompt w).

(* ===================================================================== *)
(** * llms/factory.py *)
(* ===================================================================== *)

Module LLMFactory.

(** [LLMFactory(config)]: a new object with an empty [_llms]; the
    result is its address. *)
Definition init : M nat := fun w => (Ok (next_factory w), new_factory w).

(** The constructor call [_create_llm] makes for [provider], or the
    [ValueError] it raises. *)
Definition _create_llm (config : AppConfig) (provider : string)
  : result ChatModel :=
  if String.eqb provider "openai" then
    Ok (ChatOpenAI (openai_base_url config) (openai_api_key config)
          (openai_model config) (Float64.round (1 # 10)) 4000%Z)
  else if String.eqb provider "deepseek" then
    Ok (ChatOpenAI (deepseek_base_url config) (deepseek_api_key config)
          (deepseek_model config) (Float64.round (1 # 10)) 4000%Z)
  else if String.eqb provider "gemini" then
    Ok (ChatGoogleGenerativeAI (gemini_api_key config)
          (gemini_model config) (Float64.round (1 # 10)) 4000%Z)
  else if String.eqb provider "doubao" then
    Ok (ChatOpenAI (doubao_base_url config) (doubao_api_key config)
          (doubao_model config) (Float64.round (1 # 10)) 4000%Z)
  else Raise ("Unsupported LLM provider: " ++ provider).

Section WithExternal.

Context (ext : External) (config : AppConfig).

(** Runs the constructor [_create_llm] selected: a new object, unless
    the constructor raises. *)
Definition construct (self : nat) (provider : string) : M LLM := fun w =>
  match _create_llm config provider with
  | Raise e => (Raise e, w)
  | Ok model =>
      match chat_model_init ext model with
      | Some e => (Raise e, w)
      | None =>
          let llm := {| llm_id := length (built w); llm_model := model |} in
          (Ok llm, log_built self provider llm w)
      end
  end.

Definition get_llm (self : nat) (provider : option string) : M LLM :=
  let provider := optstr_or provider (llm_provider config) in
  w ← get_world;
  match llms_of w self !! provider with
  | Some llm => mret llm
  | None =>
      llm ← construct self provider;
      _ ← modify (store_llm self provider llm);
      mret llm
  end.

(** [get_available_providers] *)
Definition get_available_providers : list string :=
  (if String.eqb (openai_api_key config) "" then [] else ["openai"])
  ++ (if String.eqb (deepseek_api_key config) "" then [] else ["deepseek"])
  ++ (if String.eqb (gemini_api_key config) "" then [] else ["gemini"])
  ++ (if String.eqb (doubao_api_key config) "" then [] else ["doubao"]).

(** [test_provider] *)
Definition test_provider (self : nat) (provider : string) : M bool :=
  try_except
    (llm ← get_llm self (Some provider);
     response ← invoke ext llm (PText "Hello");
     mret (negb (String.eqb response "")))
    (fun _ => mret false).

End WithExternal.

End LLMFactory.

(* ===================================================================== *)
(** * embeddings/factory.py and vectorstores/factory.py *)
(* ===================================================================== *)

Module EmbeddingFactory.

Definition _create_embeddings (config : AppConfig) (provider : string)
  : result Embeddings :=
  if String.eqb provider "openai" then
    Ok (OpenAIEmbeddings (embedding_model config)
          (openai_embed_api_key config) (openai_embed_base_url config)
          1000%Z 3%Z)
  else if String.eqb provider "hf" || String.eqb provider "huggingface" then
    Ok (HuggingFaceEmbeddings (hf_embedding_model config))
  else Raise ("Unsupported embedding provider: " ++ provider).

Section WithExternal.

Context (ext : External) (config : AppConfig).

Definition get_embeddings (provider : option string) : M Embeddings :=
  let provider := optstr_or provider (embedding_provider config) in
  w ← get_world;
  match embeddings_cache w with
  | Some e => mret e
  | None =>
      e ← lift (_create_embeddings config provider);
      match embeddings_init ext e with
      | Some msg => raise msg
      | None =>
          _ ← modify (store_embeddings e);
          mret e
      end
  end.

End WithExternal.

End EmbeddingFactory.

Module VectorStoreFactory.

Section WithExternal.

Context (ext : External) (config : AppConfig).

Definition get_vector_store
    (collection_name : string) (embeddings : Embeddings)
  : result VectorStore :=
  if String.eqb (vector_store config) "chroma" then
    chroma ext collection_name embeddings
      (path_join ext (chroma_dir config) collection_name)
  else if String.eqb (vector_store config) "milvus" then
    milvus ext embeddings collection_name (milvus_host config)
      (milvus_port config)
  else Raise ("Unsupported vector store: " ++ vector_store config).

End WithExternal.

End VectorStoreFactory.

(* ===================================================================== *)
(** * Retrieval through a retriever object *)
(* ===================================================================== *)

(** [[f(x) for x in l]] with the effects of each call, in order. *)
Fixpoint for_each {A B : Type} (f : A -> M B) (l : list A) : M (list B) :=
  match l with
  | [] => mret []
  | x :: l' => y ← f x; ys ← for_each f l'; mret (y :: ys)
  end.

Section Retrieval.

Context (ext : External).

(** [search_kwargs.get("k")] as [similarity_search] receives it. *)
Definition search_k (search_kwargs : gmap string Z) : Z :=
  default (default_search_k ext) (search_kwargs !! "k").

(** The extraction step of [ContextualCompressionRetriever]: one
    [invoke] per document; documents with no extract are dropped. *)
Fixpoint compress_documents
    (llm : LLM) (query : string) (docs : list Document)
  : M (list Document) :=
  match docs with
  | [] => mret []
  | doc :: docs' =>
      reply ← invoke ext llm (extractor_prompt ext query doc);
      rest ← compress_documents llm query docs';
      match extractor_parse ext reply with
      | Some content =>
          mret ({| page_content := content; metadata := metadata doc |}
                :: rest)
      | None => mret rest
      end
  end.

(** [retriever.get_relevant_documents(query)].  The
    [RerankedRetriever] case is [_get_relevant_documents] of
    reranker.py; the others are LangChain's. *)
Fixpoint get_relevant_documents (r : Retriever) (query : string) {struct r}
  : M (list Document) :=
  match r with
  | VectorStoreRetriever vs search_kwargs =>
      lift (similarity_search vs query (search_k search_kwargs))
  | BM25Retriever docs k => lift (bm25_search ext docs k query)
  | EnsembleRetriever retrievers weights =>
      lists ← (fix each (rs : list Retriever) : M (list (list Document)) :=
                 match rs with
                 | [] => mret []
                 | r' :: rs' =>
                     docs ← get_relevant_documents r' query;
                     rest ← each rs';
                     mret (docs :: rest)
                 end) retrievers;
      mret (ensemble_rank ext weights lists)
  | MultiQueryRetriever retriever llm =>
      reply ← invoke ext llm (multi_query_prompt ext query);
      lists ← for_each (get_relevant_documents retriever)
                (multi_query_parse ext reply);
      mret (unique_union ext lists)
  | ContextualCompressionRetriever base_compressor base_retriever =>
      docs ← get_relevant_documents base_retriever query;
      compress_documents base_compressor query docs
  | RerankedRetriever base_retriever reranker =>
      documents ← get_relevant_documents base_retriever query;
      mret (rerank_documents ext reranker query documents None)
  end.

End Retrieval.

(* ===================================================================== *)
(** * retrievers/factory.py *)
(* ===================================================================== *)

Module RetrieverFactory.

Section WithExternal.

Context (ext : External) (config : AppConfig).

Definition _create_vector_retriever
    (vector_store : VectorStore) (search_kwargs : gmap string Z)
  : result Retriever :=
  let retriever := VectorStoreRetriever vector_store search_kwargs in
  if String.eqb (reranker_type config) "mmr" then
    rerank_retriever (MMR (MMRReranker.make (mmr_lambda config))) retriever
  else if String.eqb (reranker_type config) "basic" then
    rerank_retriever Basic retriever
  else Ok retriever.

(** [try: body / except Exception: handler] for code that touches no
    process state; [print] is not modelled. *)
Definition try_or {A : Type} (body handler : result A) : result A :=
  match body with
  | Ok a => Ok a
  | Raise _ => handler
  end.

(** Inside the [try]: the namespace listing, the vector fallback for
    an empty listing, and the construction of the lexical index.  The
    handler calls [_create_vector_retriever] again, outside any [try]. *)
Definition _create_bm25_retriever
    (vector_store : VectorStore) (search_kwargs : gmap string Z)
  : result Retriever :=
  try_or
    (match similarity_search vector_store "" 10000%Z with
     | Raise e => Raise e
     | Ok [] => _create_vector_retriever vector_store search_kwargs
     | Ok all_docs =>
         let texts := map page_content all_docs in
         let metadatas := map metadata all_docs in
         match bm25_init ext texts with
         | Some e => Raise e
         | None =>
             Ok (BM25Retriever
                   (zip_with (fun text md =>
                                {| page_content := text; metadata := md |})
                      texts metadatas)
                   (default (top_k_retrieval config) (search_kwargs !! "k")))
         end
     end)
    (_create_vector_retriever vector_store search_kwargs).

(** Inside the [try]: [as_retriever], the lexical builder, the
    [isinstance] test and the ensemble.  An exception that leaves
    [_create_bm25_retriever] enters the handler, which calls
    [_create_vector_retriever] outside any [try]. *)
Definition _create_hybrid_retriever
    (vector_store : VectorStore) (search_kwargs : gmap string Z)
  : result Retriever :=
  try_or
    (let vector_retriever :=
       VectorStoreRetriever vector_store search_kwargs in
     match _create_bm25_retriever vector_store search_kwargs with
     | Raise e => Raise e
     | Ok bm25_retriever =>
         if isinstance bm25_retriever (type_of vector_retriever) then
           Ok vector_retriever
         else
           Ok (EnsembleRetriever [vector_retriever; bm25_retriever]
                 [hybrid_alpha config;
                  Float64.sub 1 (hybrid_alpha config)])
     end)
    (_create_vector_retriever vector_store search_kwargs).

Definition _create_multi_query_retriever
    (vector_store : VectorStore) (search_kwargs : gmap string Z)
  : M Retriever :=
  try_except
    (llm_factory ← LLMFactory.init;
     llm ← LLMFactory.get_llm ext config llm_factory None;
     let base_retriever :=
       VectorStoreRetriever vector_store search_kwargs in
     mret (MultiQueryRetriever base_retriever llm))
    (fun _ =>
       lift (_create_vector_retriever vector_store search_kwargs)).

Definition _create_contextual_compression_retriever
    (vector_store : VectorStore) (search_kwargs : gmap string Z)
  : M Retriever :=
  try_except
    (llm_factory ← LLMFactory.init;
     llm ← LLMFactory.get_llm ext config llm_factory None;
     let base_retriever :=
       VectorStoreRetriever vector_store search_kwargs in
     mret (ContextualCompressionRetriever llm base_retriever))
    (fun _ =>
       lift (_create_vector_retriever vector_store search_kwargs)).

(** [search_kwargs or {"k": self.config.top_k_retrieval}]: [None] and
    the empty dictionary are falsy. *)
Definition kwargs_or_default (search_kwargs : option (gmap string Z))
  : gmap string Z :=
  match search_kwargs with
  | Some kw =>
      if decide (kw = ∅) then {[ "k" := top_k_retrieval config ]} else kw
  | None => {[ "k" := top_k_retrieval config ]}
  end.

Definition create_retriever
    (vector_store : VectorStore) (retriever_type' : option string)
    (search_kwargs : option (gmap string Z)) : M Retriever :=
  let retriever_type := optstr_or retriever_type' (retriever_type config) in
  let search_kwargs := kwargs_or_default search_kwargs in
  if String.eqb retriever_type "vector" then
    lift (_create_vector_retriever vector_store search_kwargs)
  else if String.eqb retriever_type "bm25" then
    lift (_create_bm25_retriever vector_store search_kwargs)
  else if String.eqb retriever_type "hybrid" then
    lift (_create_hybrid_retriever vector_store search_kwargs)
  else if String.eqb retriever_type "multi_query" then
    _create_multi_query_retriever vector_store search_kwargs
  else if String.eqb retriever_type "contextual_compression" then
    _create_contextual_compression_retriever vector_store search_kwargs
  else lift (_create_vector_retriever vector_store search_kwargs).

Definition get_available_types : list string :=
  ["vector"; "bm25"; "hybrid"; "multi_query"; "contextual_compression"].

Definition test_retriever (retriever : Retriever) (query : string)
  : M bool :=
  try_except
    (_ ← get_relevant_documents ext retriever query; mret true)
    (fun _ => mret false).

End WithExternal.

End RetrieverFactory.

(* ===================================================================== *)
(** * rag/prompts.py *)
(* ===================================================================== *)

Module RAGPrompts.

(** The line feed of the Python literals. *)
Definition nl : string := String (Ascii.ascii_of_nat 10) "".

Definition qa_system_message (context : string) : string :=
  "你是一个专业的知识库助手，能够基于提供的上下文信息准确回答用户问题。

请遵循以下原则：
1. 仅基于提供的上下文信息回答问题
2. 如果上下文中没有相关信息，请明确说明
3. 回答要准确、简洁、有条理
4. 可以适当引用上下文中的具体内容
5. 使用中文回答

上下文信息：
" +:+ context.

Definition conversational_qa_system_message
    (chat_history context : string) : string :=
  "你是一个专业的知识库助手，能够基于提供的上下文信息和对话历史准确回答用户问题。

请遵循以下原则：
1. 仅基于提供的上下文信息回答问题
2. 考虑对话历史，保持上下文连贯性
3. 如果上下文中没有相关信息，请明确说明
4. 回答要准确、简洁、有条理
5. 可以适当引用上下文中的具体内容
6. 使用中文回答

对话历史：
" +:+ chat_history +:+ "

上下文信息：
" +:+ context.

Definition question_rewrite_system_message (chat_history : string)
  : string :=
  "你是一个问题重写专家。基于对话历史，将用户的当前问题重写为一个独立、完整的问题。

重写原则：
1. 保持问题的核心意图不变
2. 补充必要的上下文信息
3. 确保重写后的问题可以独立理解
4. 使用中文
5. 如果当前问题已经很完整，可以保持不变

对话历史：
" +:+ chat_history.

(** [get_qa_prompt()] filled in with its variables. *)
Definition get_qa_prompt (context question : string) : Prompt :=
  PChat [("system", qa_system_message context);
         ("human", "问题：" +:+ question)].

Definition get_conversational_qa_prompt
    (context chat_history question : string) : Prompt :=
  PChat [("system", conversational_qa_system_message chat_history context);
         ("human", "问题：" +:+ question)].

Definition get_question_rewrite_prompt (chat_history question : string)
  : Prompt :=
  PChat [("system", question_rewrite_system_message chat_history);
         ("human",
          "当前问题：" +:+ question +:+ nl +:+ nl +:+ "请重写这个问题：")].

End RAGPrompts.

(* ===================================================================== *)
(** * rag/langchain_pipeline.py *)
(* ===================================================================== *)

(** One entry of [sources]. *)
Record Source : Type := {
  src_content : string;
  src_metadata : Metadata;
  src_score : Q
}.

(** The [meta] dictionary; [None] means the key is absent. *)
Record Meta : Type := {
  provider : string;
  retrieval_time : option Q;
  generation_time : option Q;
  total_time : option Q;
  retrieved_docs : option nat;
  context_length : option nat;
  has_history : option bool;
  error : option string
}.

Record QueryResult : Type := {
  question : string;
  answer : string;
  sources : list Source;
  meta : Meta
}.

(** The [question] field, for contexts that have a variable of that
    name. *)
Abbreviation question_of := question (only parsing).

Module LangChainRAGPipeline.

(** The pipeline object: its configuration and the address of its
    [LLMFactory]; [current_provider] and the embeddings cache are the
    mutable fields kept in [World]. *)
Record t : Type := {
  config : AppConfig;
  llm_factory : nat
}.

(** The fixed answer of the empty case. *)
Definition no_information_answer : string :=
  "抱歉，我在知识库中没有找到相关信息来回答您的问题。请尝试上传相关文档或重新表述您的问题。".

(** [f"查询过程中发生错误: {str(e)}"] *)
Definition error_answer (e : string) : string :=
  "查询过程中发生错误: " +:+ e.

(** [__init__] *)
Definition init (config : AppConfig) : M t :=
  llm_factory ← LLMFactory.init;
  _ ← modify (store_current_provider (llm_provider config));
  mret {| config := config; llm_factory := llm_factory |}.

Section WithExternal.

Context (ext : External).

Definition _format_context (documents : list Document) : string :=
  let context_parts :=
    imap (fun i doc =>
            let source :=
              default "Unknown" (md_source (metadata doc)) in
            let content := strip ext (page_content doc) in
            "[文档" +:+ pretty (S i) +:+ "] 来源: " +:+ source
            +:+ RAGPrompts.nl +:+ content)
         documents in
  join (RAGPrompts.nl +:+ RAGPrompts.nl) context_parts.

Definition _format_sources (documents : list Document) : list Source :=
  map (fun doc =>
         {| src_content := page_content doc;
            src_metadata := metadata doc;
            src_score := get_score doc |})
      documents.

(** [chat_history[-5:]], entries lacking a key being skipped. *)
Definition _format_chat_history (chat_history : list (gmap string string))
  : string :=
  match chat_history with
  | [] => ""
  | _ =>
      let history_parts :=
        concat
          (map (fun entry =>
                  match entry !! "question", entry !! "answer" with
                  | Some q, Some a => ["用户: " +:+ q; "助手: " +:+ a]
                  | _, _ => []
                  end)
             (drop (length chat_history - 5) chat_history)) in
      join RAGPrompts.nl history_parts
  end.

Definition _rewrite_question_with_history
    (question : string) (chat_history : list (gmap string string))
    (llm : LLM) : M string :=
  match chat_history with
  | [] => mret question
  | _ =>
      try_except
        (let history_text := _format_chat_history chat_history in
         rewritten ←
           invoke ext llm
             (RAGPrompts.get_question_rewrite_prompt history_text
                question);
         mret (strip ext rewritten))
        (fun _ => mret question)
  end.

Definition _empty_response
    (question provider : string) (start_time : Q) : M QueryResult :=
  t ← time_time ext;
  mret {| question := question;
          answer := no_information_answer;
          sources := [];
          meta := {| provider := provider;
                     retrieval_time := None;
                     generation_time := None;
                     total_time := Some (Float64.sub t start_time);
                     retrieved_docs := Some 0;
                     context_length := None;
                     has_history := None;
                     error := None |} |}.

(** The [except Exception as e] clause of both query operations. *)
Definition error_response
    (question : string) (provider : option string) (start_time : Q)
    (e : string) : M QueryResult :=
  w ← get_world;
  t ← time_time ext;
  mret {| question := question;
          answer := error_answer e;
          sources := [];
          meta := {| provider := optstr_or provider (current_provider w);
                     retrieval_time := None;
                     generation_time := None;
                     total_time := Some (Float64.sub t start_time);
                     retrieved_docs := None;
                     context_length := None;
                     has_history := None;
                     error := Some e |} |}.

(** The components both query operations fetch first. *)
Definition components
    (self : t) (notebook_id : string) (top_k : Z) (llm_provider : string)
  : M (LLM * Retriever) :=
  llm ← LLMFactory.get_llm ext (config self) (llm_factory self)
          (Some llm_provider);
  embeddings ← EmbeddingFactory.get_embeddings ext (config self) None;
  vector_store ←
    lift (VectorStoreFactory.get_vector_store ext (config self)
            ("notebook_" +:+ notebook_id) embeddings);
  retriever ←
    RetrieverFactory.create_retriever ext (config self) vector_store None
      (Some {[ "k" := top_k ]});
  mret (llm, retriever).

(** The body of the [try] of [query]. *)
Definition query_body
    (self : t) (question notebook_id : string) (top_k : Z)
    (provider : option string) (start_time : Q) : M QueryResult :=
  w ← get_world;
  let llm_provider := optstr_or provider (current_provider w) in
  '(llm, retriever) ← components self notebook_id top_k llm_provider;
  relevant_docs ← get_relevant_documents ext retriever question;
  match relevant_docs with
  | [] =>
      t1 ← time_time ext;
      t2 ← time_time ext;
      mret {| question := question;
              answer := no_information_answer;
              sources := [];
              meta := {| provider := llm_provider;
                         retrieval_time := Some (Float64.sub t1 start_time);
                         generation_time := None;
                         total_time := Some (Float64.sub t2 start_time);
                         retrieved_docs := Some 0;
                         context_length := None;
                         has_history := None;
                         error := None |} |}
  | _ =>
      let context := _format_context relevant_docs in
      t1 ← time_time ext;
      let retrieval_time := Float64.sub t1 start_time in
      answer ← invoke ext llm (RAGPrompts.get_qa_prompt context question);
      t2 ← time_time ext;
      let total_time := Float64.sub t2 start_time in
      mret {| question := question;
              answer := answer;
              sources := _format_sources relevant_docs;
              meta := {| provider := llm_provider;
                         retrieval_time := Some retrieval_time;
                         generation_time :=
                           Some (Float64.sub total_time retrieval_time);
                         total_time := Some total_time;
                         retrieved_docs := Some (length relevant_docs);
                         context_length := Some (len context);
                         has_history := None;
                         error := None |} |}
  end.

Definition query
    (self : t) (question notebook_id : string) (top_k : Z)
    (provider : option string) : M QueryResult :=
  start_time ← time_time ext;
  try_except
    (query_body self question notebook_id top_k provider start_time)
    (error_response question provider start_time).

(** [chat_history or []] *)
Definition history_or_empty
    (chat_history : option (list (gmap string string)))
  : list (gmap string string) := default [] chat_history.

(** The part of the [try] of [query_with_history] that follows the
    rewriting, where [question] already holds its final value. *)
Definition answer_with_history
    (llm : LLM) (retriever : Retriever) (question llm_provider : string)
    (chat_history : option (list (gmap string string)))
    (start_time : Q) : M QueryResult :=
  relevant_docs ← get_relevant_documents ext retriever question;
  match relevant_docs with
  | [] => _empty_response question llm_provider start_time
  | _ =>
      let context := _format_context relevant_docs in
      let history_text :=
        _format_chat_history (history_or_empty chat_history) in
      t1 ← time_time ext;
      let retrieval_time := Float64.sub t1 start_time in
      answer ←
        invoke ext llm
          (RAGPrompts.get_conversational_qa_prompt context history_text
             question);
      t2 ← time_time ext;
      let total_time := Float64.sub t2 start_time in
      mret {| question := question;
              answer := answer;
              sources := _format_sources relevant_docs;
              meta := {| provider := llm_provider;
                         retrieval_time := Some retrieval_time;
                         generation_time :=
                           Some (Float64.sub total_time retrieval_time);
                         total_time := Some total_time;
                         retrieved_docs := Some (length relevant_docs);
                         context_length := Some (len context);
                         has_history :=
                           Some (match history_or_empty chat_history with
                                 | [] => false
                                 | _ => true
                                 end);
                         error := None |} |}
  end.

(** The [except] clause reports the value [question] holds when the
    exception is raised: the caller's question up to the rewriting,
    the rewritten one after it.  The rewriting itself never raises,
    so the single [try] of the source splits in two at that point. *)
Definition query_with_history
    (self : t) (question notebook_id : string)
    (chat_history : option (list (gmap string string)))
    (top_k : Z) (provider : option string) : M QueryResult :=
  start_time ← time_time ext;
  try_except
    (w ← get_world;
     let llm_provider := optstr_or provider (current_provider w) in
     '(llm, retriever) ← components self notebook_id top_k llm_provider;
     question' ←
       match history_or_empty chat_history with
       | [] => mret question
       | history =>
           _rewrite_question_with_history question history llm
       end;
     try_except
       (answer_with_history llm retriever question' llm_provider
          chat_history start_time)
       (error_response question' provider start_time))
    (error_response question provider start_time).

Definition set_provider (self : t) (provider : string) : M bool :=
  try_except
    (llm ← LLMFactory.get_llm ext (config self) (llm_factory self)
            (Some provider);
     test_response ← invoke ext llm (PText "Hello");
     if String.eqb test_response "" then mret false
     else
       _ ← modify (store_current_provider provider);
       mret true)
    (fun _ => mret false).

Definition get_available_providers (self : t) : list string :=
  LLMFactory.get_available_providers (config self).

End WithExternal.

End LangChainRAGPipeline.

(* ===================================================================== *)
(** * The specification's wording of MMR *)
(* ===================================================================== *)

(** These definitions follow the specification text (section 4.2, steps
    4 and 5), not the code; [MMRReranker] above follows the code.  The
    text does not say in which arithmetic its products and differences
    are computed: [mul] and [sub] are [Qmult] and [Qminus] for the
    arithmetic of the real numbers, [Float64.mul] and [Float64.sub] for
    the arithmetic of floats. *)
Module MMRSpec.

Section Spec.

Context (mul sub : Q -> Q -> Q).
Context (lam : Q) (sims : Similarities) (n : nat).

(** [m] is "max(cosine_similarity(i, s) for s in selected)". *)
Definition is_max_similarity (selected : list nat) (i : nat) (m : Q)
  : Prop :=
  (exists s, s ∈ selected /\ (m == doc_sim sims i s)%Q)
  /\ forall s, s ∈ selected -> (doc_sim sims i s <= m)%Q.

(** [v] is "lambda x query_similarity[i] - (1 - lambda) x max(...)". *)
Definition is_mmr_score (selected : list nat) (i : nat) (v : Q) : Prop :=
  exists m, is_max_similarity selected i m
            /\ (v == sub (mul lam (query_sim sims i)) (mul (sub 1 lam) m))%Q.

(** "the single passage of maximum query_similarity", the first one
    in input order when several attain the maximum. *)
Definition is_seed (s0 : nat) : Prop :=
  s0 < n
  /\ forall i, i < n ->
       (query_sim sims i <= query_sim sims s0)%Q
       /\ (i < s0 -> (query_sim sims i < query_sim sims s0)%Q).

(** [b] is "the passage with the maximum mmr_score" among the
    unselected ones, "ties broken by first occurrence in the input
    order". *)
Definition is_next (selected : list nat) (b : nat) : Prop :=
  b < n /\ (b ∉ selected)
  /\ exists vb, is_mmr_score selected b vb
       /\ forall i vi, i < n -> (i ∉ selected) ->
            is_mmr_score selected i vi ->
            (vi <= vb)%Q /\ (i < b -> (vi < vb)%Q).

(** [sel] is the selection of [count] passages, in selection order. *)
Definition is_selection (count : nat) (sel : list nat) : Prop :=
  length sel = count
  /\ (exists s0, sel !! 0 = Some s0 /\ is_seed s0)
  /\ forall j b, 1 <= j -> sel !! j = Some b -> is_next (take j sel) b.

End Spec.

End MMRSpec.

(* ===================================================================== *)
(** * Notions used in the statements *)
(* ===================================================================== *)

(** The passages MMR has not selected yet, in input order. *)
Definition unselected (n : nat) (selected : list nat) : list nat :=
  filter (fun i => i ∉ selected) (seq 0 n).

(** The situations in which [_create_bm25_retriever] cannot build the
    lexical index: the namespace listing raises, it is empty, or
    [BM25Retriever.from_texts] raises. *)
Definition bm25_unavailable (ext : External) (vs : VectorStore) : bool :=
  match similarity_search vs "" 10000%Z with
  | Raise _ => true
  | Ok [] => true
  | Ok docs =>
      match bm25_init ext (map page_content docs) with
      | Some _ => true
      | None => false
      end
  end.

(** [reranker_type] selects a reranker. *)
Definition reranking (config : AppConfig) : bool :=
  String.eqb (reranker_type config) "mmr"
  || String.eqb (reranker_type config) "basic".

(** Retrieval in a given mode, as the query operations perform it:
    build the retriever, then ask it. *)
Definition retrieve (ext : External) (config : AppConfig) (vs : VectorStore)
    (mode : string) (search_kwargs : option (gmap string Z)) (query : string)
  : M (list Document) :=
  retriever ←
    RetrieverFactory.create_retriever ext config vs (Some mode) search_kwargs;
  get_relevant_documents ext retriever query.

(** Retrieval through the retriever a builder without effects hands
    over, if it hands one over. *)
Definition through (ext : External) (built : result Retriever)
    (query : string) : M (list Document) :=
  fun w =>
    match built with
    | Ok r => get_relevant_documents ext r query w
    | Raise e => (Raise e, w)
    end.

(** Whether [create_retriever], asked for the mode [name] in state
    [w], gets to call [_create_vector_retriever]: in vector mode and
    for every unknown mode; in the lexical and hybrid modes when the
    lexical index cannot be built; in the multi_query and
    contextual_compression modes when the new [LLMFactory] cannot
    deliver the chat model. *)
Definition reaches_vector_builder (ext : External) (config : AppConfig)
    (vs : VectorStore) (name : string) (w : World) : Prop :=
  if String.eqb name "vector" then True
  else if String.eqb name "bm25" || String.eqb name "hybrid" then
    bm25_unavailable ext vs = true
  else if String.eqb name "multi_query"
          || String.eqb name "contextual_compression" then
    exists e,
      fst (LLMFactory.get_llm ext config (next_factory w) None
             (new_factory w)) = Raise e
  else True.

(** The retrievers over the store [vs] in which no reranker takes
    part: the store's own, a lexical one, the ensemble of the two, and
    the multi-query and compression retrievers over the store's. *)
Definition plain_retriever (vs : VectorStore) (kw : gmap string Z)
    (r : Retriever) : Prop :=
  r = VectorStoreRetriever vs kw
  \/ (exists docs k, r = BM25Retriever docs k)
  \/ (exists docs k ws,
        r = EnsembleRetriever
              [VectorStoreRetriever vs kw; BM25Retriever docs k] ws)
  \/ (exists llm, r = MultiQueryRetriever (VectorStoreRetriever vs kw) llm)
  \/ (exists llm,
        r = ContextualCompressionRetriever llm (VectorStoreRetriever vs kw)).

(** The provider names [_create_llm] knows. *)
Definition supported_providers : list string :=
  ["openai"; "deepseek"; "gemini"; "doubao"].

(** The chat models built so far for provider name [provider]. *)
Definition handles_for (w : World) (provider : string)
  : list (nat * string * LLM) :=
  filter (fun e => e.1.2 = provider) (built w).

(** How many chat models factory [factory] has built for [provider]. *)
Definition constructions (w : World) (factory : nat) (provider : string)
  : nat :=
  length (filter (fun e => e.1.1 = factory /\ e.1.2 = provider) (built w)).

(** Each factory has built at most one chat model per name, and none
    for a name its [_llms] does not hold. *)
Definition memoized (w : World) : Prop :=
  forall factory provider,
    constructions w factory provider <= 1
    /\ (llms_of w factory !! provider = None ->
        constructions w factory provider = 0).

(** A retriever whose retrieval never changes the process state. *)
Definition stateless (ext : External) (r : Retriever) : Prop :=
  forall query w, snd (get_relevant_documents ext r query w) = w.

(* ===================================================================== *)
(** * A sample deployment, for the worked examples *)
(* ===================================================================== *)

Module Sample.

(** A passage; the score is given as the decimal a float is written
    as. *)
Definition doc (content : string) (score : option Q) : Document :=
  {| page_content := content;
     metadata := {| md_source := Some "notes.txt";
                    md_score := Float64.round <$> score;
                    md_mmr_rank := None;
                    md_original_score := None;
                    md_extra := [] |} |}.

Definition paris : Document :=
  doc "Paris is the capital of France." (Some (1 # 10)%Q).
Definition rome : Document :=
  doc "Rome is the capital of Italy." (Some (9 # 10)%Q).
Definition oslo : Document :=
  doc "Oslo is the capital of Norway." None.

(** A vector store that ranks its corpus in the stored order. *)
Definition store (corpus : list Document) : VectorStore :=
  {| similarity_search := fun _ k => Ok (slice_to k corpus) |}.


(** A store that rejects the empty query, as an embedding backend
    that refuses empty input makes it. *)
Definition strict_store (corpus : list Document) : VectorStore :=
  {| similarity_search := fun q k =>
       if String.eqb q "" then Raise "empty input"
       else Ok (slice_to k corpus) |}.

(** Weighted reciprocal-rank fusion with constant 60, as LangChain's
    [EnsembleRetriever] computes it: every passage of every list takes
    part, also under a weight of 0. *)
Fixpoint rank_in (content : string) (l : list Document) (rank : nat)
  : option nat :=
  match l with
  | [] => None
  | d :: l' =>
      if String.eqb (page_content d) content then Some rank
      else rank_in content l' (S rank)
  end.

Fixpoint fused_score (weights : list Q) (lists : list (list Document))
    (content : string) : Q :=
  match weights, lists with
  | w :: weights', l :: lists' =>
      ((match rank_in content l 1 with
        | Some r => w / inject_Z (Z.of_nat (r + 60))
        | None => 0
        end) + fused_score weights' lists' content)%Q
  | _, _ => 0%Q
  end.

Fixpoint unique_by_content (seen : list string) (l : list Document)
  : list Document :=
  match l with
  | [] => []
  | d :: l' =>
      if existsb (String.eqb (page_content d)) seen
      then unique_by_content seen l'
      else d :: unique_by_content (page_content d :: seen) l'
  end.

Definition reciprocal_rank_fusion
    (weights : list Q) (lists : list (list Document)) : list Document :=
  map fst
    (BasicReranker.sort_desc
       (map (fun d => (d, fused_score weights lists (page_content d)))
          (unique_by_content [] (concat lists)))).

(** Similarities that only tell equal texts from different ones. *)
Definition text_similarities (query : string) (texts : list string)
  : Similarities :=
  {| query_sim := fun i =>
       if String.eqb (nth i texts "") query then 1%Q else (1 # 2)%Q;
     doc_sim := fun i j =>
       if String.eqb (nth i texts "") (nth j texts "") then 1%Q else 0%Q |}.

Definition ext : External :=
  {| wall_clock := fun n => inject_Z (Z.of_nat n);
     strip := fun s => s;
     chat_model_init := fun _ => None;
     llm_reply := fun _ _ _ => Ok "Paris.";
     embeddings_init := fun _ => None;
     chroma := fun _ _ _ => Ok (store [paris; rome]);
     milvus := fun _ _ _ _ => Ok (store []);
     path_join := fun d name => d +:+ "/" +:+ name;
     default_search_k := 4%Z;
     bm25_init := fun _ => None;
     bm25_search := fun docs k _ => Ok (slice_to k docs);
     ensemble_rank := reciprocal_rank_fusion;
     multi_query_prompt := fun q => PText q;
     multi_query_parse := fun reply => [reply];
     unique_union := fun lists => unique_by_content [] (concat lists);
     extractor_prompt := fun q d => PText (page_content d);
     extractor_parse := fun reply => Some reply;
     fit_transform := fun q texts => Ok (text_similarities q texts) |}.


(** The same deployment over an empty notebook. *)
Definition ext_empty : External :=
  {| wall_clock := wall_clock ext;
     strip := strip ext;
     chat_model_init := chat_model_init ext;
     llm_reply := llm_reply ext;
     embeddings_init := embeddings_init ext;
     chroma := fun _ _ _ => Ok (store []);
     milvus := milvus ext;
     path_join := path_join ext;
     default_search_k := default_search_k ext;
     bm25_init := bm25_init ext;
     bm25_search := bm25_search ext;
     ensemble_rank := ensemble_rank ext;
     multi_query_prompt := multi_query_prompt ext;
     multi_query_parse := multi_query_parse ext;
     unique_union := unique_union ext;
     extractor_prompt := extractor_prompt ext;
     extractor_parse := extractor_parse ext;
     fit_transform := fit_transform ext |}.

(** A vectoriser that finds no vocabulary, as scikit-learn reports it
    for texts made of stop words only. *)
Definition no_vocabulary (query : string) (texts : list string)
  : result Similarities :=
  Raise "empty vocabulary; perhaps the documents only contain stop words".

(** Three passages the second of which is the nearest to the query;
    the first is near the second, the third is not. *)
Definition tie_similarities : Similarities :=
  {| query_sim := fun i =>
       match i with
       | 0 => (9 # 16)%Q
       | 1 => (15 # 16)%Q
       | _ => (3 # 8)%Q
       end;
     doc_sim := fun i j =>
       if Nat.eqb i j then 1%Q
       else if Nat.eqb (i + j) 1 then (7 # 16)%Q
       else 0%Q |}.

(** The defaults of config.py, with the given retrieval settings; the
    decimals are parsed into floats. *)
Definition config (retriever reranker : string) (alpha : Q) : AppConfig :=
  {| vector_store := "chroma";
     chroma_dir := "app/storage/chroma";
     milvus_host := "localhost";
     milvus_port := "19530";
     retriever_type := retriever;
     hybrid_alpha := Float64.round alpha;
     reranker_type := reranker;
     mmr_lambda := Float64.round (7 # 10);
     top_k_retrieval := 10%Z;
     embedding_provider := "openai";
     embedding_model := "text-embedding-3-large";
     openai_embed_base_url := "https://api.openai.com/v1";
     openai_embed_api_key := "sk-test";
     hf_embedding_model := "BAAI/bge-large-zh-v1.5";
     llm_provider := "openai";
     openai_base_url := "https://api.openai.com/v1";
     openai_api_key := "sk-test";
     openai_model := "gpt-4o-mini";
     deepseek_base_url := "https://api.deepseek.com/v1";
     deepseek_api_key := "";
     deepseek_model := "deepseek-chat";
     gemini_api_key := "";
     gemini_model := "gemini-1.5-pro";
     doubao_base_url := "https://ark.cn-beijing.volces.com/api/v3";
     doubao_api_key := "";
     doubao_model := "ep-20250609121409-9882n" |}.

(** config.py as shipped: hybrid retrieval, MMR reranking, alpha 0.6. *)
Definition default_config : AppConfig := config "hybrid" "mmr" (6 # 10)%Q.

(** The process before any object exists. *)
Definition boot : World :=
  {| clock_reads := 0;
     llm_factories := ∅;
     next_factory := 0;
     built := [];
     invoked := [];
     embeddings_cache := None;
     current_provider := "" |}.

(** The pipeline object of a fresh process, and the process state
    right after [LangChainRAGPipeline(config)]. *)
Definition pipeline (cfg : AppConfig) : LangChainRAGPipeline.t :=
  {| LangChainRAGPipeline.config := cfg;
     LangChainRAGPipeline.llm_factory := 0 |}.

Definition started (cfg : AppConfig) : World :=
  snd (LangChainRAGPipeline.init cfg boot).

Definition k5 : gmap string Z := {[ "k" := 5%Z ]}.

End Sample.

(* ===================================================================== *)
(** * document_processor/chunker.py *)
(* ===================================================================== *)

Module TextChunker.

(** In this module a [str] is the list of its code points, since the
    code measures and slices text by code point.  [chunk_size] and
    [chunk_overlap] are the attributes [__init__] copies from the
    configuration. *)
Record t : Type := {
  chunk_size : Z;
  chunk_overlap : Z
}.

(** The characters of [[。！？；]] and [[.!?]]. *)
Definition sentence_endings : list N :=
  [12290; 65281; 65311; 65307; 46; 33; 63]%N.

Definition is_ending (c : N) : bool := bool_decide (c ∈ sentence_endings).

(** [seq[a:]] for an integer [a] (negative [a] counts from the end). *)
Definition slice_from {A : Type} (a : Z) (l : list A) : list A :=
  if (0 <=? a)%Z then drop (Z.to_nat a) l
  else drop (length l - Z.to_nat (- a)) l.

Section WithUnicode.

(** [str.isspace] of one character, which is also what [\s] matches in a
    [str] pattern. *)
Variable isspace : N -> bool.

Fixpoint lstrip (s : list N) : list N :=
  match s with
  | [] => []
  | c :: s' => if isspace c then lstrip s' else s
  end.

(** [s.strip()] *)
Definition strip (s : list N) : list N :=
  reverse (lstrip (reverse (lstrip s))).

(** Truthiness of [s.strip()]. *)
Definition nonblank (s : list N) : bool :=
  match strip s with
  | [] => false
  | _ => true
  end.

(** [re.split(r'([。！？；]|[.!?])\s*', text)]: the text before each
    sentence ending, the ending itself (the captured group), and so on;
    the white space after an ending is part of the match and dropped.
    [skipping] says that the last match is still being extended over
    white space, [piece] is the text since the last match. *)
Fixpoint re_split_from (skipping : bool) (piece text : list N)
  : list (list N) :=
  match text with
  | [] => [piece]
  | c :: rest =>
      if skipping && isspace c then re_split_from true piece rest
      else if is_ending c then piece :: [c] :: re_split_from true [] rest
      else re_split_from false (piece ++ [c]) rest
  end.

Definition re_split (text : list N) : list (list N) :=
  re_split_from false [] text.

(** The [for i in range(0, len(sentences) - 1, 2)] loop. *)
Fixpoint join_pairs (sentences : list (list N)) : list (list N) :=
  match sentences with
  | text :: ending :: rest =>
      let sentence := text ++ ending in
      (if nonblank sentence then [sentence] else []) ++ join_pairs rest
  | _ => []
  end.

Definition _split_sentences (text : list N) : list (list N) :=
  let sentences := re_split text in
  let result := join_pairs sentences in
  match last sentences with
  | Some tail =>
      if (length sentences mod 2 =? 1)%nat && nonblank tail
      then result ++ [tail]
      else result
  | None => result
  end.

(** [re.search(r'[。！？；.!?]\s*', s)]: what follows the first match,
    [None] when there is no match. *)
Fixpoint after_first_ending (s : list N) : option (list N) :=
  match s with
  | [] => None
  | c :: rest =>
      if is_ending c then Some (lstrip rest) else after_first_ending rest
  end.

Definition _get_overlap_text (text : list N) (overlap_size : Z) : list N :=
  if (Z.of_nat (length text) <=? overlap_size)%Z then text
  else
    let overlap_text := slice_from (- overlap_size) text in
    match after_first_ending overlap_text with
    | Some rest => rest
    | None => overlap_text
    end.

(** The local variables of [_semantic_chunk]. *)
Record state : Type := {
  chunks : list (list N);
  current_chunk : list N;
  current_size : Z
}.

(** One round of the [for sentence in sentences] loop. *)
Definition add_sentence (self : t) (st : state) (sentence : list N) : state :=
  let sentence_size := Z.of_nat (length sentence) in
  if (chunk_size self <? current_size st + sentence_size)%Z
     && negb (bool_decide (current_chunk st = []))
  then
    let overlap_text :=
      _get_overlap_text (current_chunk st) (chunk_overlap self) in
    {| chunks := chunks st ++ [strip (current_chunk st)];
       current_chunk := overlap_text ++ sentence;
       current_size := Z.of_nat (length (overlap_text ++ sentence)) |}
  else
    {| chunks := chunks st;
       current_chunk := current_chunk st ++ sentence;
       current_size := (current_size st + sentence_size)%Z |}.

Definition _semantic_chunk (self : t) (text : list N) : list (list N) :=
  let st :=
    fold_left (add_sentence self) (_split_sentences text)
      {| chunks := []; current_chunk := []; current_size := 0 |} in
  if nonblank (current_chunk st)
  then chunks st ++ [strip (current_chunk st)]
  else chunks st.

End WithUnicode.

(** [get_optimal_chunk_size]; [//] by zero raises [ZeroDivisionError]. *)
Definition get_optimal_chunk_size (text : list N) (target_chunks : Z)
  : result Z :=
  let text_length := Z.of_nat (length text) in
  if (target_chunks =? 0)%Z then Raise "integer division or modulo by zero"
  else
    let optimal_size := (text_length / target_chunks)%Z in
    let min_size := 200%Z in
    let max_size := 2000%Z in
    Ok (Z.max min_size (Z.min optimal_size max_size)).

End TextChunker.

(* ===================================================================== *)
(** * document_processor/loader.py *)
(* ===================================================================== *)

Module DocumentLoader.

Section LoadFromBase64.

(** The values a metadata dictionary holds, with their truthiness. *)
Context {V : Type} (truthy : V -> bool).

(** [base64.b64decode], [str.lower], [bytes.decode('utf-8')] and the
    three loaders [load_from_base64] hands the content to. *)
Context (b64decode : string -> result string)
        (lower : string -> string)
        (decode_utf8 : string -> result string)
        (_load_pdf_from_bytes _load_docx_from_bytes load_from_text
           : string -> option (gmap string V) -> result (list Document)).

(** [metadata.get('isPDF')]: an [AttributeError] when [metadata] is
    [None]; a missing key gives [None], which is falsy. *)
Definition get_isPDF (metadata : option (gmap string V)) : result bool :=
  match metadata with
  | None => Raise "'NoneType' object has no attribute 'get'"
  | Some md =>
      Ok (match md !! "isPDF" with
          | Some v => truthy v
          | None => false
          end)
  end.

(** The body of the [try]. *)
Definition load_from_base64_body
    (base64_content file_type : string) (metadata : option (gmap string V))
  : result (list Document) :=
  match b64decode base64_content with
  | Raise e => Raise e
  | Ok content_bytes =>
      let go_pdf := _load_pdf_from_bytes content_bytes metadata in
      let otherwise :=
        if String.eqb (lower file_type) "docx"
           || String.eqb (lower file_type) "doc"
        then _load_docx_from_bytes content_bytes metadata
        else
          match decode_utf8 content_bytes with
          | Raise e => Raise e
          | Ok text => load_from_text text metadata
          end in
      if String.eqb (lower file_type) "pdf" then go_pdf
      else
        match get_isPDF metadata with
        | Raise e => Raise e
        | Ok true => go_pdf
        | Ok false => otherwise
        end
  end.

Definition load_from_base64
    (base64_content file_type : string) (metadata : option (gmap string V))
  : result (list Document) :=
  match load_from_base64_body base64_content file_type metadata with
  | Ok documents => Ok documents
  | Raise e => Raise ("Failed to load document from base64: " +:+ e)
  end.

End LoadFromBase64.

End DocumentLoader.

(* ===================================================================== *)
(** * embeddings/factory.py: the dimension table *)
(* ===================================================================== *)



(* ===================================================================== *)
(** * Further notions used in the statements *)
(* ===================================================================== *)

(** What a reranker must leave alone in a passage: its text, source,
    relevance score and the other metadata. *)
Definition payload (d : Document)
  : string * option string * option Q * list (string * string) :=
  (page_content d, md_source (metadata d), md_score (metadata d),
   md_extra (metadata d)).

(** [w'] differs from [w] at most by further [invoke] calls. *)
Definition only_invokes (w w' : World) : Prop :=
  clock_reads w' = clock_reads w
  /\ llm_factories w' = llm_factories w
  /\ next_factory w' = next_factory w
  /\ built w' = built w
  /\ embeddings_cache w' = embeddings_cache w
  /\ current_provider w' = current_provider w
  /\ invoked w `prefix_of` invoked w'.

(** No factory address from [next_factory] on is in use. *)
Definition allocated (w : World) : Prop :=
  forall factory,
    next_factory w <= factory ->
    llm_factories w !! factory = None
    /\ forall provider, constructions w factory provider = 0.

(** The state a pipeline object lives in: its factory exists, and the
    factories are memoised and properly allocated. *)
Definition settled (self : LangChainRAGPipeline.t) (w : World) : Prop :=
  memoized w /\ allocated w
  /\ LangChainRAGPipeline.llm_factory self < next_factory w.

Section RetrieverInduction.

Variable P : Retriever -> Prop.
Hypothesis Hvector : forall vs kw, P (VectorStoreRetriever vs kw).
Hypothesis Hbm25 : forall docs k, P (BM25Retriever docs k).
Hypothesis Hensemble :
  forall rs ws, Forall P rs -> P (EnsembleRetriever rs ws).
Hypothesis Hmulti : forall r llm, P r -> P (MultiQueryRetriever r llm).
Hypothesis Hcompress :
  forall llm r, P r -> P (ContextualCompressionRetriever llm r).
Hypothesis Hreranked : forall r rr, P r -> P (RerankedRetriever r rr).

(** Structural induction on retrievers, through the member list of an
    ensemble. *)
Fixpoint Retriever_induction (r : Retriever) : P r :=
  match r with
  | VectorStoreRetriever vs kw => Hvector vs kw
  | BM25Retriever docs k => Hbm25 docs k
  | EnsembleRetriever rs ws =>
      Hensemble rs ws
        ((fix members (rs : list Retriever) : Forall P rs :=
            match rs with
            | [] => @List.Forall_nil Retriever P
            | r' :: rs' =>
                @List.Forall_cons Retriever P r' rs' (Retriever_induction r')
                  (members rs')
            end) rs)
  | MultiQueryRetriever r' llm => Hmulti r' llm (Retriever_induction r')
  | ContextualCompressionRetriever llm r' =>
      Hcompress llm r' (Retriever_induction r')
  | RerankedRetriever r' rr => Hreranked r' rr (Retriever_induction r')
  end.

End RetrieverInduction.

(* ===================================================================== *)
(** * Notions used in the further theorems *)
(* ===================================================================== *)

(** Equality of rationals is decidable. *)
Definition Qeq_decision (x y : Q) : Decision (x == y)%Q := Qeq_dec x y.

(** Descending order of the scores paired with the passages. *)
Definition by_score_desc (x y : Document * Q) : Prop := (snd y <= snd x)%Q.

(** A computation that can only add [invoke] calls. *)
Definition quiet {A : Type} (m : M A) : Prop :=
  forall w, only_invokes w (snd (m w)).

(** [w'] is a later state of a process in which the factory at address
    [f0] exists: the factory invariants carry over, no address is given
    up, the default provider is the same and no logged call is lost. *)
Definition steady (f0 : nat) (w w' : World) : Prop :=
  (f0 < next_factory w -> memoized w -> allocated w ->
   memoized w' /\ allocated w')
  /\ next_factory w <= next_factory w'
  /\ current_provider w' = current_provider w
  /\ invoked w `prefix_of` invoked w'.

(** A computation every run of which is [steady]. *)
Definition orderly {A : Type} (f0 : nat) (m : M A) : Prop :=
  forall w, steady f0 w (snd (m w)).

(** A result whose counters agree with its content: without an error
    [retrieved_docs] counts the sources; with an error there are no
    sources, no count, and the answer is the error text. *)
Definition well_reported (res : QueryResult) : Prop :=
  match error (meta res) with
  | None => retrieved_docs (meta res) = Some (length (sources res))
  | Some e =>
      sources res = [] /\ retrieved_docs (meta res) = None
      /\ answer res = LangChainRAGPipeline.error_answer e
  end.

(** The API key a chat model is constructed with. *)
Definition model_api_key (model : ChatModel) : string :=
  match model with
  | ChatOpenAI _ api_key _ _ _ => api_key
  | ChatGoogleGenerativeAI google_api_key _ _ _ => google_api_key
  end.

(** The characters of a text that are not white space. *)
Definition visible (isspace : N -> bool) (s : list N) : list N :=
  filter (fun c => isspace c = false) s.

(** A text that is empty or starts with a character that is not white
    space. *)
Definition starts_visible (isspace : N -> bool) (s : list N) : Prop :=
  match s with
  | [] => True
  | c :: _ => isspace c = false
  end.

(** Whether [_semantic_chunk] holds a chunk it has not emitted yet. *)
Definition pending (st : TextChunker.state) : nat :=
  match TextChunker.current_chunk st with
  | [] => 0
  | _ => 1
  end.

(** The loop invariant of [_semantic_chunk]: the chunks emitted are
    non-empty and stripped, the chunk in progress is empty or has a
    visible character, and [current_size] is its length. *)
Definition chunker_inv (isspace : N -> bool) (st : TextChunker.state)
  : Prop :=
  Forall (fun c => c <> [] /\ TextChunker.strip isspace c = c)
    (TextChunker.chunks st)
  /\ (TextChunker.current_chunk st = []
      \/ TextChunker.nonblank isspace (TextChunker.current_chunk st) = true)
  /\ TextChunker.current_size st
     = Z.of_nat (length (TextChunker.current_chunk st)).

(* ===================================================================== *)
(** * The rerankers *)
(* ===================================================================== *)

Section PyFacts.

Lemma Qlt_b_true (x y : Q) : Qlt_b x y = true <-> (x < y)%Q.
Proof.
  unfold Qlt_b. rewrite negb_true_iff. split.
  - intros H. apply Qnot_le_lt. intros Hle.
    apply Qle_bool_iff in Hle. congruence.
  - intros H. destruct (Qle_bool y x) eqn:E; [|reflexivity].
    apply Qle_bool_iff in E. exfalso. exact (Qlt_not_le _ _ H E).
Qed.

Lemma Qlt_b_false (x y : Q) : Qlt_b x y = false <-> (y <= x)%Q.
Proof.
  unfold Qlt_b. rewrite negb_false_iff. apply Qle_bool_iff.
Qed.

Lemma max_by_split {A : Type} (key : A -> Q) (l : list A) (best : A) :
  exists l1 l2,
    best :: l = l1 ++ max_by key best l :: l2
    /\ Forall (fun x => (key x < key (max_by key best l))%Q) l1
    /\ Forall (fun x => (key x <= key (max_by key best l))%Q) l2.
Proof.
  revert best. induction l as [|x l IH]; intros best; simpl.
  - exists [], []. repeat split; constructor.
  - destruct (Qlt_b (key best) (key x)) eqn:E.
    + apply Qlt_b_true in E.
      destruct (IH x) as (l1 & l2 & Heq & H1 & H2).
      exists (best :: l1), l2. split; [simpl; by rewrite Heq|]. split; [|done].
      constructor; [|done].
      destruct l1 as [|y l1]; simpl in Heq; injection Heq as Hx Hl.
      * by rewrite <- Hx.
      * subst y. inversion H1; subst. eapply Qlt_trans; eauto.
    + apply Qlt_b_false in E.
      destruct (IH best) as (l1 & l2 & Heq & H1 & H2).
      destruct l1 as [|y l1]; simpl in Heq; injection Heq as Hb Hl.
      * exists [], (x :: l). split; [simpl; by rewrite <- Hb|].
        split; [constructor|].
        rewrite <- Hb in *. subst l2. by constructor.
      * subst y. exists (best :: x :: l1), l2.
        split; [simpl; do 2 f_equal; exact Hl|]. split; [|done].
        inversion H1 as [|? ? Hb H1']; subst.
        constructor; [done|]. constructor; [|done].
        eapply Qle_lt_trans; eauto.
Qed.

Lemma max_by_elem {A : Type} (key : A -> Q) (l : list A) (best : A) :
  max_by key best l ∈ best :: l.
Proof.
  destruct (max_by_split key l best) as (l1 & l2 & Heq & _).
  rewrite Heq. apply elem_of_app. right. left.
Qed.

Lemma max_by_upper {A : Type} (key : A -> Q) (l : list A) (best x : A) :
  x ∈ best :: l -> (key x <= key (max_by key best l))%Q.
Proof.
  destruct (max_by_split key l best) as (l1 & l2 & Heq & H1 & H2).
  rewrite Heq. intros Hx.
  apply elem_of_app in Hx as [Hx|Hx].
  - apply Qlt_le_weak. rewrite Forall_forall in H1. by apply H1.
  - apply elem_of_cons in Hx as [->|Hx]; [apply Qle_refl|].
    rewrite Forall_forall in H2. by apply H2.
Qed.

Lemma filter_ne_notin (x : nat) (l : list nat) :
  x ∉ l -> filter (fun y => y ≠ x) l = l.
Proof.
  induction l as [|z l IH]; intros Hx; [reflexivity|].
  rewrite filter_cons_True.
  - f_equal. apply IH. intros Hin. apply Hx. by right.
  - intros ->. apply Hx. left.
Qed.

Lemma remove_filter (x : nat) (l : list nat) :
  NoDup l -> Py.remove x l = filter (fun y => y ≠ x) l.
Proof.
  induction 1 as [|y l Hy Hl IH]; [reflexivity|]. simpl.
  destruct (Nat.eqb_spec x y) as [->|Hne].
  - rewrite filter_cons_False by (intros H; by apply H).
    by rewrite filter_ne_notin.
  - rewrite filter_cons_True by congruence. by rewrite IH.
Qed.

Lemma remove_length (x : nat) (l : list nat) :
  x ∈ l -> S (length (Py.remove x l)) = length l.
Proof.
  induction l as [|y l IH]; intros Hx; [by apply not_elem_of_nil in Hx|].
  simpl. destruct (Nat.eqb_spec x y) as [->|Hne]; [reflexivity|].
  simpl. f_equal. apply IH.
  apply elem_of_cons in Hx as [->|Hx]; [congruence|done].
Qed.

Lemma seq_strongly_sorted (j n : nat) : StronglySorted lt (seq j n).
Proof.
  revert j. induction n as [|n IH]; intros j; simpl; constructor.
  - apply IH.
  - apply Forall_forall. intros x Hx. apply elem_of_seq in Hx. lia.
Qed.

Lemma filter_strongly_sorted (P : nat -> Prop) `{!forall x, Decision (P x)}
    (l : list nat) :
  StronglySorted lt l -> StronglySorted lt (filter P l).
Proof.
  induction 1 as [|x l Hl IH Hx]; [constructor|].
  rewrite filter_cons. destruct (decide (P x)); [|done].
  constructor; [done|].
  apply Forall_forall. intros y Hy. apply list_elem_of_filter in Hy as [_ Hy].
  rewrite Forall_forall in Hx. by apply Hx.
Qed.

End PyFacts.

Section Float64Facts.

(** Rounding sees the value of a rational, not the fraction that
    denotes it. *)
Lemma round_proper (x y : Q) :
  (x == y)%Q -> Float64.round x = Float64.round y.
Proof. intros H. unfold Float64.round. by rewrite (Qred_complete _ _ H). Qed.

Lemma Float64_round_proper :
  Proper (Qeq ==> Qeq) Float64.round.
Proof. intros x y H. by rewrite (round_proper x y H). Qed.

Lemma Float64_mul_proper :
  Proper (Qeq ==> Qeq ==> Qeq) Float64.mul.
Proof.
  intros x x' Hx y y' Hy. unfold Float64.mul.
  rewrite (round_proper (x * y) (x' * y')); [reflexivity|].
  by rewrite Hx, Hy.
Qed.

Lemma Float64_sub_proper :
  Proper (Qeq ==> Qeq ==> Qeq) Float64.sub.
Proof.
  intros x x' Hx y y' Hy. unfold Float64.sub.
  rewrite (round_proper (x - y) (x' - y')); [reflexivity|].
  by rewrite Hx, Hy.
Qed.

(** At lambda = 1 the float score of a passage is its query
    similarity: [1 * q] is [q], [1 - 1] is [0], [0 * m] is [0] and
    [q - 0] is [q], none of which rounds. *)
Lemma mmr_score_at_one (lam q m : Q) :
  (lam == 1)%Q -> Float64.is_float q ->
  (Float64.sub (Float64.mul lam q) (Float64.mul (Float64.sub 1 lam) m)
   == q)%Q.
Proof.
  unfold Float64.is_float, Float64.mul, Float64.sub. intros Hlam Hq.
  assert (H0 : Float64.round (1 - lam) = 0%Q).
  { rewrite (round_proper (1 - lam) 0); [by vm_compute|].
    rewrite Hlam. reflexivity. }
  rewrite H0.
  assert (H1 : Float64.round (0 * m) = 0%Q).
  { rewrite (round_proper (0 * m) 0); [by vm_compute|]. ring. }
  rewrite H1.
  assert (H2 : Float64.round (lam * q) = Float64.round q).
  { apply round_proper. rewrite Hlam. ring. }
  rewrite H2.
  rewrite (round_proper (Float64.round q - 0) q); [exact Hq|].
  rewrite Hq. ring.
Qed.

End Float64Facts.

#[global] Existing Instance Float64_round_proper.
#[global] Existing Instance Float64_mul_proper.
#[global] Existing Instance Float64_sub_proper.

Section MMRFacts.

Context (lam : Q) (sims : Similarities) (n : nat).

Lemma elem_of_unselected selected i :
  i ∈ unselected n selected <-> i < n /\ i ∉ selected.
Proof.
  unfold unselected. rewrite list_elem_of_filter, elem_of_seq.
  split; intros [? ?]; split; auto; lia.
Qed.

Lemma unselected_sorted selected : StronglySorted lt (unselected n selected).
Proof. apply filter_strongly_sorted, seq_strongly_sorted. Qed.

Lemma unselected_NoDup selected : NoDup (unselected n selected).
Proof. apply NoDup_filter, NoDup_seq. Qed.

Lemma unselected_remove selected b :
  Py.remove b (unselected n selected) = unselected n (selected ++ [b]).
Proof.
  rewrite remove_filter by apply unselected_NoDup.
  unfold unselected. rewrite list_filter_filter.
  apply list_filter_iff. intros x.
  rewrite not_elem_of_app, list_elem_of_singleton. tauto.
Qed.

Lemma unselected_seed first :
  Py.remove first (seq 0 n) = unselected n [first].
Proof.
  rewrite remove_filter by apply NoDup_seq.
  apply list_filter_iff. intros x. rewrite list_elem_of_singleton. tauto.
Qed.

(** The code's [max_sim_to_selected] is the maximum the specification
    speaks of. *)
Lemma max_sim_is_max selected i :
  selected <> [] ->
  MMRSpec.is_max_similarity sims selected i
    (MMRReranker.max_sim_to_selected sims selected i).
Proof.
  destruct selected as [|s rest]; [done|]. intros _.
  unfold MMRReranker.max_sim_to_selected, np_max. split.
  - pose proof (max_by_elem (fun v => v) (map (doc_sim sims i) rest)
                  (doc_sim sims i s)) as Hin.
    change (doc_sim sims i s :: map (doc_sim sims i) rest)
      with (doc_sim sims i <$> (s :: rest)) in Hin.
    apply list_elem_of_fmap in Hin as (s' & Heq & Hs').
    exists s'. split; [done|]. rewrite Heq. reflexivity.
  - intros s' Hs'.
    apply (max_by_upper (fun v => v) (map (doc_sim sims i) rest)
             (doc_sim sims i s) (doc_sim sims i s')).
    change (doc_sim sims i s :: map (doc_sim sims i) rest)
      with (doc_sim sims i <$> (s :: rest)).
    by apply list_elem_of_fmap_2.
Qed.

Lemma is_max_similarity_unique selected i m m' :
  MMRSpec.is_max_similarity sims selected i m ->
  MMRSpec.is_max_similarity sims selected i m' ->
  (m == m')%Q.
Proof.
  intros [(s & Hs & Hm) Hub] [(s' & Hs' & Hm') Hub'].
  apply Qle_antisym.
  - rewrite Hm. by apply Hub'.
  - rewrite Hm'. by apply Hub.
Qed.

Lemma is_mmr_score_code selected i :
  selected <> [] ->
  MMRSpec.is_mmr_score Float64.mul Float64.sub lam sims selected i
    (MMRReranker.mmr_score lam sims selected i).
Proof.
  intros Hne. exists (MMRReranker.max_sim_to_selected sims selected i).
  split; [by apply max_sim_is_max|]. reflexivity.
Qed.

Lemma is_mmr_score_unique selected i v :
  selected <> [] ->
  MMRSpec.is_mmr_score Float64.mul Float64.sub lam sims selected i v ->
  (v == MMRReranker.mmr_score lam sims selected i)%Q.
Proof.
  intros Hne (m & Hm & Hv). rewrite Hv. unfold MMRReranker.mmr_score.
  rewrite (is_max_similarity_unique _ _ _ _ Hm (max_sim_is_max _ i Hne)).
  reflexivity.
Qed.

(** One round of the loop picks what the specification asks for. *)
Lemma choose_next selected first others :
  selected <> [] ->
  map (fun idx => (idx, MMRReranker.mmr_score lam sims selected idx))
    (unselected n selected) = first :: others ->
  fst (max_by snd first others) ∈ unselected n selected
  /\ MMRSpec.is_next Float64.mul Float64.sub lam sims n selected
       (fst (max_by snd first others)).
Proof.
  intros Hne Hmap.
  destruct (max_by_split (snd : nat * Q -> Q) others first)
    as (l1 & l2 & Heq & H1 & H2).
  set (best := max_by snd first others) in *.
  rewrite <- Hmap in Heq.
  apply fmap_app_inv in Heq as (r1 & k & Hl1 & Hk & Hun).
  symmetry in Hk. apply fmap_cons_inv in Hk as (b & r2 & Hbest & Hl2 & ->).
  assert (Hb : fst best = b) by (by rewrite Hbest).
  assert (Hsb : snd best = MMRReranker.mmr_score lam sims selected b)
    by (by rewrite Hbest).
  rewrite Hb.
  assert (Hin : b ∈ unselected n selected).
  { rewrite Hun. apply elem_of_app. right. left. }
  split; [done|].
  apply elem_of_unselected in Hin as [Hlt Hnot].
  split; [done|]. split; [done|].
  exists (MMRReranker.mmr_score lam sims selected b).
  split; [by apply is_mmr_score_code|].
  intros i vi Hi Hisel Hvi.
  apply is_mmr_score_unique in Hvi; [|done]. rewrite Hvi.
  assert (Hiu : i ∈ unselected n selected) by (by apply elem_of_unselected).
  pose proof (unselected_sorted selected) as Hsorted.
  rewrite Hun in Hiu, Hsorted.
  rewrite Forall_forall in H1, H2. rewrite <- Hsb.
  apply elem_of_app in Hiu as [Hiu|Hiu].
  - assert ((snd (i, MMRReranker.mmr_score lam sims selected i)
             < snd best)%Q) as Hlt'.
    { apply H1. rewrite Hl1. apply list_elem_of_fmap. by exists i. }
    simpl in Hlt'. split; [by apply Qlt_le_weak|done].
  - apply elem_of_cons in Hiu as [->|Hiu].
    + rewrite Hsb. split; [apply Qle_refl|lia].
    + assert ((snd (i, MMRReranker.mmr_score lam sims selected i)
               <= snd best)%Q) as Hle.
      { apply H2. rewrite Hl2. apply list_elem_of_fmap. by exists i. }
      simpl in Hle. split; [done|]. intros Hib. exfalso.
      apply StronglySorted_app_1_r in Hsorted.
      apply StronglySorted_cons in Hsorted as [Hall _].
      rewrite Forall_forall in Hall. specialize (Hall i Hiu). lia.
Qed.

Lemma select_loop_spec target fuel selected :
  selected <> [] ->
  length selected + length (unselected n selected) = n ->
  length (unselected n selected) <= fuel ->
  let out :=
    MMRReranker.select_loop fuel lam sims target selected
      (unselected n selected) in
  (exists extra, out = selected ++ extra)
  /\ Z.of_nat (length out)
     = Z.max (Z.of_nat (length selected)) (Z.min target (Z.of_nat n))
  /\ (forall j b, length selected <= j -> out !! j = Some b ->
        MMRSpec.is_next Float64.mul Float64.sub lam sims n (take j out) b).
Proof.
  revert selected. induction fuel as [|fuel IH]; intros selected Hne Hlen Hfuel.
  - simpl. split; [exists []; by rewrite app_nil_r|]. split; [lia|].
    intros j b Hj Hjb. apply lookup_lt_Some in Hjb. lia.
  - simpl. destruct (Z.of_nat (length selected) <? target)%Z eqn:Ht.
    + apply Z.ltb_lt in Ht.
      destruct (map _ (unselected n selected)) as [|first others] eqn:Hmap.
      * apply map_eq_nil in Hmap. rewrite Hmap in Hlen. simpl in Hlen.
        split; [exists []; by rewrite app_nil_r|]. split; [lia|].
        intros j b Hj Hjb. apply lookup_lt_Some in Hjb. lia.
      * destruct (choose_next selected first others Hne Hmap) as [Hin Hnext].
        set (b := fst (max_by snd first others)) in *.
        rewrite unselected_remove.
        pose proof (remove_length b _ Hin) as Hrem.
        rewrite unselected_remove in Hrem.
        destruct (IH (selected ++ [b])) as ((extra & Hout) & Hcount & Hsteps).
        { by destruct selected. }
        { rewrite length_app. simpl. lia. }
        { lia. }
        set (out := MMRReranker.select_loop fuel lam sims target
                      (selected ++ [b]) (unselected n (selected ++ [b]))) in *.
        split; [exists (b :: extra); by rewrite Hout, <- app_assoc|].
        split.
        { rewrite Hcount, length_app. simpl. lia. }
        intros j c Hj Hjc.
        destruct (decide (j = length selected)) as [->|Hneq].
        -- rewrite Hout, <- app_assoc in Hjc |- *.
           rewrite take_app_length.
           rewrite lookup_app_r in Hjc by lia.
           rewrite Nat.sub_diag in Hjc. simpl in Hjc.
           injection Hjc as <-. done.
        -- apply Hsteps; [|done]. rewrite length_app. simpl. lia.
    + apply Z.ltb_ge in Ht.
      split; [exists []; by rewrite app_nil_r|]. split; [lia|].
      intros j b Hj Hjb. apply lookup_lt_Some in Hjb. lia.
Qed.

(** [numpy.argmax] over the [n] query similarities. *)
Lemma argmax_is_seed :
  1 <= n ->
  MMRSpec.is_seed sims n (max_by (query_sim sims) 0 (seq 1 (n - 1))).
Proof.
  intros Hn.
  destruct (max_by_split (query_sim sims) (seq 1 (n - 1)) 0)
    as (l1 & l2 & Heq & H1 & H2).
  set (s0 := max_by (query_sim sims) 0 (seq 1 (n - 1))) in *.
  assert (Hseq : 0 :: seq 1 (n - 1) = seq 0 n)
    by (destruct n; [lia|]; simpl; by rewrite Nat.sub_0_r).
  rewrite Hseq in Heq.
  pose proof (seq_strongly_sorted 0 n) as Hsorted. rewrite Heq in Hsorted.
  assert (Hs0 : s0 ∈ seq 0 n)
    by (rewrite Heq; apply elem_of_app; right; left).
  apply elem_of_seq in Hs0. split; [lia|].
  intros i Hi. assert (Hin : i ∈ seq 0 n) by (apply elem_of_seq; lia).
  rewrite Heq in Hin. rewrite Forall_forall in H1, H2.
  apply elem_of_app in Hin as [Hin|Hin].
  - split; [apply Qlt_le_weak|]; by auto.
  - apply elem_of_cons in Hin as [->|Hin].
    + split; [apply Qle_refl|lia].
    + split; [by auto|]. intros Hlt. exfalso.
      apply StronglySorted_app_1_r in Hsorted.
      apply StronglySorted_cons in Hsorted as [Hall _].
      rewrite Forall_forall in Hall. specialize (Hall i Hin). lia.
Qed.

Lemma selected_indices_spec top_k :
  1 <= n ->
  MMRSpec.is_selection Float64.mul Float64.sub lam sims n
    (Z.to_nat (Z.max 1 (MMRReranker.target_count top_k n)))
    (MMRReranker.selected_indices lam sims top_k n).
Proof.
  intros Hn. unfold MMRReranker.selected_indices.
  pose proof (argmax_is_seed Hn) as Hseed.
  set (s0 := max_by (query_sim sims) 0 (seq 1 (n - 1))) in *.
  rewrite unselected_seed.
  assert (Hs0 : s0 ∈ seq 0 n).
  { apply elem_of_seq. destruct Hseed as [? _]. lia. }
  pose proof (remove_length s0 _ Hs0) as Hrem.
  rewrite unselected_seed, length_seq in Hrem.
  destruct (select_loop_spec (MMRReranker.target_count top_k n)
              (length (unselected n [s0])) [s0])
    as ((extra & Hout) & Hcount & Hsteps); [done|simpl; lia|lia|].
  set (out := MMRReranker.select_loop _ _ _ _ _ _) in *.
  split; [|split].
  - simpl in Hcount. unfold MMRReranker.target_count in *. lia.
  - exists s0. split; [by rewrite Hout|done].
  - intros j b Hj Hjb. by apply Hsteps.
Qed.

Lemma is_selection_bound count sel j i :
  MMRSpec.is_selection Float64.mul Float64.sub lam sims n count sel ->
  sel !! j = Some i -> i < n.
Proof.
  intros (_ & (s0 & Hs0 & Hseed) & Hsteps) Hji.
  destruct j as [|j].
  - rewrite Hs0 in Hji. injection Hji as <-. by destruct Hseed.
  - destruct (Hsteps (S j) i) as [? _]; [lia|done|done].
Qed.

End MMRFacts.

Section RerankerTheorems.

Context (fit : string -> list string -> result Similarities).

Lemma reranked_docs_lookup sims (docs : list Document) sel :
  (forall j i, sel !! j = Some i -> i < length docs) ->
  exists out,
    MMRReranker.reranked_docs sims docs sel = Some out
    /\ length out = length sel
    /\ forall j i, sel !! j = Some i ->
         exists d, docs !! i = Some d
           /\ out !! j
              = Some (set_mmr_metadata (Z.of_nat j + 1) (query_sim sims i) d).
Proof.
  intros Hbound. unfold MMRReranker.reranked_docs.
  destruct (mapM (fun i => docs !! i) sel) as [ds|] eqn:Hm.
  - simpl. eexists. split; [reflexivity|].
    pose proof (length_mapM _ _ _ Hm) as Hlen.
    split; [by rewrite length_imap|].
    intros j i Hji. apply mapM_Some_1 in Hm.
    destruct (Forall2_lookup_l _ _ _ _ _ Hm Hji) as (d & Hd & Hdi).
    exists d. split; [done|].
    rewrite list_lookup_imap, Hd. simpl. by rewrite Hji.
  - exfalso. apply mapM_None_1 in Hm. apply Exists_exists in Hm as (i & Hi & Hnone).
    apply list_elem_of_lookup in Hi as (j & Hji).
    apply Hbound in Hji. apply lookup_ge_None in Hnone. lia.
Qed.

(** With similarities at hand and two or more passages, the MMR branch
    returns the annotated passages at the selected indices. *)
Lemma mmr_rerank_selected
    (self : MMRReranker.t) (query : string) (documents : list Document)
    (top_k : option Z) (sims : Similarities) :
  2 <= length documents ->
  fit query (map page_content documents) = Ok sims ->
  let sel :=
    MMRReranker.selected_indices (MMRReranker.lambda_mult self) sims top_k
      (length documents) in
  exists out,
    MMRReranker.reranked_docs sims documents sel = Some out
    /\ MMRReranker.rerank_documents fit self query documents top_k = out
    /\ length out = Z.to_nat (Z.max 1 (MMRReranker.target_count top_k
                                         (length documents))).
Proof.
  intros Hlen Hfit sel.
  pose proof (selected_indices_spec (MMRReranker.lambda_mult self) sims
                (length documents) top_k ltac:(lia)) as Hsel.
  fold sel in Hsel.
  destruct (reranked_docs_lookup sims documents sel) as (ds & Hds & Hl & _).
  { intros j i Hji. eapply is_selection_bound; eauto. }
  exists ds. split; [done|]. split.
  - unfold MMRReranker.rerank_documents.
    destruct documents as [|d1 [|d2 rest]]; simpl in Hlen; [lia|lia|].
    rewrite Hfit. fold sel. by rewrite Hds.
  - rewrite Hl. by destruct Hsel as (Hcount & _).
Qed.

(** C3 (amended).  For every query and every list of two or more
    passages: when the TF-IDF vectoriser delivers the similarities, the
    MMR reranker returns the passages of the selection the
    specification describes, the scores being computed in float
    arithmetic: the seed is the first passage of maximum query
    similarity; every later pick is, among the passages not yet
    selected, the first one in input order that maximises
    lambda * query_sim - (1 - lambda) * (largest similarity to a
    selected passage); and max(1, min(top_k or n, n)) passages are
    selected, passage [j] of the output being the selected passage
    annotated with rank [j + 1] and its query similarity.  When the
    vectoriser raises, the result is the basic reranker's. *)
Theorem mmr_rerank_follows_spec
    (self : MMRReranker.t) (query : string) (documents : list Document)
    (top_k : option Z) :
  2 <= length documents ->
  let n := length documents in
  let out := MMRReranker.rerank_documents fit self query documents top_k in
  match fit query (map page_content documents) with
  | Ok sims =>
      exists sel,
        MMRSpec.is_selection Float64.mul Float64.sub
          (MMRReranker.lambda_mult self) sims n
          (Z.to_nat
             (Z.max 1 (Z.min (int_or top_k (Z.of_nat n)) (Z.of_nat n))))
          sel
        /\ length out = length sel
        /\ forall j i, sel !! j = Some i ->
             exists d, documents !! i = Some d
               /\ out !! j
                  = Some (set_mmr_metadata (Z.of_nat j + 1)
                            (query_sim sims i) d)
  | Raise _ => out = BasicReranker.rerank_documents query documents top_k
  end.
Proof.
  intros Hlen n out.
  destruct (fit query (map page_content documents)) as [sims|e] eqn:Hfit.
  - pose proof (selected_indices_spec (MMRReranker.lambda_mult self) sims n
                  top_k ltac:(lia)) as Hsel.
    destruct (mmr_rerank_selected self query documents top_k sims Hlen Hfit)
      as (ds & Hds & Hout & _).
    fold n in Hds. fold out in Hout.
    set (sel := MMRReranker.selected_indices (MMRReranker.lambda_mult self)
                  sims top_k n) in *.
    destruct (reranked_docs_lookup sims documents sel)
      as (ds' & Hds' & Hl & Hlook).
    { intros j i Hji. eapply is_selection_bound; eauto. }
    assert (ds' = ds) as -> by congruence.
    exists sel. split; [exact Hsel|].
    split; [by rewrite Hout|by rewrite Hout].
  - subst out. unfold MMRReranker.rerank_documents.
    destruct documents as [|d1 [|d2 rest]]; simpl in Hlen; [lia|lia|].
    by rewrite Hfit.
Qed.

End RerankerTheorems.

Lemma mmr_rerank_follows_spec_witness :
  let documents := [Sample.paris; Sample.paris; Sample.oslo] in
  let self := MMRReranker.make (Float64.round (7 # 10)) in
  let sims :=
    Sample.text_similarities "capital" (map page_content documents) in
  let out :=
    MMRReranker.rerank_documents (fit_transform Sample.ext) self "capital"
      documents (Some 2%Z) in
  exists sel,
    MMRSpec.is_selection Float64.mul Float64.sub
      (MMRReranker.lambda_mult self) sims 3 2 sel
    /\ length out = length sel
    /\ forall j i, sel !! j = Some i ->
         exists d, documents !! i = Some d
           /\ out !! j
              = Some (set_mmr_metadata (Z.of_nat j + 1) (query_sim sims i) d).
Proof.
  intros documents self sims out.
  apply (mmr_rerank_follows_spec (fit_transform Sample.ext) self "capital"
           documents (Some 2%Z)).
  simpl. lia.
Defined.

(** C3 as stated fails outside the plain case.  With [top_k = -1] the
    count min(top_k or n, n) is -1, and no selection of that many
    passages exists, while the reranker returns one passage, the seed.
    And when the vectoriser raises there is no selection at all: the
    passages come back in the order of their stored scores. *)
Lemma mmr_rerank_departs_from_spec :
  let documents := [Sample.paris; Sample.rome; Sample.oslo] in
  let self := MMRReranker.make (Float64.round (7 # 10)) in
  Z.min (int_or (Some (-1)%Z) 3) 3 = (-1)%Z
  /\ (forall mul sub sims sel,
         ~ MMRSpec.is_selection mul sub (MMRReranker.lambda_mult self) sims 3
             (Z.to_nat (Z.min (int_or (Some (-1)%Z) 3) 3)) sel)
  /\ length
       (MMRReranker.rerank_documents (fit_transform Sample.ext) self
          "capital" documents (Some (-1)%Z)) = 1
  /\ MMRReranker.rerank_documents Sample.no_vocabulary self "the" documents
       None
     = [Sample.rome; Sample.paris; Sample.oslo].
Proof.
  intros documents self. split; [reflexivity|]. split; [|split].
  - intros mul sub sims sel (Hlen & (s0 & Hs0 & _) & _).
    simpl in Hlen. apply nil_length_inv in Hlen. by subst sel.
  - vm_compute. reflexivity.
  - vm_compute. reflexivity.
Qed.

(** Why the scores are read in float arithmetic.  With lambda = 0.7
    and the similarities [Sample.tie_similarities], passage 1 is the
    seed; the scores of passages 0 and 2 are then the same float, so
    the reranker keeps passage 0, the first of the two, although in the
    arithmetic of the real numbers the score of passage 2 is the
    larger one. *)
Example mmr_float_tie_keeps_first :
  let lam := Float64.round (7 # 10) in
  let sims := Sample.tie_similarities in
  MMRReranker.selected_indices lam sims None 3 = [1; 0; 2]
  /\ MMRReranker.mmr_score lam sims [1] 0 = MMRReranker.mmr_score lam sims [1] 2
  /\ (lam * query_sim sims 0 - (1 - lam) * doc_sim sims 0 1
      < lam * query_sim sims 2 - (1 - lam) * doc_sim sims 2 1)%Q
  /\ ~ MMRSpec.is_next Qmult Qminus lam sims 3 [1] 0.
Proof.
  intros lam sims. split; [by vm_compute|]. split; [by vm_compute|].
  assert (Hlt : (lam * query_sim sims 0 - (1 - lam) * doc_sim sims 0 1
                 < lam * query_sim sims 2 - (1 - lam) * doc_sim sims 2 1)%Q)
    by (by vm_compute).
  split; [exact Hlt|].
  intros (_ & _ & vb & (m & [(s & Hs & Hm) _] & Hvb) & Hmax).
  apply list_elem_of_singleton in Hs. subst s.
  destruct (Hmax 2 (lam * query_sim sims 2 - (1 - lam) * doc_sim sims 2 1)%Q)
    as [Hle _].
  - lia.
  - by intros Hin%list_elem_of_singleton.
  - exists (doc_sim sims 2 1). split; [|reflexivity]. split.
    + exists 1. split; [by apply list_elem_of_singleton|reflexivity].
    + intros s Hs'%list_elem_of_singleton. subst s. apply Qle_refl.
  - rewrite Hvb, Hm in Hle. exact (Qlt_not_le _ _ Hlt Hle).
Qed.

Section RerankerLengths.

Lemma insert_desc_length x l :
  length (BasicReranker.insert_desc x l) = S (length l).
Proof.
  induction l as [|y l IH]; simpl; [done|].
  destruct (Qlt_b (snd x) (snd y)); simpl; by rewrite ?IH.
Qed.

Lemma sort_desc_length l : length (BasicReranker.sort_desc l) = length l.
Proof.
  induction l as [|x l IH]; simpl; [done|].
  by rewrite insert_desc_length, IH.
Qed.

Lemma basic_rerank_length query documents top_k :
  let out := BasicReranker.rerank_documents query documents top_k in
  (truthy_int top_k = false -> length out = length documents)
  /\ (forall k, top_k = Some k -> (0 < k)%Z -> (Z.of_nat (length out) <= k)%Z).
Proof.
  unfold BasicReranker.rerank_documents. split.
  - intros ->. by rewrite length_map, sort_desc_length, length_map.
  - intros k -> Hk. simpl.
    destruct (Z.eqb_spec k 0) as [->|_]; [lia|]. simpl.
    unfold slice_to. destruct (Z.leb_spec 0 k); [|lia].
    rewrite length_take. lia.
Qed.

Lemma mmr_rerank_length fit self query documents top_k :
  let out := MMRReranker.rerank_documents fit self query documents top_k in
  (truthy_int top_k = false -> length out = length documents)
  /\ (forall k, top_k = Some k -> (0 < k)%Z -> (Z.of_nat (length out) <= k)%Z).
Proof.
  intros out.
  destruct (decide (length documents <= 1)) as [Hshort|Hlong].
  { assert (out = documents) as ->
      by (subst out; destruct documents as [|d1 [|d2 rest]];
          simpl in *; [done|done|lia]).
    split; [done|]. intros k _ Hk. lia. }
  destruct (fit query (map page_content documents)) as [sims|e] eqn:Hfit.
  - destruct (mmr_rerank_selected fit self query documents top_k sims
                ltac:(lia) Hfit) as (ds & _ & Hout & Hlen).
    fold out in Hout. rewrite Hout, Hlen.
    unfold MMRReranker.target_count, int_or, truthy_int. split.
    + destruct top_k as [k|]; [|lia].
      destruct (Z.eqb_spec k 0); [lia|done].
    + intros k -> Hk. destruct (Z.eqb_spec k 0); lia.
  - assert (out = BasicReranker.rerank_documents query documents top_k) as ->.
    { subst out. unfold MMRReranker.rerank_documents.
      destruct documents as [|d1 [|d2 rest]]; simpl in *; [lia|lia|].
      by rewrite Hfit. }
    apply basic_rerank_length.
Qed.

(** C10.  For both rerankers a [top_k] of 0 behaves as no limit: the
    result is the one obtained with [top_k] absent, hence as long as
    the input, while a strictly positive [top_k] does bound the
    length of the result. *)
Theorem rerank_top_k_zero_is_no_limit
    (ext : External) (r : Reranker) (query : string)
    (documents : list Document) :
  rerank_documents ext r query documents (Some 0%Z)
  = rerank_documents ext r query documents None
  /\ length (rerank_documents ext r query documents (Some 0%Z))
     = length documents
  /\ length (rerank_documents ext r query documents None)
     = length documents
  /\ forall k, (0 < k)%Z ->
       (Z.of_nat (length (rerank_documents ext r query documents (Some k)))
        <= k)%Z.
Proof.
  destruct r as [|self]; simpl.
  - split; [reflexivity|].
    split; [by apply basic_rerank_length|].
    split; [by apply basic_rerank_length|].
    intros k Hk. by eapply basic_rerank_length.
  - split.
    { unfold MMRReranker.rerank_documents.
      destruct documents as [|d1 [|d2 rest]]; [done|done|].
      destruct (fit_transform ext query _); reflexivity. }
    split; [by apply mmr_rerank_length|].
    split; [by apply mmr_rerank_length|].
    intros k Hk. by eapply mmr_rerank_length.
Qed.

Lemma rerank_top_k_zero_is_no_limit_witness :
  (0 < 2)%Z
  /\ (Z.of_nat
        (length (rerank_documents Sample.ext
                   (MMR (MMRReranker.make (Float64.round (7 # 10)))) "capital"
                   [Sample.paris; Sample.rome; Sample.oslo] (Some 2%Z)))
      <= 2)%Z.
Proof.
  split; [lia|].
  apply (rerank_top_k_zero_is_no_limit Sample.ext
           (MMR (MMRReranker.make (Float64.round (7 # 10)))) "capital"
           [Sample.paris; Sample.rome; Sample.oslo]).
  lia.
Defined.

End RerankerLengths.

(* ===================================================================== *)
(** * The retriever factory *)
(* ===================================================================== *)

Section FactoryFacts.

Context (ext : External) (config : AppConfig).

Lemma try_or_same {A : Type} (r : result A) :
  RetrieverFactory.try_or r r = r.
Proof. by destruct r. Qed.

Lemma vector_retriever_plain vs kw :
  reranking config = false ->
  RetrieverFactory._create_vector_retriever config vs kw
  = Ok (VectorStoreRetriever vs kw).
Proof.
  unfold reranking, RetrieverFactory._create_vector_retriever.
  intros H. apply orb_false_iff in H as [-> ->]. done.
Qed.

(** With a reranker configured the vector builder reaches the
    constructor of [RerankedRetriever], which raises. *)
Lemma vector_retriever_raises vs kw :
  reranking config = true ->
  RetrieverFactory._create_vector_retriever config vs kw
  = Raise reranked_init_error.
Proof.
  unfold reranking, RetrieverFactory._create_vector_retriever.
  intros H. destruct (String.eqb (reranker_type config) "mmr"); [done|].
  simpl in H. by rewrite H.
Qed.

Lemma vector_retriever_cases vs kw :
  RetrieverFactory._create_vector_retriever config vs kw
  = if reranking config
    then Raise reranked_init_error
    else Ok (VectorStoreRetriever vs kw).
Proof.
  destruct (reranking config) eqn:E;
    [by apply vector_retriever_raises|by apply vector_retriever_plain].
Qed.

Lemma bm25_fallback vs kw :
  bm25_unavailable ext vs = true ->
  RetrieverFactory._create_bm25_retriever ext config vs kw
  = RetrieverFactory._create_vector_retriever config vs kw.
Proof.
  unfold bm25_unavailable, RetrieverFactory._create_bm25_retriever.
  destruct (similarity_search vs "" 10000%Z) as [[|d docs]|e]; try done.
  - intros _. apply try_or_same.
  - by destruct (bm25_init ext _).
Qed.

Lemma bm25_built vs kw :
  bm25_unavailable ext vs = false ->
  exists docs,
    RetrieverFactory._create_bm25_retriever ext config vs kw
    = Ok (BM25Retriever docs
            (default (top_k_retrieval config) (kw !! "k"))).
Proof.
  unfold bm25_unavailable, RetrieverFactory._create_bm25_retriever.
  destruct (similarity_search vs "" 10000%Z) as [[|d docs]|e]; try done.
  destruct (bm25_init ext _); [done|]. eauto.
Qed.

(** Without a lexical index the hybrid builder ends where the vector
    builder ends: at the store's retriever, or at the exception of the
    reranked constructor. *)
Lemma hybrid_fallback vs kw :
  bm25_unavailable ext vs = true ->
  RetrieverFactory._create_hybrid_retriever ext config vs kw
  = RetrieverFactory._create_vector_retriever config vs kw.
Proof.
  intros Hbm. unfold RetrieverFactory._create_hybrid_retriever.
  rewrite bm25_fallback by done. rewrite vector_retriever_cases.
  by destruct (reranking config).
Qed.

Lemma hybrid_built vs kw :
  bm25_unavailable ext vs = false ->
  exists docs,
    RetrieverFactory._create_bm25_retriever ext config vs kw
    = Ok (BM25Retriever docs (default (top_k_retrieval config) (kw !! "k")))
    /\ RetrieverFactory._create_hybrid_retriever ext config vs kw
       = Ok (EnsembleRetriever
               [VectorStoreRetriever vs kw;
                BM25Retriever docs
                  (default (top_k_retrieval config) (kw !! "k"))]
               [hybrid_alpha config; Float64.sub 1 (hybrid_alpha config)]).
Proof.
  intros Hbm. destruct (bm25_built vs kw Hbm) as (docs & Hb).
  exists docs. split; [done|].
  unfold RetrieverFactory._create_hybrid_retriever. by rewrite Hb.
Qed.

Lemma create_retriever_hybrid vs kw :
  RetrieverFactory.create_retriever ext config vs (Some "hybrid") kw
  = lift (RetrieverFactory._create_hybrid_retriever ext config vs
            (RetrieverFactory.kwargs_or_default config kw)).
Proof. reflexivity. Qed.

(** C5 (the code departs from it).  When the lexical index cannot be
    built, the hybrid builder does what the vector builder does.  With
    no reranker configured that is the fallback the specification
    describes: the store's retriever.  With a reranker configured
    ([reranker_type] "mmr", as shipped, or "basic") the vector builder
    raises the [ValueError] of the [RerankedRetriever] constructor,
    first inside [_create_bm25_retriever] and again in each handler, so
    the hybrid builder, and [create_retriever] with it, raise that
    error to the caller. *)
Theorem hybrid_fallback_raises vs kw :
  bm25_unavailable ext vs = true ->
  RetrieverFactory._create_hybrid_retriever ext config vs kw
  = RetrieverFactory._create_vector_retriever config vs kw
  /\ (reranking config = false ->
      RetrieverFactory._create_hybrid_retriever ext config vs kw
      = Ok (VectorStoreRetriever vs kw))
  /\ (reranking config = true ->
      RetrieverFactory._create_hybrid_retriever ext config vs kw
      = Raise reranked_init_error
      /\ forall search_kwargs w,
           RetrieverFactory.create_retriever ext config vs (Some "hybrid")
             search_kwargs w
           = (Raise reranked_init_error, w)).
Proof.
  intros Hbm. split; [by apply hybrid_fallback|]. split.
  - intros Hrr. by rewrite hybrid_fallback, vector_retriever_plain.
  - intros Hrr.
    assert (Hraise : forall kw',
               RetrieverFactory._create_hybrid_retriever ext config vs kw'
               = Raise reranked_init_error)
      by (intros kw'; by rewrite hybrid_fallback, vector_retriever_raises).
    split; [apply Hraise|].
    intros search_kwargs w. by rewrite create_retriever_hybrid, Hraise.
Qed.

End FactoryFacts.

Lemma hybrid_fallback_raises_witness :
  bm25_unavailable Sample.ext (Sample.store []) = true
  /\ reranking Sample.default_config = true
  /\ RetrieverFactory._create_hybrid_retriever Sample.ext
       Sample.default_config (Sample.store []) Sample.k5
     = Raise reranked_init_error.
Proof.
  split; [reflexivity|]. split; [reflexivity|].
  apply (hybrid_fallback_raises Sample.ext Sample.default_config
           (Sample.store []) Sample.k5); reflexivity.
Defined.

(** The failed fallback reaches the user: with the configuration as
    shipped, a question put to an empty notebook is answered with the
    error of the reranked constructor, not with the "nothing found"
    answer. *)
Example empty_notebook_query_reports_error :
  exists res w',
    LangChainRAGPipeline.query Sample.ext_empty
      (Sample.pipeline Sample.default_config) "capital?" "nb1" 5%Z None
      (Sample.started Sample.default_config) = (Ok res, w')
    /\ error (meta res)
       = Some reranked_init_error
    /\ answer res = LangChainRAGPipeline.error_answer reranked_init_error
    /\ sources res = [].
Proof. eexists _, _. split; [by vm_compute|]. by vm_compute. Qed.

(** Without a reranker the fallback works: over a store whose
    namespace listing fails, hybrid mode returns what vector mode
    returns, the store's ranking. *)
Example hybrid_fallback_without_reranker :
  bm25_unavailable Sample.ext
    (Sample.strict_store [Sample.paris; Sample.rome]) = true
  /\ retrieve Sample.ext (Sample.config "hybrid" "none" (6 # 10)%Q)
       (Sample.strict_store [Sample.paris; Sample.rome]) "hybrid"
       (Some Sample.k5) "capital" Sample.boot
     = (Ok [Sample.paris; Sample.rome], Sample.boot)
  /\ retrieve Sample.ext (Sample.config "hybrid" "none" (6 # 10)%Q)
       (Sample.strict_store [Sample.paris; Sample.rome]) "vector"
       (Some Sample.k5) "capital" Sample.boot
     = (Ok [Sample.paris; Sample.rome], Sample.boot).
Proof. repeat split; by vm_compute. Qed.

Section RetrievalFacts.

Context (ext : External) (config : AppConfig).



Lemma retrieve_vector vs kw q w :
  retrieve ext config vs "vector" kw q w
  = through ext
      (RetrieverFactory._create_vector_retriever config vs
         (RetrieverFactory.kwargs_or_default config kw)) q w.
Proof.
  unfold retrieve, through, RetrieverFactory.create_retriever.
  change (optstr_or (Some "vector") (retriever_type config)) with "vector".
  change (String.eqb "vector" "vector") with true. cbv iota.
  unfold mbind, M_bind, lift.
  by destruct (RetrieverFactory._create_vector_retriever _ _ _).
Qed.



End RetrievalFacts.



Section UnsupportedNames.

Context (ext : External) (config : AppConfig).

Lemma eqb_false_of_ne (a b : string) : a <> b -> String.eqb a b = false.
Proof. intros H. by apply String.eqb_neq. Qed.

Lemma create_llm_unsupported provider :
  provider ∉ supported_providers ->
  LLMFactory._create_llm config provider
  = Raise ("Unsupported LLM provider: " +:+ provider).
Proof.
  unfold supported_providers. rewrite !not_elem_of_cons.
  intros (H1 & H2 & H3 & H4 & _). unfold LLMFactory._create_llm.
  by rewrite !eqb_false_of_ne.
Qed.

Lemma get_llm_unsupported self provider w :
  let name := optstr_or provider (llm_provider config) in
  name ∉ supported_providers ->
  llms_of w self !! name = None ->
  LLMFactory.get_llm ext config self provider w
  = (Raise ("Unsupported LLM provider: " +:+ name), w).
Proof.
  intros name Hname Hcache. unfold LLMFactory.get_llm.
  unfold mbind, M_bind, get_world. fold name. rewrite Hcache.
  unfold LLMFactory.construct. by rewrite create_llm_unsupported.
Qed.

Lemma create_retriever_vector vs kw :
  RetrieverFactory.create_retriever ext config vs (Some "vector") kw
  = lift (RetrieverFactory._create_vector_retriever config vs
            (RetrieverFactory.kwargs_or_default config kw)).
Proof. reflexivity. Qed.

Lemma create_retriever_unsupported vs mode kw :
  mode <> "" ->
  mode ∉ RetrieverFactory.get_available_types ->
  RetrieverFactory.create_retriever ext config vs (Some mode) kw
  = lift (RetrieverFactory._create_vector_retriever config vs
            (RetrieverFactory.kwargs_or_default config kw)).
Proof.
  unfold RetrieverFactory.get_available_types. rewrite !not_elem_of_cons.
  intros Hne (H1 & H2 & H3 & H4 & H5 & _).
  unfold RetrieverFactory.create_retriever.
  assert (optstr_or (Some mode) (retriever_type config) = mode) as ->
    by (by destruct mode).
  by rewrite !eqb_false_of_ne.
Qed.

(** C7 (amended).  An unsupported provider name is reported as such:
    [_create_llm] raises [ValueError("Unsupported LLM provider: ...")],
    [get_llm] passes it on (caching nothing), and [query] returns it
    in the [error] field of its result.  An unsupported retrieval mode
    is never reported as such: [create_retriever] does for it what it
    does for mode "vector".  With no reranker configured that is to
    return the store's retriever and no error; with a reranker
    configured it is to raise the error of the [RerankedRetriever]
    constructor, which vector mode raises too and which does not name
    the mode. *)
Theorem unsupported_names_reporting :
  (forall self provider w,
      let name := optstr_or provider (llm_provider config) in
      name ∉ supported_providers ->
      llms_of w self !! name = None ->
      LLMFactory.get_llm ext config self provider w
      = (Raise ("Unsupported LLM provider: " +:+ name), w))
  /\ (forall self question notebook_id top_k provider w,
         LangChainRAGPipeline.config self = config ->
         provider <> "" ->
         provider ∉ supported_providers ->
         llms_of w (LangChainRAGPipeline.llm_factory self) !! provider
         = None ->
         exists res w',
           LangChainRAGPipeline.query ext self question notebook_id top_k
             (Some provider) w = (Ok res, w')
           /\ error (meta res)
              = Some ("Unsupported LLM provider: " +:+ provider)
           /\ sources res = [])
  /\ (forall vs mode kw w,
         mode <> "" ->
         mode ∉ RetrieverFactory.get_available_types ->
         RetrieverFactory.create_retriever ext config vs (Some mode) kw w
         = RetrieverFactory.create_retriever ext config vs (Some "vector")
             kw w
         /\ RetrieverFactory.create_retriever ext config vs (Some mode) kw w
            = (if reranking config
               then Raise reranked_init_error
               else Ok (VectorStoreRetriever vs
                          (RetrieverFactory.kwargs_or_default config kw)),
               w)).
Proof.
  split; [|split].
  - intros. by apply get_llm_unsupported.
  - intros self question notebook_id top_k provider w Hcfg Hne Hun Hcache.
    unfold LangChainRAGPipeline.query, LangChainRAGPipeline.query_body.
    unfold LangChainRAGPipeline.components.
    unfold mbind at 1. unfold M_bind at 1. unfold time_time at 1.
    unfold try_except.
    unfold mbind at 1. unfold M_bind at 1. unfold get_world at 1.
    assert (Hp : optstr_or (Some provider) (current_provider (tick w))
                 = provider) by (by destruct provider).
    rewrite Hp.
    unfold mbind at 1. unfold M_bind at 1.
    unfold mbind at 1. unfold M_bind at 1.
    rewrite Hcfg.
    rewrite (get_llm_unsupported _ (Some provider) (tick w));
      [|by replace (optstr_or (Some provider) (llm_provider config))
             with provider by (by destruct provider)
       |by replace (optstr_or (Some provider) (llm_provider config))
             with provider by (by destruct provider)].
    replace (optstr_or (Some provider) (llm_provider config))
      with provider by (by destruct provider).
    eexists _, _. split; [reflexivity|]. done.
  - intros vs mode kw w Hne Hmode.
    rewrite create_retriever_unsupported, create_retriever_vector by done.
    split; [reflexivity|].
    rewrite vector_retriever_cases. unfold lift.
    by destruct (reranking config).
Qed.

End UnsupportedNames.

Lemma unsupported_names_reporting_witness :
  let cfg := Sample.default_config in
  let plain := Sample.config "hybrid" "none" (6 # 10)%Q in
  let w := Sample.started cfg in
  let vs := Sample.store [Sample.paris; Sample.rome] in
  LLMFactory.get_llm Sample.ext cfg 0 (Some "mistral") w
  = (Raise "Unsupported LLM provider: mistral", w)
  /\ (exists res w',
         LangChainRAGPipeline.query Sample.ext (Sample.pipeline cfg)
           "capital?" "nb1" 5%Z (Some "mistral") w = (Ok res, w')
         /\ error (meta res) = Some "Unsupported LLM provider: mistral"
         /\ sources res = [])
  /\ RetrieverFactory.create_retriever Sample.ext cfg vs (Some "graph")
       (Some Sample.k5) w
     = (Raise reranked_init_error, w)
  /\ RetrieverFactory.create_retriever Sample.ext plain vs (Some "graph")
       (Some Sample.k5) w
     = RetrieverFactory.create_retriever Sample.ext plain vs (Some "vector")
         (Some Sample.k5) w.
Proof.
  intros cfg plain w vs.
  destruct (unsupported_names_reporting Sample.ext cfg) as (H1 & H2 & H3).
  destruct (unsupported_names_reporting Sample.ext plain) as (_ & _ & H3').
  assert (Hgraph : "graph" ∉ RetrieverFactory.get_available_types).
  { unfold RetrieverFactory.get_available_types. rewrite !not_elem_of_cons.
    repeat split; try discriminate. apply not_elem_of_nil. }
  split; [|split; [|split]].
  - apply (H1 0 (Some "mistral") w); [|reflexivity].
    unfold supported_providers. rewrite !not_elem_of_cons.
    repeat split; try discriminate. apply not_elem_of_nil.
  - apply (H2 (Sample.pipeline cfg) "capital?" "nb1" 5%Z "mistral" w);
      [reflexivity|discriminate| |reflexivity].
    unfold supported_providers. rewrite !not_elem_of_cons.
    repeat split; try discriminate. apply not_elem_of_nil.
  - apply (H3 vs "graph" (Some Sample.k5) w); [discriminate|exact Hgraph].
  - apply (H3' vs "graph" (Some Sample.k5) w); [discriminate|exact Hgraph].
Defined.

(** C7 as stated fails for retrieval modes: with no reranker
    configured, asking for the unsupported mode "graph" raises nothing
    and yields the store's retriever, as mode "vector" does. *)
Lemma unsupported_mode_degrades_silently :
  RetrieverFactory.create_retriever Sample.ext
    (Sample.config "hybrid" "none" (6 # 10)%Q)
    (Sample.store [Sample.paris; Sample.rome]) (Some "graph")
    (Some Sample.k5) (Sample.started Sample.default_config)
  = (Ok (VectorStoreRetriever (Sample.store [Sample.paris; Sample.rome])
           Sample.k5),
     Sample.started Sample.default_config).
Proof. reflexivity. Qed.

(* ===================================================================== *)
(** * The LLM factory *)
(* ===================================================================== *)

Section LLMFactoryFacts.

Context (ext : External) (config : AppConfig).

Lemma llms_of_store_llm w f p llm f' p' :
  llms_of (store_llm f p llm w) f' !! p'
  = if decide (f = f' /\ p = p') then Some llm else llms_of w f' !! p'.
Proof.
  unfold llms_of, store_llm. simpl.
  destruct (decide (f = f')) as [->|Hf].
  - rewrite lookup_insert_eq. simpl.
    destruct (decide (p = p')) as [->|Hp].
    + rewrite lookup_insert_eq. by rewrite decide_True.
    + rewrite lookup_insert_ne by done. rewrite decide_False by tauto. done.
  - rewrite lookup_insert_ne by done. rewrite decide_False by tauto. done.
Qed.

Lemma constructions_log_built w f p llm f' p' :
  constructions (log_built f p llm w) f' p'
  = constructions w f' p' + (if decide (f = f' /\ p = p') then 1 else 0).
Proof.
  unfold constructions, log_built. simpl.
  rewrite filter_app, length_app. f_equal.
  rewrite filter_cons, filter_nil. simpl.
  repeat case_decide; simpl; tauto || done.
Qed.

(** The three ways a request to a factory can go. *)
Lemma get_llm_cases self provider w :
  let name := optstr_or provider (llm_provider config) in
  (exists llm, llms_of w self !! name = Some llm
      /\ LLMFactory.get_llm ext config self provider w = (Ok llm, w))
  \/ (exists e, llms_of w self !! name = None
        /\ LLMFactory.get_llm ext config self provider w = (Raise e, w))
  \/ (exists model,
        llms_of w self !! name = None
        /\ LLMFactory._create_llm config name = Ok model
        /\ chat_model_init ext model = None
        /\ let llm := {| llm_id := length (built w); llm_model := model |} in
           LLMFactory.get_llm ext config self provider w
           = (Ok llm, store_llm self name llm (log_built self name llm w))).
Proof.
  intros name. unfold LLMFactory.get_llm. fold name.
  unfold mbind, M_bind, get_world.
  destruct (llms_of w self !! name) as [llm|] eqn:Hc.
  - left. eauto.
  - right. unfold LLMFactory.construct.
    destruct (LLMFactory._create_llm config name) as [model|e]; [|left; eauto].
    destruct (chat_model_init ext model) as [e|] eqn:Hi; [left; eauto|].
    right. exists model. done.
Qed.

Lemma get_llm_memoized self provider w r w' :
  memoized w ->
  LLMFactory.get_llm ext config self provider w = (r, w') ->
  memoized w'.
Proof.
  intros Hm Hget.
  destruct (get_llm_cases self provider w)
    as [(llm & _ & H)|[(e & _ & H)|(model & Hc & _ & _ & H)]];
    rewrite H in Hget; simplify_eq; try done.
  intros f p. destruct (Hm f p) as [Hle Hzero].
  set (name := optstr_or provider (llm_provider config)) in *.
  set (llm := {| llm_id := length (built w); llm_model := model |}).
  rewrite llms_of_store_llm.
  change (constructions (store_llm self name llm (log_built self name llm w))
            f p)
    with (constructions (log_built self name llm w) f p).
  change (llms_of (log_built self name llm w) f !! p)
    with (llms_of w f !! p).
  rewrite constructions_log_built.
  destruct (decide (self = f /\ name = p)) as [[-> <-]|Hne].
  - rewrite (Hzero Hc). split; [lia|done].
  - split; [lia|]. intros Hn. rewrite Hzero by done. done.
Qed.

Lemma get_llm_again self provider w llm w' :
  LLMFactory.get_llm ext config self provider w = (Ok llm, w') ->
  llms_of w' self !! optstr_or provider (llm_provider config) = Some llm
  /\ LLMFactory.get_llm ext config self provider w' = (Ok llm, w').
Proof.
  intros Hget.
  assert (Hc : llms_of w' self !! optstr_or provider (llm_provider config)
               = Some llm).
  { destruct (get_llm_cases self provider w)
      as [(llm' & Hc & H)|[(e & _ & H)|(model & _ & _ & _ & H)]];
      rewrite H in Hget; simplify_eq; try done.
    rewrite llms_of_store_llm. by rewrite decide_True. }
  split; [done|].
  destruct (get_llm_cases self provider w')
    as [(llm' & Hc' & H)|[(e & Hc' & _)|(model & Hc' & _)]]; congruence.
Qed.

Lemma get_llm_keeps_cache self provider w r w' f p llm :
  LLMFactory.get_llm ext config self provider w = (r, w') ->
  llms_of w f !! p = Some llm ->
  llms_of w' f !! p = Some llm.
Proof.
  intros Hget Hc.
  destruct (get_llm_cases self provider w)
    as [(llm' & _ & H)|[(e & _ & H)|(model & Hn & _ & _ & H)]];
    rewrite H in Hget; simplify_eq; try done.
  rewrite llms_of_store_llm.
  destruct (decide _) as [[-> <-]|]; [congruence|done].
Qed.

(** C8 (amended).  Memoisation is per [LLMFactory] object: a factory
    builds at most one chat model per provider name; the first
    successful request builds and caches it, and every later request
    to that factory for that name returns the cached object and
    builds nothing, whatever was requested in between. *)
Theorem llm_factory_memoizes self provider w r w' :
  memoized w ->
  LLMFactory.get_llm ext config self provider w = (r, w') ->
  memoized w'
  /\ (forall factory name,
         constructions w' factory name <= 1)
  /\ (forall factory name llm,
         llms_of w factory !! name = Some llm ->
         llms_of w' factory !! name = Some llm)
  /\ (forall llm, r = Ok llm ->
         LLMFactory.get_llm ext config self provider w' = (Ok llm, w')).
Proof.
  intros Hm Hget.
  pose proof (get_llm_memoized self provider w r w' Hm Hget) as Hm'.
  split; [done|]. split; [intros f p; by apply Hm'|].
  split; [intros f p llm; by eapply get_llm_keeps_cache|].
  intros llm ->. by eapply get_llm_again.
Qed.

End LLMFactoryFacts.

Lemma memoized_boot : memoized Sample.boot.
Proof. intros f p. unfold constructions. simpl. split; [lia|done]. Qed.

Lemma llm_factory_memoizes_witness :
  let w := Sample.started Sample.default_config in
  let llm :=
    {| llm_id := 0;
       llm_model := ChatOpenAI "https://api.openai.com/v1" "sk-test"
                      "gpt-4o-mini" (Float64.round (1 # 10)) 4000%Z |} in
  let w' := store_llm 0 "openai" llm (log_built 0 "openai" llm w) in
  memoized w
  /\ LLMFactory.get_llm Sample.ext Sample.default_config 0 (Some "openai") w
     = (Ok llm, w')
  /\ memoized w'
  /\ (forall factory name, constructions w' factory name <= 1)
  /\ (forall factory name llm0,
         llms_of w factory !! name = Some llm0 ->
         llms_of w' factory !! name = Some llm0)
  /\ (forall llm0, Ok llm = Ok llm0 ->
         LLMFactory.get_llm Sample.ext Sample.default_config 0 (Some "openai")
           w' = (Ok llm0, w')).
Proof.
  intros w llm w'.
  assert (Hw : memoized w).
  { intros f p. unfold constructions. simpl. split; [lia|done]. }
  split; [exact Hw|]. split; [reflexivity|].
  apply (llm_factory_memoizes Sample.ext Sample.default_config 0
           (Some "openai") w (Ok llm) w' Hw).
  reflexivity.
Defined.

(** Two queries in the shipped (hybrid) mode share the one handle the
    pipeline's factory built. *)
Example queries_reuse_pipeline_handle :
  let self := Sample.pipeline Sample.default_config in
  let w1 :=
    snd (LangChainRAGPipeline.query Sample.ext self "capital of France?"
           "nb1" 5%Z None (Sample.started Sample.default_config)) in
  let w2 :=
    snd (LangChainRAGPipeline.query Sample.ext self "capital of Italy?"
           "nb1" 5%Z None w1) in
  length (handles_for w2 "openai") = 1 /\ length (invoked w2) = 2.
Proof. vm_compute. split; reflexivity. Qed.

(** C8 as stated fails: one query in multi_query mode leaves two live
    chat models for the name "openai", one built by the pipeline's
    factory and one by the factory the retriever builder creates. *)
Lemma multi_query_builds_second_handle :
  length
    (handles_for
       (snd (LangChainRAGPipeline.query Sample.ext
               (Sample.pipeline (Sample.config "multi_query" "mmr" (6 # 10)%Q))
               "What is the capital of France?" "nb1" 5%Z None
               (Sample.started (Sample.config "multi_query" "mmr" (6 # 10)%Q))))
       "openai")
  = 2.
Proof. vm_compute. reflexivity. Qed.

(* ===================================================================== *)
(** * The pipeline *)
(* ===================================================================== *)

Section PipelineFacts.

Context (ext : External).

Lemma get_llm_current_provider config self provider w r w' :
  LLMFactory.get_llm ext config self provider w = (r, w') ->
  current_provider w' = current_provider w /\ invoked w' = invoked w.
Proof.
  unfold LLMFactory.get_llm, LLMFactory.construct.
  unfold mbind, M_bind, mret, M_ret, get_world, modify.
  destruct (llms_of w self !! _); [intros; by simplify_eq|].
  destruct (LLMFactory._create_llm config _); [|intros; by simplify_eq].
  destruct (chat_model_init ext _); intros; by simplify_eq.
Qed.

(** C6.  [set_provider] always returns normally; it returns [True]
    exactly when the handle can be obtained and the probe
    [invoke("Hello")] returns a non-empty response, and then the
    default provider is the new name; in every other case (empty
    response, any exception) it returns [False] and the default
    provider is the previous one. *)
Theorem set_provider_all_or_nothing
    (self : LangChainRAGPipeline.t) (provider : string) (w : World) :
  exists b w',
    LangChainRAGPipeline.set_provider ext self provider w = (Ok b, w')
    /\ (b = true <->
        exists llm w1 response,
          LLMFactory.get_llm ext (LangChainRAGPipeline.config self)
            (LangChainRAGPipeline.llm_factory self) (Some provider) w
          = (Ok llm, w1)
          /\ llm_reply ext llm (PText "Hello") (length (invoked w1))
             = Ok response
          /\ response <> "")
    /\ current_provider w'
       = (if b then provider else current_provider w).
Proof.
  unfold LangChainRAGPipeline.set_provider, try_except.
  unfold mbind at 1. unfold M_bind at 1.
  destruct (LLMFactory.get_llm _ _ _ _ w) as [[llm|e] w1] eqn:Hget.
  - pose proof (get_llm_current_provider _ _ _ _ _ _ Hget) as [Hcur _].
    unfold mbind, M_bind, invoke.
    destruct (llm_reply ext llm (PText "Hello") (length (invoked w1)))
      as [response|e] eqn:Hreply.
    + destruct (String.eqb_spec response "") as [->|Hne]; simpl.
      * eexists false, _. split; [reflexivity|]. split; [|done].
        split; [done|]. intros (? & ? & ? & Hg & Hr & ?). simplify_eq; congruence.
      * eexists true, _. split; [reflexivity|]. split; [|done].
        split; [|done]. intros _. eauto 6.
    + eexists false, _. split; [reflexivity|]. split; [|done].
      split; [done|]. intros (? & ? & ? & Hg & Hr & ?). simplify_eq; congruence.
  - pose proof (get_llm_current_provider _ _ _ _ _ _ Hget) as [Hcur _].
    eexists false, _. split; [reflexivity|]. split; [|done].
    split; [done|]. intros (? & ? & ? & Hg & Hr & ?). simplify_eq; congruence.
Qed.



Lemma empty_response_shape question provider start_time w :
  exists res w',
    LangChainRAGPipeline._empty_response ext question provider start_time w
    = (Ok res, w')
    /\ question_of res = question
    /\ answer res = LangChainRAGPipeline.no_information_answer
    /\ sources res = []
    /\ retrieved_docs (meta res) = Some 0
    /\ error (meta res) = None
    /\ invoked w' = invoked w.
Proof. by eexists _, _. Qed.

End PipelineFacts.

Section Stateless.

Context (ext : External) (config : AppConfig).

Lemma stateless_vector vs kw : stateless ext (VectorStoreRetriever vs kw).
Proof. by intros q w. Qed.

Lemma stateless_bm25 docs k : stateless ext (BM25Retriever docs k).
Proof. by intros q w. Qed.

Lemma stateless_reranked base reranker :
  stateless ext base -> stateless ext (RerankedRetriever base reranker).
Proof.
  intros Hb q w. specialize (Hb q w). simpl. unfold mbind, M_bind.
  by destruct (get_relevant_documents ext base q w) as [[?|?] ?].
Qed.

Lemma stateless_ensemble_two r1 r2 ws :
  stateless ext r1 -> stateless ext r2 ->
  stateless ext (EnsembleRetriever [r1; r2] ws).
Proof.
  intros H1 H2 q w. specialize (H1 q w). simpl. unfold mbind, M_bind.
  destruct (get_relevant_documents ext r1 q w) as [[?|?] w1]; [|done].
  simpl in H1. subst w1. specialize (H2 q w).
  by destruct (get_relevant_documents ext r2 q w) as [[?|?] ?].
Qed.

Lemma stateless_create_vector vs kw r :
  RetrieverFactory._create_vector_retriever config vs kw = Ok r ->
  stateless ext r.
Proof.
  rewrite vector_retriever_cases. destruct (reranking config); [done|].
  intros [= <-]. apply stateless_vector.
Qed.

Lemma stateless_create_bm25 vs kw r :
  RetrieverFactory._create_bm25_retriever ext config vs kw = Ok r ->
  stateless ext r.
Proof.
  destruct (bm25_unavailable ext vs) eqn:E.
  - rewrite bm25_fallback by done. apply stateless_create_vector.
  - destruct (bm25_built ext config vs kw E) as (docs & ->).
    intros [= <-]. apply stateless_bm25.
Qed.

Lemma stateless_create_hybrid vs kw r :
  RetrieverFactory._create_hybrid_retriever ext config vs kw = Ok r ->
  stateless ext r.
Proof.
  destruct (bm25_unavailable ext vs) eqn:E.
  - rewrite hybrid_fallback by done. apply stateless_create_vector.
  - destruct (hybrid_built ext config vs kw E) as (docs & _ & ->).
    intros [= <-].
    apply stateless_ensemble_two; [apply stateless_vector|apply stateless_bm25].
Qed.

End Stateless.

Section ComponentsFacts.

Context (ext : External).

(** In the vector, bm25 and hybrid modes fetching the components
    invokes no generation backend and yields a stateless retriever. *)
Lemma components_llm_free self notebook_id top_k llm_provider w llm
    retriever w1 :
  retriever_type (LangChainRAGPipeline.config self)
    ∈ ["vector"; "bm25"; "hybrid"] ->
  LangChainRAGPipeline.components ext self notebook_id top_k llm_provider w
  = (Ok (llm, retriever), w1) ->
  invoked w1 = invoked w /\ stateless ext retriever.
Proof.
  intros Hmode. unfold LangChainRAGPipeline.components.
  unfold mbind at 1. unfold M_bind at 1.
  destruct (LLMFactory.get_llm _ _ _ _ w) as [[llm'|e] wa] eqn:Hget; [|done].
  pose proof (get_llm_current_provider _ _ _ _ _ _ _ Hget) as [_ Hinv].
  unfold EmbeddingFactory.get_embeddings.
  unfold mbind, M_bind, mret, M_ret, get_world, lift, raise, modify.
  assert (Hcreate :
    forall vs kw w0,
      exists built,
        RetrieverFactory.create_retriever ext
          (LangChainRAGPipeline.config self) vs None kw w0 = (built, w0)
        /\ forall r, built = Ok r -> stateless ext r).
  { intros vs kw w0. unfold RetrieverFactory.create_retriever. simpl.
    rewrite !elem_of_cons in Hmode.
    destruct Hmode as [->|[->|[->|Hnil]]];
      [| | |by apply elem_of_nil in Hnil]; simpl;
      eexists; (split; [reflexivity|]);
      eauto using stateless_create_vector, stateless_create_bm25,
        stateless_create_hybrid. }
  destruct (embeddings_cache wa) as [emb|] eqn:Hemb.
  - destruct (VectorStoreFactory.get_vector_store _ _ _ _) as [vs|e]; [|done].
    destruct (Hcreate vs (Some {[ "k" := top_k ]}) wa)
      as ([r|e] & Heq & Hst); rewrite Heq; [|done].
    intros [= <- <- <-]. split; [done|]. by apply Hst.
  - destruct (EmbeddingFactory._create_embeddings _ _) as [emb|e]; [|done].
    destruct (embeddings_init ext emb); [done|].
    destruct (VectorStoreFactory.get_vector_store _ _ _ _) as [vs|e]; [|done].
    destruct (Hcreate vs (Some {[ "k" := top_k ]}) (store_embeddings emb wa))
      as ([r|e] & Heq & Hst); rewrite Heq; [|done].
    intros [= <- <- <-]. split; [done|]. by apply Hst.
Qed.

End ComponentsFacts.

Section QueryTheorems.

Context (ext : External).

Import LangChainRAGPipeline.

(** Unfolds one query operation down to its component calls. *)
Ltac open_query :=
  unfold query, query_with_history, query_body, answer_with_history;
  unfold error_response, _empty_response;
  unfold try_except, time_time, get_world;
  unfold mbind, M_bind, mret, M_ret.

(** C9.  With an empty chat history the rewriter returns the question
    itself and leaves the process state untouched (in particular it
    invokes no generation backend); [query_with_history] called
    without history, or with an empty one, skips the rewriting and
    answers for the caller's question. *)
Theorem rewrite_with_empty_history_is_identity
    (self : t) (question notebook_id : string) (top_k : Z)
    (provider : option string) (llm : LLM) (w : World) :
  _rewrite_question_with_history ext question [] llm w = (Ok question, w)
  /\ (exists res w',
         query_with_history ext self question notebook_id None top_k
           provider w = (Ok res, w')
         /\ question_of res = question)
  /\ (exists res w',
         query_with_history ext self question notebook_id (Some []) top_k
           provider w = (Ok res, w')
         /\ question_of res = question).
Proof.
  split; [reflexivity|].
  split; open_query; simpl;
    (destruct (components ext self notebook_id top_k _ (tick w))
       as [[[llm' retriever]|e] w1]; [|by eexists _, _]);
    (destruct (get_relevant_documents ext retriever question w1)
       as [[[|d ds]|e] w2]; [by eexists _, _| |by eexists _, _]);
    unfold invoke;
    (destruct (llm_reply ext llm' _ _) as [reply|e]; by eexists _, _).
Qed.

(** C2 (amended).  When retrieval yields no passage, both query
    operations return the fixed "no relevant information" answer with
    no sources and [retrieved_docs = 0], and invoke no generation
    backend after the retrieval: the call that would generate the
    answer is not made.  In the vector, bm25 and hybrid modes, whose
    retrievers use no generation backend themselves, a result with
    [retrieved_docs = 0] means that the whole call invoked none, for
    [query] and for [query_with_history] without history. *)
Theorem empty_retrieval_short_circuit (self : t) :
  (forall question notebook_id top_k provider w llm retriever w1 w2,
      components ext self notebook_id top_k
        (optstr_or provider (current_provider w)) (tick w)
      = (Ok (llm, retriever), w1) ->
      get_relevant_documents ext retriever question w1 = (Ok [], w2) ->
      exists res w3,
        query ext self question notebook_id top_k provider w = (Ok res, w3)
        /\ answer res = no_information_answer
        /\ sources res = []
        /\ retrieved_docs (meta res) = Some 0
        /\ error (meta res) = None
        /\ invoked w3 = invoked w2)
  /\ (forall question notebook_id chat_history top_k provider w llm
             retriever w1 question' w1' w2,
         components ext self notebook_id top_k
           (optstr_or provider (current_provider w)) (tick w)
         = (Ok (llm, retriever), w1) ->
         _rewrite_question_with_history ext question
           (history_or_empty chat_history) llm w1 = (Ok question', w1') ->
         get_relevant_documents ext retriever question' w1' = (Ok [], w2) ->
         exists res w3,
           query_with_history ext self question notebook_id chat_history
             top_k provider w = (Ok res, w3)
           /\ answer res = no_information_answer
           /\ sources res = []
           /\ retrieved_docs (meta res) = Some 0
           /\ error (meta res) = None
           /\ invoked w3 = invoked w2)
  /\ (forall question notebook_id top_k provider w res w',
         retriever_type (config self) ∈ ["vector"; "bm25"; "hybrid"] ->
         query ext self question notebook_id top_k provider w = (Ok res, w') ->
         retrieved_docs (meta res) = Some 0 ->
         answer res = no_information_answer
         /\ sources res = []
         /\ invoked w' = invoked w)
  /\ (forall question notebook_id chat_history top_k provider w res w',
         retriever_type (config self) ∈ ["vector"; "bm25"; "hybrid"] ->
         history_or_empty chat_history = [] ->
         query_with_history ext self question notebook_id chat_history top_k
           provider w = (Ok res, w') ->
         retrieved_docs (meta res) = Some 0 ->
         answer res = no_information_answer
         /\ sources res = []
         /\ invoked w' = invoked w).
Proof.
  split; [|split; [|split]].
  - intros question notebook_id top_k provider w llm retriever w1 w2 Hc Hr.
    open_query. simpl. rewrite Hc, Hr. by eexists _, _.
  - intros question notebook_id chat_history top_k provider w llm retriever
      w1 question' w1' w2 Hc Hw Hr.
    unfold query_with_history.
    unfold mbind at 1. unfold M_bind at 1. unfold time_time at 1.
    unfold try_except at 1.
    unfold mbind at 1. unfold M_bind at 1. unfold get_world at 1.
    unfold mbind at 1. unfold M_bind at 1.
    change (current_provider (tick w)) with (current_provider w).
    rewrite Hc.
    unfold mbind at 1. unfold M_bind at 1.
    assert (Hrew :
      match history_or_empty chat_history with
      | [] => mret question
      | g :: l => _rewrite_question_with_history ext question (g :: l) llm
      end w1 = (Ok question', w1')).
    { by destruct (history_or_empty chat_history). }
    rewrite Hrew. unfold try_except, answer_with_history.
    unfold mbind at 1. unfold M_bind at 1. rewrite Hr.
    by eexists _, _.
  - intros question notebook_id top_k provider w res w' Hmode Hq Hzero.
    revert Hq. open_query. simpl.
    destruct (components ext self notebook_id top_k _ (tick w))
      as [[[llm retriever]|e] w1] eqn:Hc;
      [|intros; simplify_eq; by simpl in Hzero].
    destruct (components_llm_free ext self notebook_id top_k _ (tick w)
                llm retriever w1 Hmode Hc) as [Hinv Hpure].
    destruct (get_relevant_documents ext retriever question w1)
      as [[[|d ds]|e] w2] eqn:Hr.
    + intros; simplify_eq. split; [done|]. split; [done|]. simpl.
      specialize (Hpure question w1). rewrite Hr in Hpure. simpl in Hpure.
      by rewrite Hpure, Hinv.
    + unfold invoke. destruct (llm_reply ext llm _ _);
        intros; simplify_eq; by simpl in Hzero.
    + intros; simplify_eq; by simpl in Hzero.
  - intros question notebook_id chat_history top_k provider w res w' Hmode
      Hhist Hq Hzero.
    revert Hq. open_query. simpl. rewrite Hhist.
    destruct (components ext self notebook_id top_k _ (tick w))
      as [[[llm retriever]|e] w1] eqn:Hc;
      [|intros; simplify_eq; by simpl in Hzero].
    destruct (components_llm_free ext self notebook_id top_k _ (tick w)
                llm retriever w1 Hmode Hc) as [Hinv Hpure].
    destruct (get_relevant_documents ext retriever question w1)
      as [[[|d ds]|e] w2] eqn:Hr.
    + intros; simplify_eq. split; [done|]. split; [done|]. simpl.
      specialize (Hpure question w1). rewrite Hr in Hpure. simpl in Hpure.
      by rewrite Hpure, Hinv.
    + unfold invoke. destruct (llm_reply ext llm _ _);
        intros; simplify_eq; by simpl in Hzero.
    + intros; simplify_eq; by simpl in Hzero.
Qed.




End QueryTheorems.

Lemma empty_retrieval_short_circuit_witness :
  let cfg := Sample.config "hybrid" "none" (6 # 10)%Q in
  let self := Sample.pipeline cfg in
  let w := Sample.started cfg in
  exists llm retriever w1 w2,
    LangChainRAGPipeline.components Sample.ext_empty self "nb1" 5%Z
      (optstr_or None (current_provider w)) (tick w)
    = (Ok (llm, retriever), w1)
    /\ get_relevant_documents Sample.ext_empty retriever "capital?" w1
       = (Ok [], w2)
    /\ exists res w3,
         LangChainRAGPipeline.query Sample.ext_empty self "capital?" "nb1"
           5%Z None w = (Ok res, w3)
         /\ answer res
            = "抱歉，我在知识库中没有找到相关信息来回答您的问题。请尝试上传相关文档或重新表述您的问题。"
         /\ sources res = []
         /\ retrieved_docs (meta res) = Some 0
         /\ error (meta res) = None
         /\ invoked w3 = invoked w2.
Proof.
  intros cfg self w.
  eexists _, _, _, _. split; [reflexivity|]. split; [reflexivity|].
  eapply (proj1 (empty_retrieval_short_circuit Sample.ext_empty self));
    reflexivity.
Defined.

(** C2 as stated fails where a step before the short circuit uses the
    generation backend.  Over an empty notebook, [query] in multi_query
    mode returns the fixed answer after one backend call (the one that
    generates the query variants), and so does [query_with_history]
    with one turn of history in hybrid mode (the call that rewrites the
    question). *)
Lemma empty_retrieval_after_backend_call :
  (exists res w',
      LangChainRAGPipeline.query Sample.ext_empty
        (Sample.pipeline (Sample.config "multi_query" "mmr" (6 # 10)%Q))
        "capital?" "nb1" 5%Z None
        (Sample.started (Sample.config "multi_query" "mmr" (6 # 10)%Q))
      = (Ok res, w')
      /\ answer res = LangChainRAGPipeline.no_information_answer
      /\ sources res = []
      /\ retrieved_docs (meta res) = Some 0
      /\ length (invoked w') = 1)
  /\ (exists res w',
         LangChainRAGPipeline.query_with_history Sample.ext_empty
           (Sample.pipeline (Sample.config "hybrid" "none" (6 # 10)%Q))
           "and Italy?" "nb1"
           (Some [{[ "question" := "capital of France?";
                     "answer" := "Paris." ]}])
           5%Z None
           (Sample.started (Sample.config "hybrid" "none" (6 # 10)%Q))
         = (Ok res, w')
         /\ answer res = LangChainRAGPipeline.no_information_answer
         /\ sources res = []
         /\ retrieved_docs (meta res) = Some 0
         /\ length (invoked w') = 1).
Proof.
  split; eexists _, _; (split; [by vm_compute|]); by vm_compute.
Qed.


(* ===================================================================== *)
(** * Further properties of the rerankers *)
(* ===================================================================== *)

Section BasicSort.

Import BasicReranker.

#[local] Existing Instance Qeq_decision.

Lemma insert_desc_perm x l : insert_desc x l ≡ₚ x :: l.
Proof.
  induction l as [|y l IH]; simpl; [done|].
  destruct (Qlt_b (snd x) (snd y)); [|done].
  rewrite IH. apply Permutation_swap.
Qed.

Lemma sort_desc_perm l : sort_desc l ≡ₚ l.
Proof.
  induction l as [|x l IH]; simpl; [done|].
  by rewrite insert_desc_perm, IH.
Qed.

Lemma insert_desc_sorted x l :
  StronglySorted by_score_desc l -> StronglySorted by_score_desc (insert_desc x l).
Proof.
  induction 1 as [|y l Hl IH Hy]; simpl; [repeat constructor|].
  destruct (Qlt_b (snd x) (snd y)) eqn:E.
  - apply Qlt_b_true in E. constructor; [done|].
    rewrite insert_desc_perm. constructor; [|done].
    unfold by_score_desc. by apply Qlt_le_weak.
  - apply Qlt_b_false in E. constructor; [by constructor|].
    constructor; [done|].
    eapply Forall_impl; [exact Hy|]. unfold by_score_desc. intros z Hz.
    by eapply Qle_trans.
Qed.

Lemma sort_desc_sorted l : StronglySorted by_score_desc (sort_desc l).
Proof.
  induction l as [|x l IH]; simpl; [constructor|].
  by apply insert_desc_sorted.
Qed.

Lemma insert_desc_stable s x l :
  filter (fun p => (snd p == s)%Q) (insert_desc x l)
  = filter (fun p => (snd p == s)%Q) (x :: l).
Proof.
  induction l as [|y l IH]; simpl; [done|].
  destruct (Qlt_b (snd x) (snd y)) eqn:E; [|done].
  apply Qlt_b_true in E.
  rewrite (filter_cons _ y), IH, !(filter_cons _ x), (filter_cons _ y).
  destruct (decide (snd x == s)%Q) as [Hx|Hx]; [|done].
  destruct (decide (snd y == s)%Q) as [Hy|Hy]; [|done].
  exfalso. rewrite Hx, Hy in E. by apply Qlt_irrefl in E.
Qed.

Lemma sort_desc_stable s l :
  filter (fun p => (snd p == s)%Q) (sort_desc l)
  = filter (fun p => (snd p == s)%Q) l.
Proof.
  induction l as [|x l IH]; simpl; [done|].
  by rewrite insert_desc_stable, !filter_cons, IH.
Qed.

Lemma filter_fmap_comm {A B : Type} (f : A -> B) (P : B -> Prop)
    `{!forall y, Decision (P y)} (l : list A) :
  filter P (f <$> l) = f <$> filter (fun x => P (f x)) l.
Proof.
  induction l as [|x l IH]; [done|]. csimpl.
  rewrite !filter_cons, IH. by destruct (decide (P (f x))).
Qed.

Lemma strongly_sorted_fmap_inv {A B : Type} (f : A -> B) (R : relation B)
    (l : list A) :
  StronglySorted R (f <$> l) -> StronglySorted (fun x y => R (f x) (f y)) l.
Proof.
  induction l as [|x l IH]; csimpl; [constructor|].
  intros H. apply StronglySorted_cons in H as [Hall Hs].
  constructor; [by apply IH|]. by rewrite Forall_fmap in Hall.
Qed.

(** The decorated list the sort works on determines the passages. *)
Lemma sort_desc_decorated (dec : Document -> Document * Q)
    (documents : list Document) :
  (forall doc, dec doc = (doc, get_score doc)) ->
  dec <$> (fst <$> sort_desc (dec <$> documents))
  = sort_desc (dec <$> documents).
Proof.
  intros Hdec. rewrite <- list_fmap_compose.
  rewrite <- (list_fmap_id (sort_desc (dec <$> documents))) at 2.
  apply list_fmap_ext. intros i p Hp. apply list_elem_of_lookup_2 in Hp.
  rewrite sort_desc_perm in Hp. apply list_elem_of_fmap in Hp as (d & -> & _).
  simpl. by rewrite !Hdec.
Qed.

(** X1.  With no limit the basic reranker returns a rearrangement of
    its input, in descending order of the [score] metadata (absent
    scores counting as 0). *)
Theorem basic_rerank_sorted_permutation
    (query : string) (documents : list Document) :
  let out := rerank_documents query documents None in
  out ≡ₚ documents
  /\ StronglySorted (fun a b => (get_score b <= get_score a)%Q) out.
Proof.
  intros out. subst out. unfold rerank_documents. simpl.
  set (dec := fun doc => (doc, get_score doc)).
  change (map dec documents) with (dec <$> documents).
  change (map fst (sort_desc (dec <$> documents)))
    with (fst <$> sort_desc (dec <$> documents)).
  split.
  - rewrite sort_desc_perm, <- list_fmap_compose. by rewrite list_fmap_id.
  - apply (strongly_sorted_fmap_inv dec (fun x y => (snd y <= snd x)%Q)).
    rewrite (sort_desc_decorated dec documents) by done.
    apply sort_desc_sorted.
Qed.

(** X2.  The basic reranker is stable: passages with equal scores keep
    the relative order they had in the input. *)
Theorem basic_rerank_stable
    (query : string) (documents : list Document) (s : Q) :
  filter (fun d => (get_score d == s)%Q)
    (rerank_documents query documents None)
  = filter (fun d => (get_score d == s)%Q) documents.
Proof.
  unfold rerank_documents. simpl.
  set (dec := fun doc => (doc, get_score doc)).
  change (map dec documents) with (dec <$> documents).
  change (map fst (sort_desc (dec <$> documents)))
    with (fst <$> sort_desc (dec <$> documents)).
  set (out := fst <$> sort_desc (dec <$> documents)).
  assert (H : dec <$> filter (fun d => (snd (dec d) == s)%Q) out
              = dec <$> filter (fun d => (snd (dec d) == s)%Q) documents).
  { etrans;
      [symmetry;
       apply (@filter_fmap_comm _ _ dec (fun p => (snd p == s)%Q)
                (fun p => Qeq_decision (snd p) s))|].
    etrans;
      [|apply (@filter_fmap_comm _ _ dec (fun p => (snd p == s)%Q)
                 (fun p => Qeq_decision (snd p) s))].
    subst out. rewrite (sort_desc_decorated dec documents) by done.
    apply sort_desc_stable. }
  apply (f_equal (fmap fst)) in H.
  rewrite <- !list_fmap_compose in H. rewrite !list_fmap_id in H. exact H.
Qed.

End BasicSort.

Section MMRMore.

Context (lam : Q) (sims : Similarities).

Lemma select_loop_extends fuel target selected remaining :
  exists extra,
    MMRReranker.select_loop fuel lam sims target selected remaining
    = selected ++ extra.
Proof.
  revert selected remaining.
  induction fuel as [|fuel IH]; intros selected remaining; simpl.
  - exists []. by rewrite app_nil_r.
  - destruct (Z.of_nat (length selected) <? target)%Z;
      [|exists []; by rewrite app_nil_r].
    destruct (map _ remaining) as [|first others];
      [exists []; by rewrite app_nil_r|].
    destruct (IH (selected ++ [fst (max_by snd first others)])
                (Py.remove (fst (max_by snd first others)) remaining))
      as (extra & ->).
    eexists. by rewrite <- app_assoc.
Qed.

(** A smaller target stops the same greedy run earlier. *)
Lemma select_loop_take fuel target target' selected remaining :
  (target <= target')%Z ->
  MMRReranker.select_loop fuel lam sims target selected remaining
  = take (Z.to_nat (Z.max (Z.of_nat (length selected)) target))
      (MMRReranker.select_loop fuel lam sims target' selected remaining).
Proof.
  intros Hle. revert selected remaining.
  induction fuel as [|fuel IH]; intros selected remaining; simpl.
  - rewrite take_ge; [done|lia].
  - destruct (Z.ltb_spec (Z.of_nat (length selected)) target) as [Ht|Ht].
    + destruct (Z.ltb_spec (Z.of_nat (length selected)) target') as [_|?];
        [|lia].
      destruct (map _ remaining) as [|first others];
        [rewrite take_ge; [done|lia]|].
      rewrite IH. f_equal. rewrite length_app. simpl. lia.
    + destruct (select_loop_extends (S fuel) target' selected remaining)
        as (extra & Hext).
      simpl in Hext. rewrite Hext.
      replace (Z.to_nat (Z.max (Z.of_nat (length selected)) target))
        with (length selected) by lia.
      by rewrite take_app_length.
Qed.

Lemma selected_indices_take (n : nat) (k : Z) :
  2 <= n -> (0 < k)%Z ->
  MMRReranker.selected_indices lam sims (Some k) n
  = take (Z.to_nat k) (MMRReranker.selected_indices lam sims None n).
Proof.
  intros Hn Hk. unfold MMRReranker.selected_indices.
  set (first := max_by (query_sim sims) 0 (seq 1 (n - 1))).
  set (rem := Py.remove first (seq 0 n)).
  rewrite (select_loop_take _ (MMRReranker.target_count (Some k) n)
             (MMRReranker.target_count None n)).
  2:{ unfold MMRReranker.target_count, int_or.
      destruct (Z.eqb_spec k 0); lia. }
  pose proof (selected_indices_spec lam sims n None ltac:(lia))
    as (Hlen & _).
  unfold MMRReranker.selected_indices in Hlen. fold first rem in Hlen.
  set (full := MMRReranker.select_loop _ _ _ _ _ _) in *.
  unfold MMRReranker.target_count, int_or in *. simpl in *.
  destruct (Z.eqb_spec k 0); [lia|].
  destruct (decide (k <= Z.of_nat n)%Z).
  - f_equal. lia.
  - rewrite !take_ge; [done|lia|lia].
Qed.

Lemma is_selection_NoDup n count sel :
  MMRSpec.is_selection Float64.mul Float64.sub lam sims n count sel ->
  NoDup sel.
Proof.
  intros (_ & _ & Hsteps).
  apply NoDup_alt. intros i j x Hi Hj.
  assert (forall i j, i < j -> sel !! i = Some x -> sel !! j = Some x -> False)
    as Hlt.
  { clear i j Hi Hj. intros i j Hij Hi Hj.
    destruct (Hsteps j x ltac:(lia) Hj) as (_ & Hnot & _).
    apply Hnot. apply elem_of_take. eauto. }
  destruct (Nat.lt_trichotomy i j) as [?|[?|?]]; [|done|]; exfalso; eauto.
Qed.

End MMRMore.

Section RerankerMore.

Lemma reranked_docs_take sims (docs : list Document) sel out m :
  MMRReranker.reranked_docs sims docs sel = Some out ->
  MMRReranker.reranked_docs sims docs (take m sel) = Some (take m out).
Proof.
  unfold MMRReranker.reranked_docs.
  destruct (mapM (fun i => docs !! i) sel) as [ds|] eqn:Hm; [|done].
  simpl. intros [= <-].
  assert (Hm' : mapM (fun i => docs !! i) (take m sel) = Some (take m ds)).
  { apply mapM_Some. apply mapM_Some in Hm. by apply Forall2_take. }
  rewrite Hm'. simpl. f_equal. apply list_eq. intros i.
  rewrite list_lookup_imap.
  destruct (decide (i < m)) as [Hi|Hi].
  - rewrite !lookup_take_lt by done. by rewrite list_lookup_imap.
  - rewrite !lookup_take_ge by lia. done.
Qed.

(** X3.  A positive [top_k] cuts the full ranking: for both rerankers
    the result with [top_k = k > 0] is the first [k] passages of the
    result with no limit. *)
Theorem rerank_top_k_is_prefix
    (ext : External) (r : Reranker) (query : string)
    (documents : list Document) (k : Z) :
  (0 < k)%Z ->
  rerank_documents ext r query documents (Some k)
  = take (Z.to_nat k) (rerank_documents ext r query documents None).
Proof.
  intros Hk. destruct r as [|self]; simpl.
  - unfold BasicReranker.rerank_documents. simpl.
    destruct (Z.eqb_spec k 0); [lia|]. simpl.
    unfold slice_to. by destruct (Z.leb_spec 0 k); [|lia].
  - destruct (decide (length documents <= 1)) as [Hshort|Hlong].
    { destruct documents as [|d1 [|d2 rest]]; simpl in *; [| |lia];
        (rewrite take_ge; [done|simpl; lia]). }
    destruct (fit_transform ext query (map page_content documents))
      as [sims|e] eqn:Hfit.
    + destruct (mmr_rerank_selected (fit_transform ext) self query documents
                  None sims ltac:(lia) Hfit) as (full & Hfull & -> & _).
      destruct (mmr_rerank_selected (fit_transform ext) self query documents
                  (Some k) sims ltac:(lia) Hfit) as (cut & Hcut & -> & _).
      rewrite selected_indices_take in Hcut by lia.
      rewrite (reranked_docs_take _ _ _ _ _ Hfull) in Hcut. congruence.
    + unfold MMRReranker.rerank_documents.
      destruct documents as [|d1 [|d2 rest]]; simpl in *; [lia|lia|].
      rewrite Hfit. unfold BasicReranker.rerank_documents. simpl.
      destruct (Z.eqb_spec k 0); [lia|]. simpl.
      unfold slice_to. by destruct (Z.leb_spec 0 k); [|lia].
Qed.

Lemma rerank_top_k_is_prefix_witness :
  let r := MMR (MMRReranker.make (Float64.round (7 # 10))) in
  (0 < 2)%Z
  /\ rerank_documents Sample.ext r "capital"
       [Sample.paris; Sample.paris; Sample.oslo] (Some 2%Z)
     = take (Z.to_nat 2)
         (rerank_documents Sample.ext r "capital"
            [Sample.paris; Sample.paris; Sample.oslo] None).
Proof.
  intros r. split; [lia|].
  apply (rerank_top_k_is_prefix Sample.ext r "capital"
           [Sample.paris; Sample.paris; Sample.oslo] 2).
  lia.
Defined.

Lemma slice_to_submseteq {A : Type} (k : Z) (l : list A) : slice_to k l ⊆+ l.
Proof. unfold slice_to. destruct (0 <=? k)%Z; apply submseteq_take. Qed.

Lemma payload_set_mmr_metadata rank s d :
  payload (set_mmr_metadata rank s d) = payload d.
Proof. done. Qed.

Lemma basic_rerank_payload query documents top_k :
  let out := BasicReranker.rerank_documents query documents top_k in
  payload <$> out ⊆+ payload <$> documents
  /\ (truthy_int top_k = false ->
      payload <$> out ≡ₚ payload <$> documents).
Proof.
  simpl. unfold BasicReranker.rerank_documents.
  set (sorted := map fst _).
  assert (Hperm : sorted ≡ₚ documents).
  { subst sorted.
    change (fst <$> BasicReranker.sort_desc
              ((fun doc => (doc, get_score doc)) <$> documents) ≡ₚ documents).
    rewrite sort_desc_perm, <- list_fmap_compose. by rewrite list_fmap_id. }
  split.
  - destruct (truthy_int top_k).
    + rewrite <- Hperm. apply fmap_submseteq, slice_to_submseteq.
    + by rewrite Hperm.
  - intros ->. by rewrite Hperm.
Qed.

Lemma mmr_rerank_payload fit self query documents top_k :
  let out := MMRReranker.rerank_documents fit self query documents top_k in
  payload <$> out ⊆+ payload <$> documents
  /\ (truthy_int top_k = false ->
      payload <$> out ≡ₚ payload <$> documents).
Proof.
  intros out.
  destruct (decide (length documents <= 1)) as [Hshort|Hlong].
  { assert (out = documents) as ->
      by (subst out; destruct documents as [|d1 [|d2 rest]];
          simpl in *; [done|done|lia]).
    done. }
  destruct (fit query (map page_content documents)) as [sims|e] eqn:Hfit.
  - pose proof (selected_indices_spec (MMRReranker.lambda_mult self) sims
                  (length documents) top_k ltac:(lia)) as Hsel.
    destruct (mmr_rerank_selected fit self query documents top_k sims
                ltac:(lia) Hfit) as (ds & Hds & Hout & Hlen).
    fold out in Hout. subst ds.
    set (sel := MMRReranker.selected_indices _ _ _ _) in *.
    destruct (reranked_docs_lookup sims documents sel)
      as (ds & Hds' & Hl & Hlook).
    { intros j i Hji. eapply is_selection_bound; eauto. }
    assert (ds = out) as -> by congruence.
    set (pl := fun i : nat =>
                 from_option payload ("", None, None, []) (documents !! i)).
    assert (Hpay : payload <$> out = pl <$> sel).
    { apply list_eq. intros j. rewrite !list_lookup_fmap.
      destruct (sel !! j) as [i|] eqn:Hj.
      - destruct (Hlook j i Hj) as (d & Hd & ->). simpl.
        unfold pl. by rewrite Hd.
      - apply lookup_ge_None in Hj. rewrite <- Hl in Hj.
        apply lookup_ge_None in Hj. by rewrite Hj. }
    assert (Hall : payload <$> documents = pl <$> seq 0 (length documents)).
    { apply list_eq. intros j. rewrite !list_lookup_fmap.
      destruct (documents !! j) as [d|] eqn:Hd.
      - rewrite lookup_seq_lt by (by eapply lookup_lt_Some). simpl.
        unfold pl. by rewrite Hd.
      - rewrite lookup_seq_ge by (by apply lookup_ge_None). done. }
    assert (Hsub : sel ⊆+ seq 0 (length documents)).
    { apply NoDup_submseteq; [by eapply is_selection_NoDup|].
      intros i Hi. apply list_elem_of_lookup in Hi as (j & Hj).
      apply elem_of_seq. pose proof (is_selection_bound _ _ _ _ _ _ _ Hsel Hj).
      lia. }
    rewrite Hpay, Hall. split; [by apply fmap_submseteq|].
    intros Htop. apply fmap_Permutation.
    apply submseteq_length_Permutation; [done|].
    rewrite length_seq. destruct Hsel as (Hcount & _). rewrite Hcount.
    unfold MMRReranker.target_count, int_or, truthy_int in *.
    destruct top_k as [k|]; [|lia].
    destruct (Z.eqb_spec k 0); [lia|done].
  - assert (out = BasicReranker.rerank_documents query documents top_k) as ->.
    { subst out. unfold MMRReranker.rerank_documents.
      destruct documents as [|d1 [|d2 rest]]; simpl in *; [lia|lia|].
      by rewrite Hfit. }
    apply basic_rerank_payload.
Qed.

(** X4.  Reranking never invents, duplicates or alters a passage: the
    texts, sources, relevance scores and other metadata of the result
    are a sub-multiset of those of the input (only [mmr_rank] and
    [original_score] are written), and with no limit ([top_k] absent or
    0) they are a rearrangement of the input's. *)
Theorem rerank_preserves_passages
    (ext : External) (r : Reranker) (query : string)
    (documents : list Document) (top_k : option Z) :
  let out := rerank_documents ext r query documents top_k in
  payload <$> out ⊆+ payload <$> documents
  /\ (truthy_int top_k = false ->
      payload <$> out ≡ₚ payload <$> documents).
Proof.
  destruct r as [|self]; simpl.
  - apply basic_rerank_payload.
  - apply mmr_rerank_payload.
Qed.

End RerankerMore.

Section LambdaOne.

Context (lam : Q) (sims : Similarities) (n : nat).
Hypothesis Hlam : (lam == 1)%Q.
Hypothesis Hfloat : forall i, Float64.is_float (query_sim sims i).

Lemma mmr_score_lambda_one selected i v :
  selected <> [] ->
  MMRSpec.is_mmr_score Float64.mul Float64.sub lam sims selected i v
  <-> (v == query_sim sims i)%Q.
Proof.
  intros Hne. split.
  - intros (m & _ & Hv). rewrite Hv. by apply mmr_score_at_one.
  - intros Hv. exists (MMRReranker.max_sim_to_selected sims selected i).
    split; [by apply max_sim_is_max|].
    rewrite Hv. symmetry. by apply mmr_score_at_one.
Qed.

Lemma selection_lambda_one count sel j j' i i' :
  MMRSpec.is_selection Float64.mul Float64.sub lam sims n count sel ->
  j < j' -> sel !! j = Some i -> sel !! j' = Some i' ->
  (query_sim sims i' <= query_sim sims i)%Q
  /\ ((query_sim sims i' == query_sim sims i)%Q -> i < i').
Proof.
  intros Hsel Hjj Hj Hj'.
  pose proof (is_selection_NoDup lam sims n count sel Hsel) as Hnd.
  pose proof (is_selection_bound _ _ _ _ _ _ _ Hsel Hj') as Hi'.
  assert (Hne : i <> i').
  { intros ->. pose proof (NoDup_lookup _ _ _ _ Hnd Hj Hj'). lia. }
  destruct Hsel as (_ & (s0 & Hs0 & Hseed) & Hsteps).
  assert (Hcore : (query_sim sims i' <= query_sim sims i)%Q
                  /\ (i' < i -> (query_sim sims i' < query_sim sims i)%Q)).
  { destruct j as [|j].
    - rewrite Hs0 in Hj. injection Hj as <-. by apply Hseed.
    - destruct (Hsteps (S j) i ltac:(lia) Hj) as (_ & _ & vb & Hvb & Hmax).
      assert (Htake : take (S j) sel <> []).
      { apply lookup_lt_Some in Hj. destruct sel; simpl in *; [lia|done]. }
      apply mmr_score_lambda_one in Hvb; [|done].
      destruct (Hmax i' (query_sim sims i') Hi') as [Hle Hlt].
      + intros Hin. apply elem_of_take in Hin as (j0 & Hj0 & Hlt0).
        pose proof (NoDup_lookup _ _ _ _ Hnd Hj0 Hj'). lia.
      + apply mmr_score_lambda_one; [done|reflexivity].
      + rewrite Hvb in Hle, Hlt. done. }
  destruct Hcore as [Hle Hlt]. split; [done|].
  intros Heq. destruct (Nat.lt_trichotomy i i') as [?|[?|Hgt]]; [done|done|].
  apply Hlt in Hgt. rewrite Heq in Hgt. by apply Qlt_irrefl in Hgt.
Qed.

End LambdaOne.

(** X5.  With [lambda_mult = 1] MMR degenerates to ranking by query
    similarity (the similarities being floats, as the vectoriser
    delivers them): in the result every passage has a similarity no
    larger than the passages before it, passages of equal similarity
    keeping their input order; the [original_score] annotations
    therefore descend. *)
Theorem mmr_lambda_one_ranks_by_similarity
    (fit : string -> list string -> result Similarities)
    (self : MMRReranker.t) (query : string) (documents : list Document)
    (top_k : option Z) (sims : Similarities) :
  (MMRReranker.lambda_mult self == 1)%Q ->
  2 <= length documents ->
  fit query (map page_content documents) = Ok sims ->
  (forall i, Float64.is_float (query_sim sims i)) ->
  let sel :=
    MMRReranker.selected_indices (MMRReranker.lambda_mult self) sims top_k
      (length documents) in
  let out := MMRReranker.rerank_documents fit self query documents top_k in
  (forall j j' i i',
      j < j' -> sel !! j = Some i -> sel !! j' = Some i' ->
      (query_sim sims i' <= query_sim sims i)%Q
      /\ ((query_sim sims i' == query_sim sims i)%Q -> i < i'))
  /\ (forall j j' d d',
         j < j' -> out !! j = Some d -> out !! j' = Some d' ->
         exists s s',
           md_original_score (metadata d) = Some s
           /\ md_original_score (metadata d') = Some s'
           /\ (s' <= s)%Q).
Proof.
  intros Hlam Hlen Hfit Hfloat sel out.
  pose proof (selected_indices_spec (MMRReranker.lambda_mult self) sims
                (length documents) top_k ltac:(lia)) as Hsel.
  fold sel in Hsel.
  assert (Hord : forall j j' i i',
             j < j' -> sel !! j = Some i -> sel !! j' = Some i' ->
             (query_sim sims i' <= query_sim sims i)%Q
             /\ ((query_sim sims i' == query_sim sims i)%Q -> i < i')).
  { intros j j' i i' Hjj Hj Hj'.
    by eapply (selection_lambda_one _ sims (length documents) Hlam Hfloat). }
  split; [exact Hord|].
  destruct (mmr_rerank_selected fit self query documents top_k sims Hlen Hfit)
    as (ds & Hds & Hout & _).
  fold out in Hout. fold sel in Hds. subst ds.
  destruct (reranked_docs_lookup sims documents sel)
    as (ds & Hds' & Hl & Hlook).
  { intros j i Hji. eapply is_selection_bound; eauto. }
  assert (ds = out) as -> by congruence.
  intros j j' d d' Hjj Hd Hd'.
  destruct (sel !! j) as [i|] eqn:Hj.
  2:{ apply lookup_ge_None in Hj. apply lookup_lt_Some in Hd. lia. }
  destruct (sel !! j') as [i'|] eqn:Hj'.
  2:{ apply lookup_ge_None in Hj'. apply lookup_lt_Some in Hd'. lia. }
  destruct (Hlook j i Hj) as (d0 & _ & Hd0).
  destruct (Hlook j' i' Hj') as (d0' & _ & Hd0').
  rewrite Hd in Hd0. rewrite Hd' in Hd0'. simplify_eq. simpl.
  eexists _, _. split; [done|]. split; [done|].
  by apply (Hord j j' i i').
Qed.

Lemma mmr_lambda_one_ranks_by_similarity_witness :
  let documents := [Sample.paris; Sample.rome; Sample.oslo] in
  let self := MMRReranker.make 1%Q in
  let out :=
    MMRReranker.rerank_documents (fit_transform Sample.ext) self
      "Rome is the capital of Italy." documents None in
  exists d d' s s',
    out !! 0 = Some d /\ out !! 1 = Some d'
    /\ md_original_score (metadata d) = Some s
    /\ md_original_score (metadata d') = Some s'
    /\ (s' <= s)%Q.
Proof.
  intros documents self out.
  destruct (mmr_lambda_one_ranks_by_similarity (fit_transform Sample.ext) self
              "Rome is the capital of Italy." documents None
              (Sample.text_similarities "Rome is the capital of Italy."
                 (map page_content documents)))
    as [_ Hout]; [reflexivity|simpl; lia|reflexivity| |].
  { intros i. unfold Float64.is_float. simpl.
    destruct (String.eqb _ _); by vm_compute. }
  let o := eval vm_compute in out in
  match o with
  | ?d :: ?d' :: _ =>
      assert (H0 : out !! 0 = Some d) by (vm_compute; reflexivity);
      assert (H1 : out !! 1 = Some d') by (vm_compute; reflexivity);
      destruct (Hout 0 1 d d' ltac:(lia) H0 H1)
        as (s & s' & Hs & Hs' & Hle);
      exists d, d', s, s'
  end.
  split; [exact H0|]. split; [exact H1|].
  split; [exact Hs|]. split; [exact Hs'|exact Hle].
Defined.

(* ===================================================================== *)
(** * Frames of retrieval and of the pipeline operations *)
(* ===================================================================== *)

Section Frames.

Context (ext : External).

Lemma only_invokes_refl w : only_invokes w w.
Proof. by repeat split. Qed.

Lemma only_invokes_trans w1 w2 w3 :
  only_invokes w1 w2 -> only_invokes w2 w3 -> only_invokes w1 w3.
Proof.
  intros (? & ? & ? & ? & ? & ? & ?) (? & ? & ? & ? & ? & ? & ?).
  repeat split; try congruence. by etrans.
Qed.

Lemma only_invokes_invoke llm prompt w :
  only_invokes w (snd (invoke ext llm prompt w)).
Proof. repeat split. simpl. by apply prefix_app_r. Qed.

Lemma quiet_ret {A : Type} (a : A) : quiet (mret a : M A).
Proof. intros w. apply only_invokes_refl. Qed.

Lemma quiet_lift {A : Type} (r : result A) : quiet (lift r).
Proof. intros w. apply only_invokes_refl. Qed.

Lemma quiet_bind {A B : Type} (m : M A) (f : A -> M B) :
  quiet m -> (forall a, quiet (f a)) -> quiet (m ≫= f).
Proof.
  intros Hm Hf w. specialize (Hm w). unfold mbind, M_bind.
  destruct (m w) as [[a|e] w1]; [|done].
  eapply only_invokes_trans; [exact Hm|]. apply Hf.
Qed.

Lemma quiet_invoke llm prompt : quiet (invoke ext llm prompt).
Proof. intros w. apply only_invokes_invoke. Qed.

Lemma quiet_for_each {A B : Type} (f : A -> M B) (l : list A) :
  (forall a, quiet (f a)) -> quiet (for_each f l).
Proof.
  intros Hf. induction l as [|x l IH]; simpl; [apply quiet_ret|].
  apply quiet_bind; [apply Hf|]. intros y.
  apply quiet_bind; [apply IH|]. intros ys. apply quiet_ret.
Qed.

Lemma quiet_compress llm query docs :
  quiet (compress_documents ext llm query docs).
Proof.
  induction docs as [|d docs IH]; simpl; [apply quiet_ret|].
  apply quiet_bind; [apply quiet_invoke|]. intros reply.
  apply quiet_bind; [apply IH|]. intros rest.
  destruct (extractor_parse ext reply); apply quiet_ret.
Qed.

Lemma quiet_retrieval (r : Retriever) (query : string) :
  quiet (get_relevant_documents ext r query).
Proof.
  revert query. induction r as [vs kw|docs k|rs ws IH|r llm IH|llm r IH|r rr IH]
    using Retriever_induction; intros query; simpl.
  - apply quiet_lift.
  - apply quiet_lift.
  - apply quiet_bind; [|intros; apply quiet_ret].
    induction IH as [|r rs Hr _ IHrs]; [apply quiet_ret|].
    apply quiet_bind; [apply Hr|]. intros docs.
    apply quiet_bind; [apply IHrs|]. intros rest. apply quiet_ret.
  - apply quiet_bind; [apply quiet_invoke|]. intros reply.
    apply quiet_bind; [by apply quiet_for_each|]. intros. apply quiet_ret.
  - apply quiet_bind; [apply IH|]. intros docs. apply quiet_compress.
  - apply quiet_bind; [apply IH|]. intros docs. apply quiet_ret.
Qed.

(** X6.  Retrieval, through any retriever, leaves the process as it
    was except for the generation-backend calls it logs: it builds no
    chat model, creates no factory, and touches neither the caches,
    the clock nor the default provider; the calls made before it stay
    in the log.  The same holds for [test_retriever], which never
    raises and reports exactly whether the retrieval succeeded. *)
Theorem retrieval_only_invokes (r : Retriever) (query : string) (w : World) :
  only_invokes w (snd (get_relevant_documents ext r query w))
  /\ only_invokes w (snd (RetrieverFactory.test_retriever ext r query w))
  /\ fst (RetrieverFactory.test_retriever ext r query w)
     = Ok (match fst (get_relevant_documents ext r query w) with
           | Ok _ => true
           | Raise _ => false
           end).
Proof.
  pose proof (quiet_retrieval r query w) as Hq.
  split; [exact Hq|].
  unfold RetrieverFactory.test_retriever, try_except, mbind, M_bind.
  by destruct (get_relevant_documents ext r query w) as [[docs|e] w1].
Qed.

End Frames.

Section Steady.

Context (ext : External).

Lemma steady_refl f0 w : steady f0 w w.
Proof. split; [tauto|]. split; [lia|]. split; done. Qed.

Lemma steady_trans f0 w1 w2 w3 :
  steady f0 w1 w2 -> steady f0 w2 w3 -> steady f0 w1 w3.
Proof.
  intros (Hkeep1 & ? & ? & ?) (Hkeep2 & ? & ? & ?).
  split; [|split; [lia|split; [congruence|by etrans]]].
  intros Hf Hm Ha. destruct (Hkeep1 Hf Hm Ha).
  apply Hkeep2; [lia|done|done].
Qed.

Lemma settled_parts_same w w' :
  llm_factories w' = llm_factories w ->
  next_factory w' = next_factory w ->
  built w' = built w ->
  memoized w -> allocated w -> memoized w' /\ allocated w'.
Proof.
  intros Hf Hn Hb Hm Ha.
  assert (Hcons : forall f p, constructions w' f p = constructions w f p)
    by (intros; unfold constructions; by rewrite Hb).
  assert (Hllms : forall f, llms_of w' f = llms_of w f)
    by (intros; unfold llms_of; by rewrite Hf).
  split.
  - intros f p. rewrite Hcons, Hllms. apply Hm.
  - intros f Hle. rewrite Hn in Hle. rewrite Hf. split; [by apply Ha|].
    intros p. rewrite Hcons. by apply Ha.
Qed.

Lemma steady_same f0 w w' :
  llm_factories w' = llm_factories w ->
  next_factory w' = next_factory w ->
  built w' = built w ->
  current_provider w' = current_provider w ->
  invoked w `prefix_of` invoked w' ->
  steady f0 w w'.
Proof.
  intros Hf Hn Hb Hc Hi.
  split; [|split; [lia|done]].
  intros _. by apply settled_parts_same.
Qed.

Lemma only_invokes_steady f0 w w' : only_invokes w w' -> steady f0 w w'.
Proof. intros (? & ? & ? & ? & ? & ? & ?). by apply steady_same. Qed.

Lemma orderly_ret {A : Type} f0 (a : A) : orderly f0 (mret a : M A).
Proof. intros w. apply steady_refl. Qed.

Lemma orderly_lift {A : Type} f0 (r : result A) : orderly f0 (lift r).
Proof. intros w. apply steady_refl. Qed.

Lemma orderly_raise {A : Type} f0 (e : string) : orderly f0 (raise e : M A).
Proof. intros w. apply steady_refl. Qed.

Lemma orderly_get_world f0 : orderly f0 get_world.
Proof. intros w. apply steady_refl. Qed.

Lemma orderly_bind {A B : Type} f0 (m : M A) (f : A -> M B) :
  orderly f0 m -> (forall a, orderly f0 (f a)) -> orderly f0 (m ≫= f).
Proof.
  intros Hm Hf w. specialize (Hm w). unfold mbind, M_bind.
  destruct (m w) as [[a|e] w1]; [|done]. simpl in Hm.
  eapply steady_trans; [exact Hm|]. apply Hf.
Qed.

Lemma orderly_try_except {A : Type} f0 (m : M A) (h : string -> M A) :
  orderly f0 m -> (forall e, orderly f0 (h e)) -> orderly f0 (try_except m h).
Proof.
  intros Hm Hh w. specialize (Hm w). unfold try_except.
  destruct (m w) as [[a|e] w1]; [done|]. simpl in Hm.
  eapply steady_trans; [exact Hm|]. apply Hh.
Qed.

Lemma orderly_quiet {A : Type} f0 (m : M A) : quiet m -> orderly f0 m.
Proof. intros Hq w. apply only_invokes_steady, Hq. Qed.

Lemma orderly_time f0 : orderly f0 (time_time ext).
Proof. intros w. by apply steady_same. Qed.

Lemma orderly_store_embeddings f0 e : orderly f0 (modify (store_embeddings e)).
Proof. intros w. by apply steady_same. Qed.

Lemma new_factory_settled_parts w :
  memoized w -> allocated w ->
  memoized (new_factory w) /\ allocated (new_factory w).
Proof.
  intros Hm Ha. split.
  - intros f p. change (constructions (new_factory w) f p)
      with (constructions w f p).
    split; [apply Hm|]. intros Hc.
    destruct (decide (f = next_factory w)) as [->|Hne].
    + by apply Ha.
    + destruct (Hm f p) as [_ Hz]. apply Hz.
      revert Hc. unfold llms_of. simpl. by rewrite lookup_insert_ne.
  - intros f Hle. simpl in Hle. split.
    + simpl. rewrite lookup_insert_ne by lia. apply Ha. lia.
    + intros p. change (constructions (new_factory w) f p)
        with (constructions w f p). apply Ha. lia.
Qed.

Lemma steady_new_factory f0 w : steady f0 w (new_factory w).
Proof.
  split; [|split; [simpl; lia|done]].
  intros _. apply new_factory_settled_parts.
Qed.

Lemma orderly_init f0 : orderly f0 LLMFactory.init.
Proof. intros w. apply steady_new_factory. Qed.

Lemma get_llm_settled_parts config self provider w :
  self < next_factory w -> memoized w -> allocated w ->
  let w' := snd (LLMFactory.get_llm ext config self provider w) in
  memoized w' /\ allocated w' /\ next_factory w' = next_factory w.
Proof.
  intros Hself Hm Ha.
  destruct (get_llm_cases ext config self provider w)
    as [(llm & _ & H)|[(e & _ & H)|(model & Hc & _ & _ & H)]];
    rewrite H; simpl; try done.
  set (name := optstr_or provider (llm_provider config)) in *.
  set (llm := {| llm_id := length (built w); llm_model := model |}) in *.
  split; [|split; [|done]].
  - eapply (get_llm_memoized ext config self provider w); [done|exact H].
  - intros f Hle. simpl in Hle. split.
    + simpl. rewrite lookup_insert_ne by lia. by apply Ha.
    + intros p.
      change (constructions
                (store_llm self name llm (log_built self name llm w)) f p)
        with (constructions (log_built self name llm w) f p).
      rewrite constructions_log_built.
      rewrite decide_False by (intros [? _]; lia).
      rewrite (proj2 (Ha f Hle) p). done.
Qed.

Lemma get_llm_next_factory config self provider w :
  next_factory (snd (LLMFactory.get_llm ext config self provider w))
  = next_factory w.
Proof.
  destruct (get_llm_cases ext config self provider w)
    as [(llm & _ & H)|[(e & _ & H)|(model & Hc & _ & _ & H)]];
    by rewrite H.
Qed.

Lemma steady_get_llm config self provider f0 w :
  self <= f0 ->
  steady f0 w (snd (LLMFactory.get_llm ext config self provider w)).
Proof.
  intros Hle.
  destruct (LLMFactory.get_llm ext config self provider w) as [r w'] eqn:Hget.
  pose proof (get_llm_current_provider ext config self provider w r w' Hget)
    as [Hcur Hinv].
  pose proof (get_llm_next_factory config self provider w) as Hn.
  rewrite Hget in Hn. simpl in *.
  split; [|split; [lia|split; [done|by rewrite Hinv]]].
  intros Hf Hm Ha.
  pose proof (get_llm_settled_parts config self provider w ltac:(lia) Hm Ha)
    as H.
  rewrite Hget in H. simpl in H. tauto.
Qed.

Lemma orderly_get_llm config self provider f0 :
  self <= f0 -> orderly f0 (LLMFactory.get_llm ext config self provider).
Proof. intros Hle w. by apply steady_get_llm. Qed.

Lemma orderly_get_embeddings config provider f0 :
  orderly f0 (EmbeddingFactory.get_embeddings ext config provider).
Proof.
  unfold EmbeddingFactory.get_embeddings.
  apply orderly_bind; [apply orderly_get_world|]. intros w0.
  destruct (embeddings_cache w0); [apply orderly_ret|].
  apply orderly_bind; [apply orderly_lift|]. intros e.
  destruct (embeddings_init ext e); [apply orderly_raise|].
  apply orderly_bind; [apply orderly_store_embeddings|]. intros _.
  apply orderly_ret.
Qed.

(** A retriever builder that makes an [LLMFactory] of its own. *)
Lemma orderly_with_fresh_llm {A : Type} config f0 (k : LLM -> M A) :
  (forall llm, orderly f0 (k llm)) ->
  orderly f0 (llm_factory ← LLMFactory.init;
              llm ← LLMFactory.get_llm ext config llm_factory None;
              k llm).
Proof.
  intros Hk w. unfold mbind at 1. unfold M_bind at 1.
  unfold LLMFactory.init at 1.
  pose proof (get_llm_current_provider ext config (next_factory w) None
                (new_factory w)) as Hcur.
  pose proof (get_llm_next_factory config (next_factory w) None
                (new_factory w)) as Hn.
  pose proof (get_llm_settled_parts config (next_factory w) None
                (new_factory w)) as Hparts.
  unfold mbind, M_bind.
  destruct (LLMFactory.get_llm ext config (next_factory w) None
              (new_factory w)) as [r w1].
  destruct (Hcur r w1 eq_refl) as [Hc Hi]. simpl in *.
  assert (Hstep : steady f0 w w1).
  { split; [|split; [lia|split; [done|by rewrite Hi]]].
    intros _ Hm Ha.
    destruct (new_factory_settled_parts w Hm Ha) as [Hm' Ha'].
    destruct (Hparts ltac:(lia) Hm' Ha') as (? & ? & _). done. }
  destruct r as [llm|e]; [|exact Hstep].
  eapply steady_trans; [exact Hstep|]. apply Hk.
Qed.

Lemma orderly_create_retriever config vs mode kw f0 :
  orderly f0 (RetrieverFactory.create_retriever ext config vs mode kw).
Proof.
  unfold RetrieverFactory.create_retriever.
  repeat case_match; try apply orderly_lift.
  - unfold RetrieverFactory._create_multi_query_retriever.
    apply orderly_try_except; [|intros; apply orderly_lift].
    apply orderly_with_fresh_llm. intros. apply orderly_ret.
  - unfold RetrieverFactory._create_contextual_compression_retriever.
    apply orderly_try_except; [|intros; apply orderly_lift].
    apply orderly_with_fresh_llm. intros. apply orderly_ret.
Qed.

Lemma orderly_components self notebook_id top_k llm_provider :
  orderly (LangChainRAGPipeline.llm_factory self)
    (LangChainRAGPipeline.components ext self notebook_id top_k llm_provider).
Proof.
  unfold LangChainRAGPipeline.components.
  apply orderly_bind; [by apply orderly_get_llm|]. intros llm.
  apply orderly_bind; [apply orderly_get_embeddings|]. intros emb.
  apply orderly_bind; [apply orderly_lift|]. intros vs.
  apply orderly_bind; [apply orderly_create_retriever|]. intros r.
  apply orderly_ret.
Qed.

Lemma orderly_retrieval f0 r query :
  orderly f0 (get_relevant_documents ext r query).
Proof. apply orderly_quiet, quiet_retrieval. Qed.

Lemma orderly_invoke f0 llm prompt : orderly f0 (invoke ext llm prompt).
Proof. apply orderly_quiet, quiet_invoke. Qed.

Lemma orderly_error_response f0 question provider start_time e :
  orderly f0
    (LangChainRAGPipeline.error_response ext question provider start_time e).
Proof.
  unfold LangChainRAGPipeline.error_response.
  apply orderly_bind; [apply orderly_get_world|]. intros w0.
  apply orderly_bind; [apply orderly_time|]. intros t. apply orderly_ret.
Qed.

Lemma orderly_query_body self question notebook_id top_k provider start_time :
  orderly (LangChainRAGPipeline.llm_factory self)
    (LangChainRAGPipeline.query_body ext self question notebook_id top_k
       provider start_time).
Proof.
  unfold LangChainRAGPipeline.query_body.
  apply orderly_bind; [apply orderly_get_world|]. intros w0.
  apply orderly_bind; [apply orderly_components|]. intros [llm r].
  apply orderly_bind; [apply orderly_retrieval|]. intros docs.
  destruct docs.
  - apply orderly_bind; [apply orderly_time|]. intros t1.
    apply orderly_bind; [apply orderly_time|]. intros t2. apply orderly_ret.
  - apply orderly_bind; [apply orderly_time|]. intros t1.
    apply orderly_bind; [apply orderly_invoke|]. intros answer.
    apply orderly_bind; [apply orderly_time|]. intros t2. apply orderly_ret.
Qed.

Lemma orderly_query self question notebook_id top_k provider :
  orderly (LangChainRAGPipeline.llm_factory self)
    (LangChainRAGPipeline.query ext self question notebook_id top_k provider).
Proof.
  unfold LangChainRAGPipeline.query.
  apply orderly_bind; [apply orderly_time|]. intros start_time.
  apply orderly_try_except; [apply orderly_query_body|].
  intros e. apply orderly_error_response.
Qed.

Lemma orderly_rewrite f0 question history llm :
  orderly f0
    (LangChainRAGPipeline._rewrite_question_with_history ext question history
       llm).
Proof.
  unfold LangChainRAGPipeline._rewrite_question_with_history.
  destruct history; [apply orderly_ret|].
  apply orderly_try_except; [|intros; apply orderly_ret].
  apply orderly_bind; [apply orderly_invoke|]. intros. apply orderly_ret.
Qed.

Lemma orderly_answer_with_history f0 llm r question llm_provider history
    start_time :
  orderly f0
    (LangChainRAGPipeline.answer_with_history ext llm r question llm_provider
       history start_time).
Proof.
  unfold LangChainRAGPipeline.answer_with_history.
  apply orderly_bind; [apply orderly_retrieval|]. intros docs.
  destruct docs.
  - unfold LangChainRAGPipeline._empty_response.
    apply orderly_bind; [apply orderly_time|]. intros. apply orderly_ret.
  - apply orderly_bind; [apply orderly_time|]. intros t1.
    apply orderly_bind; [apply orderly_invoke|]. intros answer.
    apply orderly_bind; [apply orderly_time|]. intros t2. apply orderly_ret.
Qed.

Lemma orderly_query_with_history self question notebook_id history top_k
    provider :
  orderly (LangChainRAGPipeline.llm_factory self)
    (LangChainRAGPipeline.query_with_history ext self question notebook_id
       history top_k provider).
Proof.
  unfold LangChainRAGPipeline.query_with_history.
  apply orderly_bind; [apply orderly_time|]. intros start_time.
  apply orderly_try_except; [|intros; apply orderly_error_response].
  apply orderly_bind; [apply orderly_get_world|]. intros w0.
  apply orderly_bind; [apply orderly_components|]. intros [llm r].
  apply orderly_bind.
  { destruct (LangChainRAGPipeline.history_or_empty history);
      [apply orderly_ret|apply orderly_rewrite]. }
  intros question'.
  apply orderly_try_except; [apply orderly_answer_with_history|].
  intros; apply orderly_error_response.
Qed.

Lemma set_provider_settled self provider w :
  settled self w ->
  settled self (snd (LangChainRAGPipeline.set_provider ext self provider w)).
Proof.
  intros (Hm & Ha & Hf).
  pose proof (get_llm_settled_parts (LangChainRAGPipeline.config self)
                (LangChainRAGPipeline.llm_factory self) (Some provider) w
                Hf Hm Ha) as Hparts.
  unfold LangChainRAGPipeline.set_provider, try_except.
  unfold mbind at 1. unfold M_bind at 1.
  destruct (LLMFactory.get_llm _ _ _ _ w) as [[llm|e] w1]; simpl in Hparts;
    destruct Hparts as (Hm1 & Ha1 & Hn1).
  - assert (Hs1 : forall w2,
               llm_factories w2 = llm_factories w1 ->
               next_factory w2 = next_factory w1 ->
               built w2 = built w1 -> settled self w2).
    { intros w2 H1 H2 H3.
      destruct (settled_parts_same w1 w2 H1 H2 H3 Hm1 Ha1).
      split; [done|]. split; [done|]. lia. }
    unfold mbind, M_bind, invoke.
    destruct (llm_reply ext llm (PText "Hello") (length (invoked w1)))
      as [response|e]; [|by apply Hs1].
    destruct (String.eqb response ""); by apply Hs1.
  - simpl. split; [done|]. split; [done|]. lia.
Qed.

End Steady.

Section PipelineInvariants.

Context (ext : External).

Import LangChainRAGPipeline.

(** X7.  Answering a question never changes the default provider, not
    even when the call names another provider or fails, and it
    keeps every earlier generation call in the log. *)
Theorem queries_keep_default_provider
    (self : t) (question notebook_id : string)
    (chat_history : option (list (gmap string string)))
    (top_k : Z) (provider : option string) (w : World) :
  let w1 := snd (query ext self question notebook_id top_k provider w) in
  let w2 :=
    snd (query_with_history ext self question notebook_id chat_history top_k
           provider w) in
  current_provider w1 = current_provider w
  /\ current_provider w2 = current_provider w
  /\ invoked w `prefix_of` invoked w1
  /\ invoked w `prefix_of` invoked w2.
Proof.
  destruct (orderly_query ext self question notebook_id top_k provider w)
    as (_ & _ & H1 & H2).
  destruct (orderly_query_with_history ext self question notebook_id
              chat_history top_k provider w) as (_ & _ & H3 & H4).
  done.
Qed.

(** X8.  The state a pipeline object lives in is an invariant of its
    operations: after [query], [query_with_history] or [set_provider]
    the pipeline's factory still exists, every factory has built at
    most one chat model per provider name and none that it does not
    cache, and no address beyond the allocated ones is in use,
    including the factories the retriever builders create on the
    way. *)
Theorem pipeline_operations_keep_settled
    (self : t) (question notebook_id : string)
    (chat_history : option (list (gmap string string)))
    (top_k : Z) (provider : option string) (name : string) (w : World) :
  settled self w ->
  settled self (snd (query ext self question notebook_id top_k provider w))
  /\ settled self
       (snd (query_with_history ext self question notebook_id chat_history
               top_k provider w))
  /\ settled self (snd (set_provider ext self name w)).
Proof.
  intros Hs. pose proof Hs as (Hm & Ha & Hf).
  split; [|split].
  - destruct (orderly_query ext self question notebook_id top_k provider w)
      as (H & Hn & _).
    destruct (H Hf Hm Ha). split; [done|]. split; [done|]. lia.
  - destruct (orderly_query_with_history ext self question notebook_id
                chat_history top_k provider w) as (H & Hn & _).
    destruct (H Hf Hm Ha). split; [done|]. split; [done|]. lia.
  - by apply set_provider_settled.
Qed.

(** X9.  Constructing a pipeline in a well-formed process always
    succeeds and yields an object in its settled state: a factory of
    its own with an empty cache, and the configured provider as the
    default. *)
Theorem init_settles (cfg : AppConfig) (w : World) :
  memoized w -> allocated w ->
  exists self w',
    init cfg w = (Ok self, w')
    /\ config self = cfg
    /\ settled self w'
    /\ llms_of w' (llm_factory self) = ∅
    /\ current_provider w' = llm_provider cfg
    /\ invoked w' = invoked w.
Proof.
  intros Hm Ha. eexists _, _. split; [reflexivity|]. split; [done|].
  destruct (new_factory_settled_parts w Hm Ha) as [Hm' Ha'].
  split.
  - destruct (settled_parts_same (new_factory w)
                (store_current_provider (llm_provider cfg) (new_factory w))
                eq_refl eq_refl eq_refl Hm' Ha').
    split; [done|]. split; [done|]. simpl. lia.
  - split; [|done]. unfold llms_of. simpl. by rewrite lookup_insert_eq.
Qed.

End PipelineInvariants.

Lemma pipeline_operations_keep_settled_witness :
  let self := Sample.pipeline Sample.default_config in
  let w := Sample.started Sample.default_config in
  settled self
    (snd (LangChainRAGPipeline.query Sample.ext self "capital of France?"
            "nb1" 5%Z None w))
  /\ settled self
       (snd (LangChainRAGPipeline.query_with_history Sample.ext self
               "capital of France?" "nb1" None 5%Z None w))
  /\ settled self
       (snd (LangChainRAGPipeline.set_provider Sample.ext self "deepseek" w)).
Proof.
  intros self w.
  apply (pipeline_operations_keep_settled Sample.ext self "capital of France?"
           "nb1" None 5%Z None "deepseek" w).
  split; [|split].
  - intros f p. unfold constructions. simpl. split; [lia|done].
  - intros f Hle. simpl in Hle. split.
    + simpl. rewrite lookup_insert_ne by lia. done.
    + intros p. unfold constructions. done.
  - simpl. lia.
Defined.

Lemma init_settles_witness :
  memoized Sample.boot /\ allocated Sample.boot
  /\ exists self w',
       LangChainRAGPipeline.init Sample.default_config Sample.boot
       = (Ok self, w')
       /\ LangChainRAGPipeline.config self = Sample.default_config
       /\ settled self w'
       /\ llms_of w' (LangChainRAGPipeline.llm_factory self) = ∅
       /\ current_provider w' = llm_provider Sample.default_config
       /\ invoked w' = invoked Sample.boot.
Proof.
  assert (Hm : memoized Sample.boot).
  { intros f p. unfold constructions. simpl. split; [lia|done]. }
  assert (Ha : allocated Sample.boot).
  { intros f _. split; [done|]. intros p. unfold constructions. done. }
  split; [exact Hm|]. split; [exact Ha|].
  apply (init_settles Sample.default_config Sample.boot Hm Ha).
Defined.

(* ===================================================================== *)
(** * What the pipeline and the factories report *)
(* ===================================================================== *)

Section QueryReports.

Context (ext : External).

Import LangChainRAGPipeline.

Lemma error_response_reported q requested start_time e w :
  exists res,
    fst (error_response ext q requested start_time e w) = Ok res
    /\ question_of res = q
    /\ provider (meta res) = optstr_or requested (current_provider w)
    /\ well_reported res.
Proof. eexists. split; [reflexivity|]. by repeat split. Qed.

Lemma query_body_reported self q notebook_id top_k requested start_time w res
    w' :
  query_body ext self q notebook_id top_k requested start_time w
  = (Ok res, w') ->
  question_of res = q
  /\ provider (meta res) = optstr_or requested (current_provider w)
  /\ well_reported res.
Proof.
  unfold query_body. unfold mbind, M_bind, get_world.
  destruct (components ext self notebook_id top_k _ w) as [[[llm r]|e] w1];
    [|done].
  destruct (get_relevant_documents ext r q w1) as [[docs|e] w2]; [|done].
  destruct docs as [|d docs].
  - intros [= <- <-]. by repeat split.
  - unfold time_time, invoke. simpl.
    destruct (llm_reply ext llm _ _) as [a|e]; [|done].
    intros [= <- <-]. repeat split.
    unfold well_reported, _format_sources.
    cbn [error meta sources retrieved_docs length].
    by rewrite length_map.
Qed.



End QueryReports.

Section RetrieverMore.

Context (ext : External) (config : AppConfig).

(** The outcome of [create_retriever] by cases: where the vector
    builder is reached it is that builder's outcome, elsewhere a
    retriever without reranker. *)
Lemma create_retriever_cases
    (vs : VectorStore) (mode : option string)
    (kw : option (gmap string Z)) (w : World) :
  let kw' := RetrieverFactory.kwargs_or_default config kw in
  let made := RetrieverFactory.create_retriever ext config vs mode kw w in
  (reaches_vector_builder ext config vs
     (optstr_or mode (retriever_type config)) w
   /\ fst made = RetrieverFactory._create_vector_retriever config vs kw')
  \/ (~ reaches_vector_builder ext config vs
        (optstr_or mode (retriever_type config)) w
      /\ exists r, fst made = Ok r /\ plain_retriever vs kw' r
                   /\ r <> VectorStoreRetriever vs kw').
Proof.
  intros kw' made. subst made.
  unfold RetrieverFactory.create_retriever, reaches_vector_builder.
  fold kw'. set (name := optstr_or mode (retriever_type config)).
  assert (Hfresh : forall (k : LLM -> Retriever),
    let made :=
      try_except
        (llm_factory ← LLMFactory.init;
         llm ← LLMFactory.get_llm ext config llm_factory None;
         mret (k llm))
        (fun _ =>
           lift (RetrieverFactory._create_vector_retriever config vs kw')) w
    in
    ((exists e,
         fst (LLMFactory.get_llm ext config (next_factory w) None
                (new_factory w)) = Raise e)
     /\ fst made = RetrieverFactory._create_vector_retriever config vs kw')
    \/ (~ (exists e,
             fst (LLMFactory.get_llm ext config (next_factory w) None
                    (new_factory w)) = Raise e)
        /\ exists llm, fst made = Ok (k llm))).
  { intros k. simpl. unfold try_except, mbind, M_bind, LLMFactory.init.
    destruct (LLMFactory.get_llm ext config (next_factory w) None
                (new_factory w)) as [[llm|e] w1]; simpl.
    - right. split; [by intros (e & He)|]. by exists llm.
    - left. split; [by exists e|done]. }
  destruct (String.eqb name "vector"); [by left|].
  destruct (String.eqb name "bm25") eqn:Ebm.
  { simpl. destruct (bm25_unavailable ext vs) eqn:E.
    - left. split; [done|]. simpl. by apply bm25_fallback.
    - right. split; [done|].
      destruct (bm25_built ext config vs kw' E) as (docs & Hb).
      eexists. split; [simpl; exact Hb|]. split; [|done].
      right. left. eauto. }
  destruct (String.eqb name "hybrid") eqn:Ehy.
  { simpl. destruct (bm25_unavailable ext vs) eqn:E.
    - left. split; [done|]. simpl. by apply hybrid_fallback.
    - right. split; [done|].
      destruct (hybrid_built ext config vs kw' E) as (docs & _ & Hh).
      eexists. split; [simpl; exact Hh|]. split; [|done].
      right. right. left. eauto. }
  destruct (String.eqb name "multi_query") eqn:Emq.
  { simpl. unfold RetrieverFactory._create_multi_query_retriever. fold kw'.
    destruct (Hfresh (MultiQueryRetriever (VectorStoreRetriever vs kw')))
      as [[Hraise Heq]|[Hok (llm & Heq)]]; [by left|].
    right. split; [done|]. eexists. split; [exact Heq|]. split; [|done].
    right. right. right. left. eauto. }
  destruct (String.eqb name "contextual_compression") eqn:Ecc.
  { simpl. unfold RetrieverFactory._create_contextual_compression_retriever.
    fold kw'.
    destruct (Hfresh (fun llm =>
                ContextualCompressionRetriever llm
                  (VectorStoreRetriever vs kw')))
      as [[Hraise Heq]|[Hok (llm & Heq)]]; [by left|].
    right. split; [done|]. eexists. split; [exact Heq|]. split; [|done].
    right. right. right. right. eauto. }
  by left.
Qed.

(** X11.  A configured reranker never takes part in retrieval: the
    constructor of [RerankedRetriever] raises, so whenever
    [create_retriever] hands over a retriever, it is one without
    reranker (the store's own, a lexical one, the ensemble of the two,
    or a multi-query or compression retriever over the store's); and
    it is the store's own retriever only if no reranker is configured
    and the vector builder was reached. *)
Theorem created_retrievers_never_rerank
    (vs : VectorStore) (mode : option string)
    (kw : option (gmap string Z)) (w : World) (r : Retriever) (w' : World) :
  RetrieverFactory.create_retriever ext config vs mode kw w = (Ok r, w') ->
  let kw' := RetrieverFactory.kwargs_or_default config kw in
  plain_retriever vs kw' r
  /\ (r = VectorStoreRetriever vs kw' ->
      reranking config = false
      /\ reaches_vector_builder ext config vs
           (optstr_or mode (retriever_type config)) w).
Proof.
  intros Hmade kw'.
  destruct (create_retriever_cases vs mode kw w)
    as [[Hreach Heq]|[Hnot (r0 & Heq & Hplain & Hne)]];
    rewrite Hmade in Heq; simpl in Heq.
  - fold kw' in Heq. rewrite vector_retriever_cases in Heq.
    destruct (reranking config); [done|]. injection Heq as ->.
    split; [by left|]. done.
  - injection Heq as ->. split; [done|]. intros Hr. by apply Hne in Hr.
Qed.

(** X12.  [create_retriever] raises one error only, the [ValueError]
    of the [RerankedRetriever] constructor, and it raises it exactly
    when a reranker is configured ([reranker_type] "mmr" or "basic")
    and the vector builder is reached: in vector mode and for every
    unknown mode, in the lexical and hybrid modes when the lexical
    index cannot be built, in the multi_query and
    contextual_compression modes when the chat model cannot be
    obtained.  With no reranker configured it returns a retriever in
    every mode and state. *)
Theorem create_retriever_raises_for_reranker
    (vs : VectorStore) (mode : option string)
    (kw : option (gmap string Z)) (w : World) :
  let made := RetrieverFactory.create_retriever ext config vs mode kw w in
  let reached :=
    reaches_vector_builder ext config vs
      (optstr_or mode (retriever_type config)) w in
  (forall e,
      fst made = Raise e ->
      e = reranked_init_error
      /\ reranking config = true /\ reached)
  /\ (reranking config = true -> reached ->
      fst made = Raise reranked_init_error)
  /\ (reranking config = false -> exists r, fst made = Ok r).
Proof.
  intros made reached.
  destruct (create_retriever_cases vs mode kw w)
    as [[Hreach Heq]|[Hnot (r0 & Heq & _)]];
    fold made in Heq; rewrite Heq.
  - rewrite vector_retriever_cases. split; [|split].
    + intros e. destruct (reranking config); [|done].
      intros [= <-]. done.
    + by intros ->.
    + intros ->. eauto.
  - split; [done|]. split; [|eauto]. intros _ Hreach. by apply Hnot in Hreach.
Qed.

Lemma zip_with_rebuild (docs : list Document) :
  zip_with (fun text md => {| page_content := text; metadata := md |})
    (map page_content docs) (map metadata docs) = docs.
Proof.
  induction docs as [|[text md] docs IH]; simpl; [done|]. by rewrite IH.
Qed.

(** X13.  When the lexical index can be built, the lexical retriever
    indexes exactly the passages the namespace listing returned, each
    with its own text and metadata, and returns [search_kwargs["k"]]
    results, or [top_k_retrieval] when no [k] is given. *)
Theorem bm25_retriever_indexes_the_listing
    (vs : VectorStore) (kw : gmap string Z) (docs : list Document) :
  similarity_search vs "" 10000%Z = Ok docs ->
  bm25_unavailable ext vs = false ->
  RetrieverFactory._create_bm25_retriever ext config vs kw
  = Ok (BM25Retriever docs (default (top_k_retrieval config) (kw !! "k"))).
Proof.
  unfold bm25_unavailable, RetrieverFactory._create_bm25_retriever.
  intros ->. destruct docs as [|d docs]; [done|].
  destruct (bm25_init ext _); [done|]. intros _.
  by rewrite zip_with_rebuild.
Qed.

(** X14.  The embeddings object is built once: after a successful
    request every later request returns the same object and leaves the
    process unchanged, whatever provider name it asks for, supported
    or not. *)
Theorem embeddings_are_built_once
    (p1 p2 : option string) (e : Embeddings) (w w1 : World) :
  EmbeddingFactory.get_embeddings ext config p1 w = (Ok e, w1) ->
  EmbeddingFactory.get_embeddings ext config p2 w1 = (Ok e, w1).
Proof.
  unfold EmbeddingFactory.get_embeddings.
  unfold mbind, M_bind, mret, M_ret, get_world, lift, raise, modify.
  destruct (embeddings_cache w) as [e0|] eqn:Hc.
  - intros [= <- <-]. by rewrite Hc.
  - destruct (EmbeddingFactory._create_embeddings config _) as [e0|msg];
      [|done].
    destruct (embeddings_init ext e0); [done|].
    intros [= <- <-]. done.
Qed.

(** X15.  [LLMFactory.test_provider] is a dry run of the pipeline's
    [set_provider]: on the same state both give the same verdict and
    leave the same process state, except that [set_provider] also
    makes the name the default when the verdict is [True];
    [test_provider] never changes the default. *)
Theorem test_provider_is_dry_run
    (self : LangChainRAGPipeline.t) (name : string) (w : World) :
  let tested :=
    LLMFactory.test_provider ext (LangChainRAGPipeline.config self)
      (LangChainRAGPipeline.llm_factory self) name w in
  let switched := LangChainRAGPipeline.set_provider ext self name w in
  fst switched = fst tested
  /\ current_provider (snd tested) = current_provider w
  /\ snd switched
     = match fst tested with
       | Ok true => store_current_provider name (snd tested)
       | _ => snd tested
       end.
Proof.
  unfold LLMFactory.test_provider, LangChainRAGPipeline.set_provider.
  unfold try_except, mbind, M_bind, invoke, mret, M_ret, modify.
  destruct (LLMFactory.get_llm ext _ _ (Some name) w) as [[llm|e] w1] eqn:Hget;
    pose proof (get_llm_current_provider _ _ _ _ _ _ _ Hget) as [Hcur _];
    [|done].
  destruct (llm_reply ext llm (PText "Hello") (length (invoked w1)))
    as [response|e]; [|done].
  by destruct (String.eqb response "").
Qed.

Lemma available_providers_elem (name : string) :
  name ∈ LLMFactory.get_available_providers config <->
  (name = "openai" /\ openai_api_key config <> "")
  \/ (name = "deepseek" /\ deepseek_api_key config <> "")
  \/ (name = "gemini" /\ gemini_api_key config <> "")
  \/ (name = "doubao" /\ doubao_api_key config <> "").
Proof.
  unfold LLMFactory.get_available_providers.
  rewrite !elem_of_app.
  destruct (String.eqb_spec (openai_api_key config) "");
    destruct (String.eqb_spec (deepseek_api_key config) "");
    destruct (String.eqb_spec (gemini_api_key config) "");
    destruct (String.eqb_spec (doubao_api_key config) "");
    rewrite ?list_elem_of_singleton, ?elem_of_nil; tauto.
Qed.

(** X16.  The providers listed as available are exactly those
    [_create_llm] can construct with a non-empty API key, each listed
    once. *)
Theorem available_providers_have_keys (name : string) :
  (name ∈ LLMFactory.get_available_providers config <->
   exists model,
     LLMFactory._create_llm config name = Ok model
     /\ model_api_key model <> "")
  /\ NoDup (LLMFactory.get_available_providers config).
Proof.
  split.
  - rewrite available_providers_elem. unfold LLMFactory._create_llm. split.
    + intros [[-> ?]|[[-> ?]|[[-> ?]|[-> ?]]]]; simpl;
        eexists; (split; [reflexivity|done]).
    + intros (model & Hm & Hk).
      destruct (String.eqb_spec name "openai") as [->|?];
        [simplify_eq; simpl in Hk; tauto|].
      destruct (String.eqb_spec name "deepseek") as [->|?];
        [simplify_eq; simpl in Hk; tauto|].
      destruct (String.eqb_spec name "gemini") as [->|?];
        [simplify_eq; simpl in Hk; tauto|].
      destruct (String.eqb_spec name "doubao") as [->|?];
        [simplify_eq; simpl in Hk; tauto|].
      done.
  - unfold LLMFactory.get_available_providers.
    destruct (String.eqb (openai_api_key config) "");
      destruct (String.eqb (deepseek_api_key config) "");
      destruct (String.eqb (gemini_api_key config) "");
      destruct (String.eqb (doubao_api_key config) "");
      apply (bool_decide_unpack _); by vm_compute.
Qed.

End RetrieverMore.

Lemma created_retrievers_never_rerank_witness :
  let vs := Sample.store [Sample.paris; Sample.rome] in
  let r :=
    EnsembleRetriever
      [VectorStoreRetriever vs Sample.k5;
       BM25Retriever [Sample.paris; Sample.rome] 5%Z]
      [hybrid_alpha Sample.default_config;
       Float64.sub 1 (hybrid_alpha Sample.default_config)] in
  RetrieverFactory.create_retriever Sample.ext Sample.default_config vs None
    (Some Sample.k5) Sample.boot = (Ok r, Sample.boot)
  /\ plain_retriever vs Sample.k5 r
  /\ (r = VectorStoreRetriever vs Sample.k5 ->
      reranking Sample.default_config = false
      /\ reaches_vector_builder Sample.ext Sample.default_config vs
           (optstr_or None (retriever_type Sample.default_config))
           Sample.boot).
Proof.
  intros vs r.
  assert (Hmade : RetrieverFactory.create_retriever Sample.ext
                    Sample.default_config vs None (Some Sample.k5)
                    Sample.boot = (Ok r, Sample.boot))
    by reflexivity.
  split; [exact Hmade|].
  exact (created_retrievers_never_rerank Sample.ext Sample.default_config vs
           None (Some Sample.k5) Sample.boot r Sample.boot Hmade).
Defined.

Lemma bm25_retriever_indexes_the_listing_witness :
  RetrieverFactory._create_bm25_retriever Sample.ext Sample.default_config
    (Sample.store [Sample.paris; Sample.rome]) Sample.k5
  = Ok (BM25Retriever [Sample.paris; Sample.rome] 5%Z).
Proof.
  apply (bm25_retriever_indexes_the_listing Sample.ext Sample.default_config
           (Sample.store [Sample.paris; Sample.rome]) Sample.k5
           [Sample.paris; Sample.rome]).
  - reflexivity.
  - reflexivity.
Defined.

Lemma embeddings_are_built_once_witness :
  let e := OpenAIEmbeddings "text-embedding-3-large" "sk-test"
             "https://api.openai.com/v1" 1000%Z 3%Z in
  let w1 := store_embeddings e Sample.boot in
  EmbeddingFactory.get_embeddings Sample.ext Sample.default_config None
    Sample.boot = (Ok e, w1)
  /\ EmbeddingFactory.get_embeddings Sample.ext Sample.default_config
       (Some "no-such-provider") w1 = (Ok e, w1).
Proof.
  intros e w1. split; [reflexivity|].
  apply (embeddings_are_built_once Sample.ext Sample.default_config None
           (Some "no-such-provider") e Sample.boot w1).
  reflexivity.
Defined.

Section History.

Context (ext : External).

Import LangChainRAGPipeline.

Lemma format_chat_history_recent (old recent : list (gmap string string)) :
  5 <= length recent ->
  _format_chat_history (old ++ recent) = _format_chat_history recent.
Proof.
  intros Hlen. unfold _format_chat_history.
  assert (Hdrop : drop (length (old ++ recent) - 5) (old ++ recent)
                  = drop (length recent - 5) recent).
  { rewrite length_app.
    replace (length old + length recent - 5)
      with (length old + (length recent - 5)) by lia.
    by rewrite drop_app_add. }
  rewrite Hdrop.
  destruct recent as [|r rs]; [simpl in Hlen; lia|].
  by destruct old.
Qed.

Lemma query_with_history_format self q notebook_id
    (h1 h2 : list (gmap string string)) top_k requested w :
  h1 <> [] -> h2 <> [] ->
  _format_chat_history h1 = _format_chat_history h2 ->
  query_with_history ext self q notebook_id (Some h1) top_k requested w
  = query_with_history ext self q notebook_id (Some h2) top_k requested w.
Proof.
  intros H1 H2 Hfmt.
  destruct h1 as [|g1 l1]; [done|]. destruct h2 as [|g2 l2]; [done|].
  unfold query_with_history, _rewrite_question_with_history,
    answer_with_history, history_or_empty.
  unfold from_option, id. cbv beta iota.
  rewrite Hfmt. reflexivity.
Qed.

(** X17.  Only the last five turns of the conversation count: a
    history of five or more turns gives, from the same state, the same
    result and the same final state as that history with any number of
    older turns put in front of it. *)
Theorem only_last_five_turns_count
    (self : t) (q notebook_id : string)
    (old recent : list (gmap string string))
    (top_k : Z) (requested : option string) (w : World) :
  5 <= length recent ->
  query_with_history ext self q notebook_id (Some (old ++ recent)) top_k
    requested w
  = query_with_history ext self q notebook_id (Some recent) top_k requested w.
Proof.
  intros Hlen. apply query_with_history_format.
  - destruct recent; [simpl in Hlen; lia|]. by destruct old.
  - destruct recent; [simpl in Hlen; lia|done].
  - by apply format_chat_history_recent.
Qed.

(** X18.  A successful switch takes effect at once: when
    [set_provider] returns [True], the chat model for the new name is
    already in the pipeline's factory, and the next [query] that names
    no provider reports the new name. *)
Theorem switched_provider_serves_next_query
    (self : t) (name q notebook_id : string) (top_k : Z) (w w' : World) :
  set_provider ext self name w = (Ok true, w') ->
  (exists llm,
      LLMFactory.get_llm ext (config self) (llm_factory self) (Some name) w'
      = (Ok llm, w'))
  /\ exists res,
       fst (query ext self q notebook_id top_k None w') = Ok res
       /\ provider (meta res) = name.
Proof.
  intros Hset.
  assert (Hcur : current_provider w' = name
                 /\ exists llm,
                      LLMFactory.get_llm ext (config self) (llm_factory self)
                        (Some name) w' = (Ok llm, w')).
  { revert Hset. unfold set_provider, try_except.
    unfold mbind at 1. unfold M_bind at 1.
    destruct (LLMFactory.get_llm ext _ _ (Some name) w) as [[llm|e] w1]
      eqn:Hget; [|done].
    apply get_llm_again in Hget as [Hc Hagain].
    unfold mbind, M_bind, invoke, mret, M_ret, modify.
    destruct (llm_reply ext llm (PText "Hello") (length (invoked w1)))
      as [response|e]; [|done].
    destruct (String.eqb response ""); [done|].
    intros [= <-]. split; [done|]. exists llm.
    destruct (get_llm_cases ext (config self) (llm_factory self) (Some name)
                (store_current_provider name (log_invoke llm (PText "Hello")
                                                w1)))
      as [(llm' & Hc' & H)|[(e & Hc' & _)|(model & Hc' & _)]].
    - rewrite H. f_equal. f_equal.
      change (llms_of (store_current_provider name
                         (log_invoke llm (PText "Hello") w1))
                (llm_factory self))
        with (llms_of w1 (llm_factory self)) in Hc'.
      congruence.
    - change (llms_of (store_current_provider name
                         (log_invoke llm (PText "Hello") w1))
                (llm_factory self))
        with (llms_of w1 (llm_factory self)) in Hc'.
      congruence.
    - change (llms_of (store_current_provider name
                         (log_invoke llm (PText "Hello") w1))
                (llm_factory self))
        with (llms_of w1 (llm_factory self)) in Hc'.
      congruence. }
  destruct Hcur as [Hcur Hcached]. split; [exact Hcached|].
  unfold query. unfold mbind, M_bind, time_time, try_except.
  pose proof (orderly_query_body ext self q notebook_id top_k None
                (wall_clock ext (clock_reads w')) (tick w'))
    as (_ & _ & Hkeep & _).
  destruct (query_body ext self q notebook_id top_k None _ (tick w'))
    as [[res|e] w1] eqn:Hbody.
  - exists res. split; [done|].
    apply query_body_reported in Hbody as (_ & Hp & _).
    rewrite Hp. simpl. unfold optstr_or. exact Hcur.
  - simpl in Hkeep.
    destruct (error_response_reported ext q None
                (wall_clock ext (clock_reads w')) e w1)
      as (res & Hres & _ & Hp & _).
    exists res. split; [done|]. rewrite Hp, Hkeep. exact Hcur.
Qed.

End History.

Lemma only_last_five_turns_count_witness :
  let turn (n : string) : gmap string string :=
    {[ "question" := "question " +:+ n; "answer" := "answer " +:+ n ]} in
  let old := [turn "0"] in
  let recent := [turn "1"; turn "2"; turn "3"; turn "4"; turn "5"] in
  let self := Sample.pipeline Sample.default_config in
  let w := Sample.started Sample.default_config in
  LangChainRAGPipeline.query_with_history Sample.ext self "and Italy?" "nb1"
    (Some (old ++ recent)) 5%Z None w
  = LangChainRAGPipeline.query_with_history Sample.ext self "and Italy?" "nb1"
      (Some recent) 5%Z None w.
Proof.
  intros turn old recent self w.
  apply (only_last_five_turns_count Sample.ext self "and Italy?" "nb1" old
           recent 5%Z None w).
  simpl. lia.
Defined.

Lemma switched_provider_serves_next_query_witness :
  let self := Sample.pipeline Sample.default_config in
  let w := Sample.started Sample.default_config in
  let w' :=
    snd (LangChainRAGPipeline.set_provider Sample.ext self "deepseek" w) in
  LangChainRAGPipeline.set_provider Sample.ext self "deepseek" w
  = (Ok true, w')
  /\ (exists llm,
         LLMFactory.get_llm Sample.ext (LangChainRAGPipeline.config self)
           (LangChainRAGPipeline.llm_factory self) (Some "deepseek") w'
         = (Ok llm, w'))
  /\ exists res,
       fst (LangChainRAGPipeline.query Sample.ext self "capital of France?"
              "nb1" 5%Z None w') = Ok res
       /\ provider (meta res) = "deepseek".
Proof.
  intros self w w'.
  assert (Hset : LangChainRAGPipeline.set_provider Sample.ext self "deepseek" w
                 = (Ok true, w')) by (vm_compute; reflexivity).
  split; [exact Hset|].
  apply (switched_provider_serves_next_query Sample.ext self "deepseek"
           "capital of France?" "nb1" 5%Z w w' Hset).
Defined.

(* ===================================================================== *)
(** * The text chunker and the document loader *)
(* ===================================================================== *)

Section ChunkerFacts.

Import TextChunker.

Context (isspace : N -> bool).

Lemma lstrip_suffix s : lstrip isspace s `suffix_of` s.
Proof.
  induction s as [|c s IH]; simpl; [done|].
  destruct (isspace c); [by apply suffix_cons_r|done].
Qed.

Lemma lstrip_starts_visible s : starts_visible isspace (lstrip isspace s).
Proof.
  induction s as [|c s IH]; simpl; [done|].
  by destruct (isspace c) eqn:Hc.
Qed.

Lemma lstrip_id s : starts_visible isspace s -> lstrip isspace s = s.
Proof. destruct s as [|c s]; simpl; [done|]. by intros ->. Qed.

Lemma lstrip_visible s :
  visible isspace (lstrip isspace s) = visible isspace s.
Proof.
  induction s as [|c s IH]; simpl; [done|].
  destruct (isspace c) eqn:Hc; [|done].
  unfold visible. rewrite (filter_cons_False _ c s); [done|]. by rewrite Hc.
Qed.

Lemma lstrip_snoc l x :
  isspace x = false -> exists l2, lstrip isspace (l ++ [x]) = l2 ++ [x].
Proof.
  intros Hx. induction l as [|c l IH]; simpl.
  - rewrite Hx. by exists [].
  - destruct (isspace c); [done|]. by exists (c :: l).
Qed.

Lemma visible_app a b :
  visible isspace (a ++ b) = visible isspace a ++ visible isspace b.
Proof. apply filter_app. Qed.

Lemma visible_reverse s :
  visible isspace (reverse s) = reverse (visible isspace s).
Proof.
  induction s as [|c s IH]; [done|].
  rewrite reverse_cons, visible_app, IH.
  unfold visible at 2 3. rewrite filter_cons, filter_nil, (filter_cons _ c s).
  destruct (decide (isspace c = false)).
  - by rewrite reverse_cons.
  - by rewrite app_nil_r.
Qed.

Lemma strip_visible s : visible isspace (strip isspace s) = visible isspace s.
Proof.
  unfold strip.
  rewrite visible_reverse, lstrip_visible, visible_reverse, reverse_involutive.
  apply lstrip_visible.
Qed.

Lemma strip_nil_visible s : strip isspace s = [] <-> visible isspace s = [].
Proof.
  split.
  - intros H. by rewrite <- strip_visible, H.
  - intros H. unfold strip.
    pose proof (lstrip_starts_visible (reverse (lstrip isspace s))) as Hsv.
    pose proof (lstrip_visible (reverse (lstrip isspace s))) as Hv.
    rewrite (visible_reverse (lstrip isspace s)), (lstrip_visible s), H in Hv.
    destruct (lstrip isspace (reverse (lstrip isspace s))) as [|c r]; [done|].
    simpl in Hsv. unfold visible in Hv.
    by rewrite filter_cons_True in Hv.
Qed.

Lemma nonblank_visible s :
  nonblank isspace s = true <-> visible isspace s <> [].
Proof.
  unfold nonblank. rewrite <- strip_nil_visible.
  destruct (strip isspace s); [split; [done|congruence]|done].
Qed.

Lemma nonblank_false_visible s :
  nonblank isspace s = false -> visible isspace s = [].
Proof.
  intros H. destruct (decide (visible isspace s = [])) as [|Hne]; [done|].
  apply nonblank_visible in Hne. congruence.
Qed.

Lemma nonblank_app_r a s :
  nonblank isspace s = true -> nonblank isspace (a ++ s) = true.
Proof.
  rewrite !nonblank_visible, visible_app.
  intros Hs Happ. apply app_eq_nil in Happ as [_ ?]. done.
Qed.

Lemma nonblank_strip_ne s : nonblank isspace s = true -> strip isspace s <> [].
Proof. rewrite nonblank_visible, strip_nil_visible. done. Qed.

Lemma strip_idemp s : strip isspace (strip isspace s) = strip isspace s.
Proof.
  unfold strip at 2 3.
  set (a := lstrip isspace s). set (b := lstrip isspace (reverse a)).
  assert (Hb : starts_visible isspace b) by apply lstrip_starts_visible.
  assert (Hrb : starts_visible isspace (reverse b)).
  { pose proof (lstrip_starts_visible s) as Ha. fold a in Ha. subst b.
    destruct a as [|x a']; [done|]. simpl in Ha.
    rewrite reverse_cons.
    destruct (lstrip_snoc (reverse a') x Ha) as (l2 & ->).
    rewrite reverse_app. done. }
  unfold strip.
  rewrite (lstrip_id (reverse b) Hrb), reverse_involutive, (lstrip_id b Hb).
  done.
Qed.

(** ** [_get_overlap_text] *)

Lemma after_first_ending_suffix s rest :
  after_first_ending isspace s = Some rest -> rest `suffix_of` s.
Proof.
  induction s as [|c s IH]; simpl; [done|].
  destruct (is_ending c).
  - intros [= <-]. apply suffix_cons_r, lstrip_suffix.
  - intros H. by apply suffix_cons_r, IH.
Qed.

Lemma after_first_ending_none s :
  Forall (fun c => is_ending c = false) s ->
  after_first_ending isspace s = None.
Proof. induction 1 as [|c s Hc _ IH]; simpl; [done|]. by rewrite Hc. Qed.

Lemma slice_from_suffix {A : Type} (a : Z) (l : list A) :
  slice_from a l `suffix_of` l.
Proof. unfold slice_from. destruct (0 <=? a)%Z; apply suffix_drop. Qed.

(** X19.  The overlap carried into the next chunk is a tail of the
    current chunk; for a positive [overlap_size] it has at most that
    many characters.  For [overlap_size = 0] the slice [text[-0:]] is
    the whole text, so the overlap is not empty: a chunk without a
    sentence ending is carried over entirely. *)
Theorem overlap_text_is_a_bounded_tail (text : list N) (overlap_size : Z) :
  let out := _get_overlap_text isspace text overlap_size in
  out `suffix_of` text
  /\ ((0 < overlap_size)%Z -> (Z.of_nat (length out) <= overlap_size)%Z)
  /\ (overlap_size = 0%Z ->
      Forall (fun c => is_ending c = false) text -> out = text).
Proof.
  unfold _get_overlap_text.
  destruct (Z.leb_spec (Z.of_nat (length text)) overlap_size) as [Hle|Hgt].
  { split; [done|]. split; [lia|done]. }
  set (overlap_text := slice_from (- overlap_size) text).
  assert (Hsuf : overlap_text `suffix_of` text) by apply slice_from_suffix.
  assert (Hlen : (0 < overlap_size)%Z ->
                 (Z.of_nat (length overlap_text) <= overlap_size)%Z).
  { intros Hpos. subst overlap_text. unfold slice_from.
    destruct (Z.leb_spec 0 (- overlap_size)); [lia|].
    rewrite length_drop. lia. }
  destruct (after_first_ending isspace overlap_text) as [rest|] eqn:Hafter.
  - pose proof (after_first_ending_suffix _ _ Hafter) as Hrest.
    split; [by etrans|]. split.
    + intros Hpos. apply suffix_length in Hrest. specialize (Hlen Hpos). lia.
    + intros -> Hall. subst overlap_text. unfold slice_from in Hafter.
      simpl in Hafter.
      rewrite after_first_ending_none in Hafter by done. done.
  - split; [done|]. split; [done|].
    intros -> _. done.
Qed.

(** ** [_split_sentences] *)

Lemma re_split_from_visible skipping piece text :
  visible isspace (concat (re_split_from isspace skipping piece text))
  = visible isspace (piece ++ text).
Proof.
  revert skipping piece.
  induction text as [|c rest IH]; intros skipping piece; simpl.
  - done.
  - destruct (skipping && isspace c) eqn:Hskip.
    + rewrite IH, !visible_app. f_equal.
      apply andb_true_iff in Hskip as [_ Hc].
      unfold visible. rewrite filter_cons_False; [done|]. by rewrite Hc.
    + destruct (is_ending c).
      * simpl. rewrite !visible_app. f_equal.
        change (c :: rest) with ([c] ++ rest).
        change (c :: concat (re_split_from isspace true [] rest))
          with ([c] ++ concat (re_split_from isspace true [] rest)).
        rewrite !visible_app. f_equal. apply (IH true []).
      * rewrite IH, <- app_assoc. done.
Qed.

Lemma re_split_from_odd skipping piece text :
  exists n, length (re_split_from isspace skipping piece text) = 2 * n + 1.
Proof.
  revert skipping piece.
  induction text as [|c rest IH]; intros skipping piece; simpl.
  - by exists 0.
  - destruct (skipping && isspace c); [apply IH|].
    destruct (is_ending c); [|apply IH].
    destruct (IH true []) as (n & Hn). exists (S n). simpl. rewrite Hn. lia.
Qed.

Lemma join_pairs_spec n (l : list (list N)) :
  length l = 2 * n + 1 ->
  exists tail,
    last l = Some tail
    /\ visible isspace (concat (join_pairs isspace l))
       ++ visible isspace tail
       = visible isspace (concat l)
    /\ Forall (fun s => nonblank isspace s = true) (join_pairs isspace l).
Proof.
  revert l. induction n as [|n IH]; intros l Hlen.
  - destruct l as [|t [|e rest]]; simpl in Hlen; try lia.
    exists t. simpl. by rewrite app_nil_r.
  - destruct l as [|t [|e rest]]; simpl in Hlen; try lia.
    destruct (IH rest ltac:(lia)) as (tail & Hlast & Hvis & Hall).
    exists tail. split.
    { destruct rest as [|r rest']; [done|]. exact Hlast. }
    change (join_pairs isspace (t :: e :: rest))
      with ((if nonblank isspace (t ++ e) then [t ++ e] else [])
            ++ join_pairs isspace rest).
    split.
    + rewrite concat_app, visible_app, <- app_assoc, Hvis.
      simpl. rewrite (app_assoc t e), (visible_app (t ++ e)). f_equal.
      destruct (nonblank isspace (t ++ e)) eqn:Hnb; simpl.
      * by rewrite app_nil_r.
      * by rewrite (nonblank_false_visible (t ++ e)).
    + apply Forall_app. split; [|done].
      destruct (nonblank isspace (t ++ e)) eqn:Hnb; [|done].
      by apply Forall_singleton.
Qed.

Lemma split_sentences_spec text :
  Forall (fun s => nonblank isspace s = true) (_split_sentences isspace text)
  /\ visible isspace (concat (_split_sentences isspace text))
     = visible isspace text.
Proof.
  unfold _split_sentences, re_split.
  destruct (re_split_from_odd false [] text) as (n & Hn).
  destruct (join_pairs_spec n _ Hn) as (tail & Hlast & Hvis & Hall).
  rewrite re_split_from_visible in Hvis. simpl in Hvis.
  rewrite Hlast, Hn.
  replace ((2 * n + 1) mod 2 =? 1) with true.
  2:{ symmetry. apply Nat.eqb_eq.
      replace (2 * n + 1) with (1 + n * 2) by lia.
      by rewrite Nat.Div0.mod_add. }
  simpl. destruct (nonblank isspace tail) eqn:Hnb.
  - split.
    + apply Forall_app. split; [done|]. by apply Forall_singleton.
    + rewrite concat_app, visible_app. simpl. rewrite app_nil_r. exact Hvis.
  - split; [done|].
    rewrite (nonblank_false_visible tail Hnb) in Hvis.
    by rewrite app_nil_r in Hvis.
Qed.

(** X20.  Splitting into sentences loses white space only: every
    sentence has a visible character, and the visible characters of the
    sentences, read in order, are those of the text. *)
Theorem split_sentences_keeps_visible_text (text : list N) :
  let sentences := _split_sentences isspace text in
  Forall (fun s => visible isspace s <> []) sentences
  /\ visible isspace (concat sentences) = visible isspace text.
Proof.
  destruct (split_sentences_spec text) as [Hall Hvis].
  split; [|done].
  eapply Forall_impl; [exact Hall|]. intros s. by rewrite nonblank_visible.
Qed.

(** ** [_semantic_chunk] *)

Lemma nonblank_ne s : nonblank isspace s = true -> s <> [].
Proof. by intros H ->. Qed.

Lemma add_sentence_inv self st sentence :
  nonblank isspace sentence = true ->
  chunker_inv isspace st ->
  let st' := add_sentence isspace self st sentence in
  chunker_inv isspace st'
  /\ length (chunks st') + pending st' <= length (chunks st) + pending st + 1.
Proof.
  intros Hs (Hgood & Hcur & Hsize). unfold add_sentence.
  destruct (_ && _) eqn:Hflush; simpl.
  - apply andb_true_iff in Hflush as [_ Hne].
    apply negb_true_iff, bool_decide_eq_false in Hne.
    destruct Hcur as [|Hnb]; [done|].
    split; [split; [|split]|].
    + apply Forall_app. split; [done|]. apply Forall_singleton.
      split; [by apply nonblank_strip_ne|apply strip_idemp].
    + right. by apply nonblank_app_r.
    + done.
    + rewrite length_app. simpl. unfold pending. simpl.
      pose proof (nonblank_ne _ (nonblank_app_r
        (_get_overlap_text isspace (current_chunk st) (chunk_overlap self))
        sentence Hs)) as Hne'.
      destruct (_ ++ sentence); [done|].
      destruct (current_chunk st); [done|]. lia.
  - split; [split; [|split]|].
    + done.
    + right. by apply nonblank_app_r.
    + simpl. rewrite Hsize, length_app. lia.
    + unfold pending. simpl.
      destruct (current_chunk st ++ sentence);
        destruct (current_chunk st); lia.
Qed.

Lemma fold_add_sentence_inv self sentences st :
  Forall (fun s => nonblank isspace s = true) sentences ->
  chunker_inv isspace st ->
  let st' := fold_left (add_sentence isspace self) sentences st in
  chunker_inv isspace st'
  /\ length (chunks st') + pending st'
     <= length (chunks st) + pending st + length sentences.
Proof.
  intros Hall. revert st.
  induction Hall as [|s sentences Hs _ IH]; intros st Hinv; simpl.
  - split; [done|lia].
  - destruct (add_sentence_inv self st s Hs Hinv) as [Hinv' Hcount].
    destruct (IH _ Hinv') as [Hinv'' Hcount'].
    split; [done|]. lia.
Qed.

(** X21.  Semantic chunking yields clean chunks: every chunk is
    non-empty and has no white space at either end, there are at most as
    many chunks as sentences, and a text with no visible character
    yields no chunk. *)
Theorem semantic_chunks_are_clean (self : t) (text : list N) :
  let out := _semantic_chunk isspace self text in
  Forall (fun c => c <> [] /\ strip isspace c = c) out
  /\ length out <= length (_split_sentences isspace text)
  /\ (visible isspace text = [] -> out = []).
Proof.
  unfold _semantic_chunk.
  destruct (split_sentences_spec text) as [Hall Hvis].
  set (sentences := _split_sentences isspace text) in *.
  set (init := {| chunks := []; current_chunk := []; current_size := 0 |}).
  assert (Hinit : chunker_inv isspace init).
  { split; [done|]. split; [by left|done]. }
  destruct (fold_add_sentence_inv self sentences init Hall Hinit)
    as [(Hgood & Hcur & Hsize) Hcount].
  set (st := fold_left (add_sentence isspace self) sentences init) in *.
  simpl in Hcount.
  assert (Hclean :
    Forall (fun c => c <> [] /\ strip isspace c = c)
      (if nonblank isspace (current_chunk st)
       then chunks st ++ [strip isspace (current_chunk st)] else chunks st)
    /\ length (if nonblank isspace (current_chunk st)
               then chunks st ++ [strip isspace (current_chunk st)]
               else chunks st) <= length sentences).
  { destruct (nonblank isspace (current_chunk st)) eqn:Hnb.
    - split.
      + apply Forall_app. split; [done|]. apply Forall_singleton.
        split; [by apply nonblank_strip_ne|apply strip_idemp].
      + rewrite length_app. simpl. unfold pending in Hcount.
        pose proof (nonblank_ne _ Hnb).
        destruct (current_chunk st); [done|]. lia.
    - split; [done|]. lia. }
  destruct Hclean as [Hclean Hlen]. split; [done|]. split; [done|].
  intros Hblank.
  assert (Hnil : sentences = []).
  { rewrite Hblank in Hvis. destruct sentences as [|s rest]; [done|].
    apply Forall_cons in Hall as [Hs _]. apply nonblank_visible in Hs.
    simpl in Hvis. rewrite visible_app in Hvis.
    apply app_eq_nil in Hvis as [? _]. done. }
  subst st. rewrite Hnil. done.
Qed.

Lemma fold_add_sentence_fits self sentences st :
  chunks st = [] ->
  current_size st = Z.of_nat (length (current_chunk st)) ->
  (Z.of_nat (length (current_chunk st ++ concat sentences))
   <= chunk_size self)%Z ->
  let st' := fold_left (add_sentence isspace self) sentences st in
  chunks st' = [] /\ current_chunk st' = current_chunk st ++ concat sentences.
Proof.
  revert st. induction sentences as [|s sentences IH]; intros st Hc Hsize Hfit.
  - simpl. by rewrite app_nil_r.
  - simpl in *. rewrite !length_app in Hfit.
    assert (Hstep : add_sentence isspace self st s
                    = {| chunks := chunks st;
                         current_chunk := current_chunk st ++ s;
                         current_size :=
                           (current_size st + Z.of_nat (length s))%Z |}).
    { unfold add_sentence.
      destruct (Z.ltb_spec (chunk_size self)
                  (current_size st + Z.of_nat (length s))) as [Hlt|_];
        [lia|done]. }
    rewrite Hstep.
    destruct (IH {| chunks := chunks st;
                    current_chunk := current_chunk st ++ s;
                    current_size :=
                      (current_size st + Z.of_nat (length s))%Z |})
      as [Hc' Hcur'].
    + done.
    + simpl. rewrite length_app. lia.
    + simpl. rewrite <- app_assoc, !length_app. lia.
    + split; [done|]. rewrite Hcur'. simpl. by rewrite <- app_assoc.
Qed.

(** X22.  A text whose sentences fit into [chunk_size] together is not
    split: when it has a visible character, the result is the single
    chunk made of its sentences joined and stripped. *)
Theorem short_text_is_one_chunk (self : t) (text : list N) :
  let sentences := _split_sentences isspace text in
  (Z.of_nat (length (concat sentences)) <= chunk_size self)%Z ->
  visible isspace text <> [] ->
  _semantic_chunk isspace self text = [strip isspace (concat sentences)].
Proof.
  intros sentences Hfit Hvis. unfold _semantic_chunk. fold sentences.
  destruct (fold_add_sentence_fits self sentences
              {| chunks := []; current_chunk := []; current_size := 0 |})
    as [Hc Hcur]; [done|done|done|].
  simpl in Hcur. rewrite Hc, Hcur.
  replace (nonblank isspace (concat sentences)) with true; [done|].
  symmetry. apply nonblank_visible.
  destruct (split_sentences_spec text) as [_ Heq]. fold sentences in Heq.
  by rewrite Heq.
Qed.

End ChunkerFacts.

(** X23.  The recommended chunk size exists exactly when
    [target_chunks] is not zero (zero raises [ZeroDivisionError]); it
    lies between 200 and 2000, and for a negative [target_chunks] it is
    200. *)
Theorem optimal_chunk_size_is_clamped (text : list N) (target_chunks : Z) :
  match TextChunker.get_optimal_chunk_size text target_chunks with
  | Ok size =>
      target_chunks <> 0%Z /\ (200 <= size <= 2000)%Z
      /\ ((target_chunks < 0)%Z -> size = 200%Z)
  | Raise _ => target_chunks = 0%Z
  end.
Proof.
  unfold TextChunker.get_optimal_chunk_size.
  destruct (Z.eqb_spec target_chunks 0) as [->|Hne]; [done|].
  split; [done|]. split; [lia|].
  intros Hneg.
  pose proof (Z.mod_neg_bound (Z.of_nat (length text)) target_chunks Hneg).
  pose proof (Z.div_mod (Z.of_nat (length text)) target_chunks Hne).
  assert (Z.of_nat (length text) / target_chunks <= 0)%Z by nia.
  lia.
Qed.

Lemma short_text_is_one_chunk_witness :
  let isspace := fun c : N => (c =? 32)%N in
  let self := {| TextChunker.chunk_size := 100%Z;
                 TextChunker.chunk_overlap := 10%Z |} in
  let text := [72; 105; 46; 32; 89; 111]%N in
  TextChunker._semantic_chunk isspace self text
  = [[72; 105; 46; 89; 111]%N].
Proof.
  intros isspace self text.
  apply (short_text_is_one_chunk isspace self text).
  - vm_compute. discriminate.
  - vm_compute. discriminate.
Defined.

Section LoaderFacts.

Import DocumentLoader.

Context {V : Type} (truthy : V -> bool).
Context (b64decode : string -> result string)
        (lower : string -> string)
        (decode_utf8 : string -> result string)
        (_load_pdf_from_bytes _load_docx_from_bytes load_from_text
           : string -> option (gmap string V) -> result (list Document)).

(** X24.  [load_from_base64] called without metadata (the default)
    loads nothing but PDFs: for every other file type the lookup
    [metadata.get('isPDF')] fails on [None], and the call raises a
    [ValueError] that wraps the failure (of that lookup, or of the
    base64 decoding before it). *)
Theorem load_from_base64_needs_metadata (base64_content file_type : string) :
  lower file_type <> "pdf" ->
  exists e,
    load_from_base64 truthy b64decode lower decode_utf8 _load_pdf_from_bytes
      _load_docx_from_bytes load_from_text base64_content file_type None
    = Raise ("Failed to load document from base64: " +:+ e)
    /\ (forall content_bytes,
           b64decode base64_content = Ok content_bytes ->
           e = "'NoneType' object has no attribute 'get'").
Proof.
  intros Hne. unfold load_from_base64, load_from_base64_body.
  destruct (b64decode base64_content) as [content_bytes|e].
  - destruct (String.eqb_spec (lower file_type) "pdf") as [|_]; [done|].
    simpl. eexists. split; [reflexivity|]. done.
  - exists e. split; [reflexivity|]. done.
Qed.

(** X25.  With metadata given, the [isPDF] flag overrides the file
    type: when it is truthy the content goes to the PDF loader
    whatever [file_type] says, also for "docx" and text. *)
Theorem isPDF_flag_overrides_file_type
    (base64_content file_type content_bytes : string)
    (md : gmap string V) (v : V) :
  b64decode base64_content = Ok content_bytes ->
  md !! "isPDF" = Some v -> truthy v = true ->
  load_from_base64_body truthy b64decode lower decode_utf8
    _load_pdf_from_bytes _load_docx_from_bytes load_from_text base64_content
    file_type (Some md)
  = _load_pdf_from_bytes content_bytes (Some md).
Proof.
  intros Hdec Hmd Hv. unfold load_from_base64_body, get_isPDF.
  rewrite Hdec, Hmd, Hv. by destruct (String.eqb (lower file_type) "pdf").
Qed.

End LoaderFacts.

Lemma load_from_base64_needs_metadata_witness :
  exists e,
    DocumentLoader.load_from_base64 (fun b : bool => b) Ok (fun s => s) Ok
      (fun _ _ => Ok []) (fun _ _ => Ok [])
      (fun text _ => Ok [Sample.doc text None]) "aGVsbG8=" "txt" None
    = Raise ("Failed to load document from base64: " +:+ e)
    /\ (forall content_bytes,
           Ok "aGVsbG8=" = Ok content_bytes ->
           e = "'NoneType' object has no attribute 'get'").
Proof.
  apply (load_from_base64_needs_metadata (fun b : bool => b) Ok (fun s => s)
           Ok (fun _ _ => Ok []) (fun _ _ => Ok [])
           (fun text _ => Ok [Sample.doc text None]) "aGVsbG8=" "txt").
  discriminate.
Defined.

Lemma isPDF_flag_overrides_file_type_witness :
  DocumentLoader.load_from_base64_body (fun b : bool => b) Ok (fun s => s) Ok
    (fun bytes _ => Ok [Sample.doc bytes None]) (fun _ _ => Ok [])
    (fun _ _ => Ok []) "JVBERi0=" "docx" (Some {[ "isPDF" := true ]})
  = Ok [Sample.doc "JVBERi0=" None].
Proof.
  apply (isPDF_flag_overrides_file_type (fun b : bool => b) Ok (fun s => s) Ok
           (fun bytes _ => Ok [Sample.doc bytes None]) (fun _ _ => Ok [])
           (fun _ _ => Ok []) "JVBERi0=" "docx" "JVBERi0="
           {[ "isPDF" := true ]} true).
  - reflexivity.
  - reflexivity.
  - reflexivity.
Defined.


(* ===================================================================== *)
(** * Retrieval in vector mode *)
(* ===================================================================== *)

Section VectorMode.

Context (ext : External) (config : AppConfig).

(** X27.  With no reranker configured, vector mode asks the store for
    exactly [top_k] passages and returns the store's answer as it is,
    a failure of the store included.  With a reranker configured
    ([reranker_type] "mmr" or "basic") vector mode returns nothing: it
    raises the error of the [RerankedRetriever] constructor without
    asking the store.  The process state is untouched in both cases. *)
Theorem vector_mode_returns_the_store_passages
    (vs : VectorStore) (top_k : Z) (query : string) (w : World) :
  retrieve ext config vs "vector" (Some {[ "k" := top_k ]}) query w
  = (if reranking config
     then Raise reranked_init_error
     else similarity_search vs query top_k, w).
Proof.
  assert (Hkw : RetrieverFactory.kwargs_or_default config
                  (Some {[ "k" := top_k ]}) = {[ "k" := top_k ]}).
  { unfold RetrieverFactory.kwargs_or_default.
    destruct (decide (({[ "k" := top_k ]} : gmap string Z) = ∅)) as [He|];
      [|done].
    by apply map_non_empty_singleton in He. }
  assert (Hk : search_k ext {[ "k" := top_k ]} = top_k).
  { unfold search_k. by rewrite lookup_singleton_eq. }
  rewrite retrieve_vector, Hkw, vector_retriever_cases. unfold through.
  destruct (reranking config); [done|].
  simpl. unfold lift. by rewrite Hk.
Qed.

End VectorMode.
